(** * Zoological Society: the collection view controller of [src/app.v2.js]

    A shallow embedding of the client-side state of the game archive (the
    per-console cache, the three filters, the pagination cursor, the detail
    navigation cursor) and of the functions that derive the visible list from
    it: [renderGamesForCurrentConsole], [applyFilter], [applyGenreFilter],
    [applyStatusFilter], [loadGamesForConsole], [apiCall], [confirmAddGame],
    [deleteGame], [openGameDetail], [navigateToPrevGame], [navigateToNextGame].

    Conventions of the embedding:
    - a JavaScript string is the list of its UTF-16 code units ([list N]);
    - a JavaScript number that the code only uses as an integer is a [Z];
    - [null]/[undefined] is [None]; truthiness is written out ([truthy],
      [truthyId]);
    - the module-level [let] variables are the fields of [State], together
      with the parts of the document the functions write to (the game list
      container, the detail modal, the toasts) and a log of the requests sent;
    - an [async] function takes the responses of the requests it sends as
      arguments and is run to completion, a call that is not awaited
      ([loadLastAdded], [recordGameView]) at the place of the call:
      interleavings of overlapping requests are outside the model;
    - the sidebars (console list, alphabetical index, genre and status
      lists) are functions of the state and are not stored;
    - [String.prototype.localeCompare] and [String.prototype.toUpperCase]
      depend on the host's collation and case tables: they are parameters. *)

From stdpp Require Import gmap list strings.
From Stdlib Require Import ZArith Lia Sorting.Sorted Sorting.Permutation DecimalString.

Local Open Scope Z_scope.

(* ===================================================================== *)
(** ** JavaScript strings and arrays *)
(* ===================================================================== *)

Abbreviation jsstring := (list N).

(** The code units of a string literal of the source (ASCII/Latin-1). *)
Definition js (s : string) : jsstring :=
  Ascii.N_of_ascii <$> String.list_ascii_of_string s.

(** Decimal rendering of a number inside a template literal. *)
Definition decimal (z : Z) : jsstring := js (NilZero.string_of_int (Z.to_int z)).

Arguments js : simpl never.
Arguments decimal : simpl never.

(** Truthiness of a nullable string: [null] and the empty string are falsy. *)
Definition truthy (o : option jsstring) : bool :=
  match o with
  | Some (_ :: _) => true
  | _ => false
  end.

(** Truthiness of a nullable numeric id: [null] and [0] are falsy. *)
Definition truthyId (o : option Z) : bool :=
  match o with
  | Some z => negb (z =? 0)
  | None => false
  end.

(** [a === b] on nullable strings. *)
Definition strictEq (a b : option jsstring) : bool := bool_decide (a = b).

(** WhiteSpace and LineTerminator code points of ECMAScript, the ones
    [String.prototype.trim] removes. *)
Definition isWhiteSpace (c : N) : bool :=
  match c with
  | 9 | 10 | 11 | 12 | 13 | 32 | 160 | 5760 | 8232 | 8233 | 8239 | 8287 | 12288 | 65279 => true
  | _ => (8192 <=? c)%N && (c <=? 8202)%N
  end%N.

Fixpoint trimStart (s : jsstring) : jsstring :=
  match s with
  | c :: s' => if isWhiteSpace c then trimStart s' else s
  | [] => []
  end.

Definition trimEnd (s : jsstring) : jsstring := reverse (trimStart (reverse s)).

(** [s.trim()]. *)
Definition trim (s : jsstring) : jsstring := trimEnd (trimStart s).

(** [s.split(sep)] for a separator of one code unit: the pieces between the
    separators, in order; the empty string gives one empty piece. *)
Fixpoint split (sep : N) (s : jsstring) : list jsstring :=
  match s with
  | [] => [[]]
  | c :: s' =>
      if (c =? sep)%N then [] :: split sep s'
      else match split sep s' with
           | p :: ps => (c :: p) :: ps
           | [] => [[c]]
           end
  end.

(** [pieces.join(sep)], the inverse of [split]. *)
Fixpoint joinWith (sep : N) (pieces : list jsstring) : jsstring :=
  match pieces with
  | [] => []
  | [p] => p
  | p :: ps => p ++ sep :: joinWith sep ps
  end.

Definition comma : N := 44.
Definition newline : N := 10.

(** [s.startsWith(p)]. *)
Fixpoint startsWith (s p : jsstring) : bool :=
  match p, s with
  | [], _ => true
  | _ :: _, [] => false
  | b :: p', a :: s' => (a =? b)%N && startsWith s' p'
  end.

(** [/^[0-9]/.test(s)]. *)
Definition startsWithDigit (s : jsstring) : bool :=
  match s with
  | c :: _ => (48 <=? c)%N && (c <=? 57)%N
  | [] => false
  end.

Section Arrays.
Context {A : Type}.

(** [Array.prototype.sort(cmp)] is stable (ECMAScript 2019): an element goes
    before a later one exactly when the comparator does not put it after.
    For a consistent comparator every stable sort returns this list. *)
Fixpoint insertBy (cmp : A -> A -> Z) (x : A) (l : list A) : list A :=
  match l with
  | [] => [x]
  | y :: l' => if cmp x y <=? 0 then x :: l else y :: insertBy cmp x l'
  end.

Definition sortBy (cmp : A -> A -> Z) (l : list A) : list A :=
  foldr (insertBy cmp) [] l.

(** The order of a sorted array: [cmp a b <= 0] for [a] before [b]. *)
Definition notAfter (cmp : A -> A -> Z) (a b : A) : Prop := cmp a b <= 0.

(** [l.slice(start, end)], with the relative (negative) indices of
    ECMAScript. *)
Definition slice (l : list A) (start end_ : Z) : list A :=
  let len := Z.of_nat (length l) in
  let k := if start <? 0 then Z.max (len + start) 0 else Z.min start len in
  let final := if end_ <? 0 then Z.max (len + end_) 0 else Z.min end_ len in
  take (Z.to_nat (final - k)) (drop (Z.to_nat k) l).

(** [l.findIndex(p)]: the first index whose element satisfies [p], or -1. *)
Fixpoint findIndexFrom (p : A -> bool) (l : list A) (i : Z) : Z :=
  match l with
  | [] => -1
  | x :: l' => if p x then i else findIndexFrom p l' (i + 1)
  end.

Definition findIndex (p : A -> bool) (l : list A) : Z := findIndexFrom p l 0.

(** [l[i]] for a numeric index. *)
Definition at_index (l : list A) (i : Z) : option A :=
  if i <? 0 then None else l !! Z.to_nat i.
End Arrays.

(** [Math.ceil(n / d)] for an array length [n] and a positive integer [d]:
    lengths are below 2^32, where the double division followed by [ceil] is
    the integer ceiling. *)
Definition ceilDiv (n d : Z) : Z := (n + d - 1) / d.

(* ===================================================================== *)
(** ** Data model *)
(* ===================================================================== *)

(** A game as the server returns it; [genre] is a comma-separated tag string
    and may be missing. *)
Record Game := mkGame {
  game_id : Z;
  game_title : jsstring;
  game_genre : option jsstring;
  game_description : option jsstring;
  game_screenshots : list jsstring
}.

(** Aggregate counts, read-only snapshots of the server's. *)
Abbreviation Stats := (list (jsstring * Z)).

Record GameStatus := { completed_date_note : option jsstring }.

(** The summary the add endpoints answer with. *)
Record AddResult := { added : Z; skipped : Z }.

Inductive ToastType := ToastInfo | ToastSuccess | ToastWarning | ToastError.

Record Toast := { toast_message : jsstring; toast_type : ToastType }.

Inductive Method := GET | POST | DELETE.

(** The endpoints the modelled functions call (the path after [API]). A
    console id is interpolated as it is, [null] included. *)
Inductive Endpoint :=
| ConsoleGames (consoleId : option Z)
| ConsoleGamesBulk (consoleId : option Z)
| ConsoleStats (consoleId : option Z)
| ConsoleGamesByStatus (consoleId : option Z) (status : jsstring)
| GamesByStatus (status : jsstring)
| GameById (gameId : Z)
| GameStatusOf (gameId : Z)
| GameView (gameId : Z)
| ArchiveStats
| RecentlyAdded.

Record Request := { req_endpoint : Endpoint; req_method : Method }.

(** What a request comes back with: a 2xx response whose body parses, a
    non-2xx response (with the [detail] of its error body: [None] inside
    [Some] when the body parses but has no usable detail, [None] when the body
    does not parse), or a rejection of [fetch]/[json] with its message. *)
Inductive Response (A : Type) :=
| Fulfilled (body : A)
| ErrorStatus (status : Z) (errorBody : option (option jsstring))
| Rejected (message : jsstring).
Arguments Fulfilled {A} body.
Arguments ErrorStatus {A} status errorBody.
Arguments Rejected {A} message.

(** The [#game-list] container after a render. *)
Record Pagination := {
  pg_prev : bool;
  pg_page : Z;
  pg_total : Z;
  pg_next : bool
}.

Inductive GameListView :=
| EmptyList
| SelectConsoleNotice
| NoGamesNotice
| Cards (pageGames : list Game) (pagination : Pagination).

(** The content of the game detail modal. *)
Record DetailView := {
  dv_game : Game;
  dv_isFirst : bool;
  dv_isLast : bool;
  dv_position : option (Z * Z);
  dv_descPage : Z;
  dv_descPages : Z
}.

(** The other elements of the page the modelled functions read or write. *)
Record PageElements := {
  tabSingleActive : bool;
  addGameTitle : jsstring;
  addGamesList : jsstring;
  modalAddGameOpen : bool;
  modalGameDetailOpen : bool;
  recentlyViewedHidden : bool
}.

(* ===================================================================== *)
(** ** The controller's state *)
(* ===================================================================== *)

(** The module-level variables of the source (same names), then the parts of
    the document and of the outside world the functions act on. The keys of
    [gamesByConsole] are the values the source indexes the object with: a
    console id or [null]. *)
Record State := mkState {
  gamesByConsole : gmap (option Z) (list Game);
  currentConsoleId : option Z;
  currentGameDetail : option Game;
  activeFilter : option jsstring;
  activeGenreFilter : option jsstring;
  activeStatusFilter : option jsstring;
  currentPage : Z;
  isLoading : bool;
  archiveStats : Stats;
  consoleStats : option Stats;
  currentLightboxScreenshots : list jsstring;
  currentGameIndex : Z;
  currentGamesList : list Game;
  currentDescriptionPage : Z;
  totalDescriptionPages : Z;
  currentGameStatus : option GameStatus;
  statusFilteredGames : list Game;
  gameList : GameListView;
  gameDetail : option DetailView;
  page : PageElements;
  toasts : list Toast;
  requests : list Request
}.

(** Assignment to one variable. *)
Definition set_gamesByConsole (v : gmap (option Z) (list Game)) (s : State) : State :=
  mkState v (currentConsoleId s) (currentGameDetail s) (activeFilter s) (activeGenreFilter s)
    (activeStatusFilter s) (currentPage s) (isLoading s) (archiveStats s) (consoleStats s)
    (currentLightboxScreenshots s) (currentGameIndex s) (currentGamesList s)
    (currentDescriptionPage s) (totalDescriptionPages s) (currentGameStatus s)
    (statusFilteredGames s) (gameList s) (gameDetail s) (page s) (toasts s) (requests s).

Definition set_currentConsoleId (v : option Z) (s : State) : State :=
  mkState (gamesByConsole s) v (currentGameDetail s) (activeFilter s) (activeGenreFilter s)
    (activeStatusFilter s) (currentPage s) (isLoading s) (archiveStats s) (consoleStats s)
    (currentLightboxScreenshots s) (currentGameIndex s) (currentGamesList s)
    (currentDescriptionPage s) (totalDescriptionPages s) (currentGameStatus s)
    (statusFilteredGames s) (gameList s) (gameDetail s) (page s) (toasts s) (requests s).

Definition set_currentGameDetail (v : option Game) (s : State) : State :=
  mkState (gamesByConsole s) (currentConsoleId s) v (activeFilter s) (activeGenreFilter s)
    (activeStatusFilter s) (currentPage s) (isLoading s) (archiveStats s) (consoleStats s)
    (currentLightboxScreenshots s) (currentGameIndex s) (currentGamesList s)
    (currentDescriptionPage s) (totalDescriptionPages s) (currentGameStatus s)
    (statusFilteredGames s) (gameList s) (gameDetail s) (page s) (toasts s) (requests s).

Definition set_activeFilter (v : option jsstring) (s : State) : State :=
  mkState (gamesByConsole s) (currentConsoleId s) (currentGameDetail s) v
    (activeGenreFilter s) (activeStatusFilter s) (currentPage s) (isLoading s)
    (archiveStats s) (consoleStats s) (currentLightboxScreenshots s) (currentGameIndex s)
    (currentGamesList s) (currentDescriptionPage s) (totalDescriptionPages s)
    (currentGameStatus s) (statusFilteredGames s) (gameList s) (gameDetail s) (page s)
    (toasts s) (requests s).

Definition set_activeGenreFilter (v : option jsstring) (s : State) : State :=
  mkState (gamesByConsole s) (currentConsoleId s) (currentGameDetail s) (activeFilter s) v
    (activeStatusFilter s) (currentPage s) (isLoading s) (archiveStats s) (consoleStats s)
    (currentLightboxScreenshots s) (currentGameIndex s) (currentGamesList s)
    (currentDescriptionPage s) (totalDescriptionPages s) (currentGameStatus s)
    (statusFilteredGames s) (gameList s) (gameDetail s) (page s) (toasts s) (requests s).

Definition set_activeStatusFilter (v : option jsstring) (s : State) : State :=
  mkState (gamesByConsole s) (currentConsoleId s) (currentGameDetail s) (activeFilter s)
    (activeGenreFilter s) v (currentPage s) (isLoading s) (archiveStats s) (consoleStats s)
    (currentLightboxScreenshots s) (currentGameIndex s) (currentGamesList s)
    (currentDescriptionPage s) (totalDescriptionPages s) (currentGameStatus s)
    (statusFilteredGames s) (gameList s) (gameDetail s) (page s) (toasts s) (requests s).

Definition set_currentPage (v : Z) (s : State) : State :=
  mkState (gamesByConsole s) (currentConsoleId s) (currentGameDetail s) (activeFilter s)
    (activeGenreFilter s) (activeStatusFilter s) v (isLoading s) (archiveStats s)
    (consoleStats s) (currentLightboxScreenshots s) (currentGameIndex s) (currentGamesList s)
    (currentDescriptionPage s) (totalDescriptionPages s) (currentGameStatus s)
    (statusFilteredGames s) (gameList s) (gameDetail s) (page s) (toasts s) (requests s).

Definition set_isLoading (v : bool) (s : State) : State :=
  mkState (gamesByConsole s) (currentConsoleId s) (currentGameDetail s) (activeFilter s)
    (activeGenreFilter s) (activeStatusFilter s) (currentPage s) v (archiveStats s)
    (consoleStats s) (currentLightboxScreenshots s) (currentGameIndex s) (currentGamesList s)
    (currentDescriptionPage s) (totalDescriptionPages s) (currentGameStatus s)
    (statusFilteredGames s) (gameList s) (gameDetail s) (page s) (toasts s) (requests s).

Definition set_archiveStats (v : Stats) (s : State) : State :=
  mkState (gamesByConsole s) (currentConsoleId s) (currentGameDetail s) (activeFilter s)
    (activeGenreFilter s) (activeStatusFilter s) (currentPage s) (isLoading s) v
    (consoleStats s) (currentLightboxScreenshots s) (currentGameIndex s) (currentGamesList s)
    (currentDescriptionPage s) (totalDescriptionPages s) (currentGameStatus s)
    (statusFilteredGames s) (gameList s) (gameDetail s) (page s) (toasts s) (requests s).

Definition set_consoleStats (v : option Stats) (s : State) : State :=
  mkState (gamesByConsole s) (currentConsoleId s) (currentGameDetail s) (activeFilter s)
    (activeGenreFilter s) (activeStatusFilter s) (currentPage s) (isLoading s)
    (archiveStats s) v (currentLightboxScreenshots s) (currentGameIndex s)
    (currentGamesList s) (currentDescriptionPage s) (totalDescriptionPages s)
    (currentGameStatus s) (statusFilteredGames s) (gameList s) (gameDetail s) (page s)
    (toasts s) (requests s).

Definition set_currentLightboxScreenshots (v : list jsstring) (s : State) : State :=
  mkState (gamesByConsole s) (currentConsoleId s) (currentGameDetail s) (activeFilter s)
    (activeGenreFilter s) (activeStatusFilter s) (currentPage s) (isLoading s)
    (archiveStats s) (consoleStats s) v (currentGameIndex s) (currentGamesList s)
    (currentDescriptionPage s) (totalDescriptionPages s) (currentGameStatus s)
    (statusFilteredGames s) (gameList s) (gameDetail s) (page s) (toasts s) (requests s).

Definition set_currentGameIndex (v : Z) (s : State) : State :=
  mkState (gamesByConsole s) (currentConsoleId s) (currentGameDetail s) (activeFilter s)
    (activeGenreFilter s) (activeStatusFilter s) (currentPage s) (isLoading s)
    (archiveStats s) (consoleStats s) (currentLightboxScreenshots s) v (currentGamesList s)
    (currentDescriptionPage s) (totalDescriptionPages s) (currentGameStatus s)
    (statusFilteredGames s) (gameList s) (gameDetail s) (page s) (toasts s) (requests s).

Definition set_currentGamesList (v : list Game) (s : State) : State :=
  mkState (gamesByConsole s) (currentConsoleId s) (currentGameDetail s) (activeFilter s)
    (activeGenreFilter s) (activeStatusFilter s) (currentPage s) (isLoading s)
    (archiveStats s) (consoleStats s) (currentLightboxScreenshots s) (currentGameIndex s) v
    (currentDescriptionPage s) (totalDescriptionPages s) (currentGameStatus s)
    (statusFilteredGames s) (gameList s) (gameDetail s) (page s) (toasts s) (requests s).

Definition set_currentDescriptionPage (v : Z) (s : State) : State :=
  mkState (gamesByConsole s) (currentConsoleId s) (currentGameDetail s) (activeFilter s)
    (activeGenreFilter s) (activeStatusFilter s) (currentPage s) (isLoading s)
    (archiveStats s) (consoleStats s) (currentLightboxScreenshots s) (currentGameIndex s)
    (currentGamesList s) v (totalDescriptionPages s) (currentGameStatus s)
    (statusFilteredGames s) (gameList s) (gameDetail s) (page s) (toasts s) (requests s).

Definition set_totalDescriptionPages (v : Z) (s : State) : State :=
  mkState (gamesByConsole s) (currentConsoleId s) (currentGameDetail s) (activeFilter s)
    (activeGenreFilter s) (activeStatusFilter s) (currentPage s) (isLoading s)
    (archiveStats s) (consoleStats s) (currentLightboxScreenshots s) (currentGameIndex s)
    (currentGamesList s) (currentDescriptionPage s) v (currentGameStatus s)
    (statusFilteredGames s) (gameList s) (gameDetail s) (page s) (toasts s) (requests s).

Definition set_currentGameStatus (v : option GameStatus) (s : State) : State :=
  mkState (gamesByConsole s) (currentConsoleId s) (currentGameDetail s) (activeFilter s)
    (activeGenreFilter s) (activeStatusFilter s) (currentPage s) (isLoading s)
    (archiveStats s) (consoleStats s) (currentLightboxScreenshots s) (currentGameIndex s)
    (currentGamesList s) (currentDescriptionPage s) (totalDescriptionPages s) v
    (statusFilteredGames s) (gameList s) (gameDetail s) (page s) (toasts s) (requests s).

Definition set_statusFilteredGames (v : list Game) (s : State) : State :=
  mkState (gamesByConsole s) (currentConsoleId s) (currentGameDetail s) (activeFilter s)
    (activeGenreFilter s) (activeStatusFilter s) (currentPage s) (isLoading s)
    (archiveStats s) (consoleStats s) (currentLightboxScreenshots s) (currentGameIndex s)
    (currentGamesList s) (currentDescriptionPage s) (totalDescriptionPages s)
    (currentGameStatus s) v (gameList s) (gameDetail s) (page s) (toasts s) (requests s).

Definition set_gameList (v : GameListView) (s : State) : State :=
  mkState (gamesByConsole s) (currentConsoleId s) (currentGameDetail s) (activeFilter s)
    (activeGenreFilter s) (activeStatusFilter s) (currentPage s) (isLoading s)
    (archiveStats s) (consoleStats s) (currentLightboxScreenshots s) (currentGameIndex s)
    (currentGamesList s) (currentDescriptionPage s) (totalDescriptionPages s)
    (currentGameStatus s) (statusFilteredGames s) v (gameDetail s) (page s) (toasts s)
    (requests s).

Definition set_gameDetail (v : option DetailView) (s : State) : State :=
  mkState (gamesByConsole s) (currentConsoleId s) (currentGameDetail s) (activeFilter s)
    (activeGenreFilter s) (activeStatusFilter s) (currentPage s) (isLoading s)
    (archiveStats s) (consoleStats s) (currentLightboxScreenshots s) (currentGameIndex s)
    (currentGamesList s) (currentDescriptionPage s) (totalDescriptionPages s)
    (currentGameStatus s) (statusFilteredGames s) (gameList s) v (page s) (toasts s)
    (requests s).

Definition set_page (v : PageElements) (s : State) : State :=
  mkState (gamesByConsole s) (currentConsoleId s) (currentGameDetail s) (activeFilter s)
    (activeGenreFilter s) (activeStatusFilter s) (currentPage s) (isLoading s)
    (archiveStats s) (consoleStats s) (currentLightboxScreenshots s) (currentGameIndex s)
    (currentGamesList s) (currentDescriptionPage s) (totalDescriptionPages s)
    (currentGameStatus s) (statusFilteredGames s) (gameList s) (gameDetail s) v (toasts s)
    (requests s).

Definition set_toasts (v : list Toast) (s : State) : State :=
  mkState (gamesByConsole s) (currentConsoleId s) (currentGameDetail s) (activeFilter s)
    (activeGenreFilter s) (activeStatusFilter s) (currentPage s) (isLoading s)
    (archiveStats s) (consoleStats s) (currentLightboxScreenshots s) (currentGameIndex s)
    (currentGamesList s) (currentDescriptionPage s) (totalDescriptionPages s)
    (currentGameStatus s) (statusFilteredGames s) (gameList s) (gameDetail s) (page s) v
    (requests s).

Definition set_requests (v : list Request) (s : State) : State :=
  mkState (gamesByConsole s) (currentConsoleId s) (currentGameDetail s) (activeFilter s)
    (activeGenreFilter s) (activeStatusFilter s) (currentPage s) (isLoading s)
    (archiveStats s) (consoleStats s) (currentLightboxScreenshots s) (currentGameIndex s)
    (currentGamesList s) (currentDescriptionPage s) (totalDescriptionPages s)
    (currentGameStatus s) (statusFilteredGames s) (gameList s) (gameDetail s) (page s)
    (toasts s) v.

(* ===================================================================== *)
(** ** Control flow of the async functions *)
(* ===================================================================== *)

(** A call either returns a value or throws an [Error] with a message. *)
Inductive Outcome (A : Type) :=
| Returned (value : A)
| Thrown (message : jsstring).
Arguments Returned {A} value.
Arguments Thrown {A} message.

Definition Async (A : Type) : Type := State -> State * Outcome A.

Definition ret {A} (a : A) : Async A := fun s => (s, Returned a).

Definition bind {A B} (m : Async A) (k : A -> Async B) : Async B :=
  fun s =>
    match m s with
    | (s', Returned a) => k a s'
    | (s', Thrown e) => (s', Thrown e)
    end.

(** [try { m } catch (e) { handler e }]. *)
Definition tryCatch {A} (m : Async A) (handler : jsstring -> Async A) : Async A :=
  fun s =>
    match m s with
    | (s', Thrown e) => handler e s'
    | r => r
    end.

(** A statement that only assigns. *)
Definition modify (f : State -> State) : Async unit := fun s => (f s, Returned tt).

Definition get {A} (f : State -> A) : Async A := fun s => (s, Returned (f s)).

Definition throw {A} (message : jsstring) : Async A := fun s => (s, Thrown message).

(** The state a call leaves behind. *)
Definition exec {A} (m : Async A) (s : State) : State := fst (m s).

Notation "x <- m ;; k" := (bind m (fun x => k))
  (at level 100, m at next level, right associativity).
Notation "m ;;; k" := (bind m (fun _ => k))
  (at level 100, right associativity).

(* ===================================================================== *)
(** ** DOM helpers and the request wrapper *)
(* ===================================================================== *)

Definition setLoading (show : bool) (s : State) : State := set_isLoading show s.

(** [showToast]: one more notice on the page. *)
Definition showToast (message : jsstring) (type : ToastType) (s : State) : State :=
  set_toasts (toasts s ++ [{| toast_message := message; toast_type := type |}]) s.

(** The message of the error [apiCall] throws for a response that is not a
    success: [error.detail || `HTTP ${res.status}`], where an unparseable body
    counts as [{ detail: "Unknown error" }]. *)
Definition errorMessage {A} (r : Response A) : jsstring :=
  match r with
  | Fulfilled _ => []
  | ErrorStatus status None => js "Unknown error"
  | ErrorStatus status (Some detail) =>
      if truthy detail then default [] detail else js "HTTP " ++ decimal status
  | Rejected message => message
  end.

(** [apiCall(endpoint, options)], given what the request comes back with. *)
Definition apiCall {A} (endpoint : Endpoint) (method : Method) (r : Response A) : Async A :=
  fun s =>
    let s := setLoading true s in
    let s := set_requests (requests s ++ [{| req_endpoint := endpoint; req_method := method |}]) s in
    match r with
    | Fulfilled body => (setLoading false s, Returned body)
    | _ =>
        let s := showToast (js "Error: " ++ errorMessage r) ToastError s in
        (setLoading false s, Thrown (errorMessage r))
    end.

(** The notice [apiCall] shows for a response that is not a success. *)
Definition apiErrorToast {A} (r : Response A) : Toast :=
  {| toast_message := js "Error: " ++ errorMessage r; toast_type := ToastError |}.

Definition toggleModalAddGame (show : bool) (s : State) : State :=
  let p := page s in
  set_page {| tabSingleActive := tabSingleActive p; addGameTitle := addGameTitle p;
              addGamesList := addGamesList p; modalAddGameOpen := show;
              modalGameDetailOpen := modalGameDetailOpen p;
              recentlyViewedHidden := recentlyViewedHidden p |} s.

Definition toggleModalGameDetail (show : bool) (s : State) : State :=
  let p := page s in
  set_page {| tabSingleActive := tabSingleActive p; addGameTitle := addGameTitle p;
              addGamesList := addGamesList p; modalAddGameOpen := modalAddGameOpen p;
              modalGameDetailOpen := show;
              recentlyViewedHidden := recentlyViewedHidden p |} s.

Definition setRecentlyViewedHidden (hidden : bool) (s : State) : State :=
  let p := page s in
  set_page {| tabSingleActive := tabSingleActive p; addGameTitle := addGameTitle p;
              addGamesList := addGamesList p; modalAddGameOpen := modalAddGameOpen p;
              modalGameDetailOpen := modalGameDetailOpen p;
              recentlyViewedHidden := hidden |} s.

Definition clearAddGameTitle (s : State) : State :=
  let p := page s in
  set_page {| tabSingleActive := tabSingleActive p; addGameTitle := [];
              addGamesList := addGamesList p; modalAddGameOpen := modalAddGameOpen p;
              modalGameDetailOpen := modalGameDetailOpen p;
              recentlyViewedHidden := recentlyViewedHidden p |} s.

Definition clearAddGamesList (s : State) : State :=
  let p := page s in
  set_page {| tabSingleActive := tabSingleActive p; addGameTitle := addGameTitle p;
              addGamesList := []; modalAddGameOpen := modalAddGameOpen p;
              modalGameDetailOpen := modalGameDetailOpen p;
              recentlyViewedHidden := recentlyViewedHidden p |} s.

Definition PAGE_SIZE : Z := 20.

(** The games a [#game-list] container shows. *)
Definition displayedGames (v : GameListView) : list Game :=
  match v with
  | Cards pageGames _ => pageGames
  | _ => []
  end.

(** The page number after the clamp of [renderGamesForCurrentConsole]. *)
Definition clampedPage (games : list Game) (requested : Z) : Z :=
  if ceilDiv (Z.of_nat (length games)) PAGE_SIZE <? requested then 1 else requested.

(** The container a render leaves for a working list and a page. *)
Definition viewOf (games : list Game) (p : Z) : GameListView :=
  let totalPages := ceilDiv (Z.of_nat (length games)) PAGE_SIZE in
  match slice games ((p - 1) * PAGE_SIZE) ((p - 1) * PAGE_SIZE + PAGE_SIZE) with
  | [] => NoGamesNotice
  | pageGames =>
      Cards pageGames {| pg_prev := 1 <? p; pg_page := p; pg_total := totalPages;
                         pg_next := p <? totalPages |}
  end.

(* ===================================================================== *)
(** ** The order the specification asks for *)
(* ===================================================================== *)

(** The specification's words for the order of the base list: "by title,
    case-insensitive lexicographic, deterministic tie-break by id if titles
    are equal". Case folding is that of the ASCII letters. *)
Definition foldCase (c : N) : N :=
  if (65 <=? c)%N && (c <=? 90)%N then (c + 32)%N else c.

Fixpoint lexCompare (a b : jsstring) : comparison :=
  match a, b with
  | [], [] => Eq
  | [], _ :: _ => Lt
  | _ :: _, [] => Gt
  | x :: a', y :: b' =>
      match (x ?= y)%N with
      | Eq => lexCompare a' b'
      | c => c
      end
  end.

Definition specTitleThenId (a b : Game) : bool :=
  match lexCompare (foldCase <$> game_title a) (foldCase <$> game_title b) with
  | Lt => true
  | Eq => game_id a <=? game_id b
  | Gt => false
  end.

Fixpoint specSorted (l : list Game) : bool :=
  match l with
  | a :: (b :: _) as l' => specTitleThenId a b && specSorted l'
  | _ => true
  end.

(* ===================================================================== *)
(** ** A host and sample data, to run the definitions *)
(* ===================================================================== *)

(** A collation that compares code unit by code unit. On two identical
    titles, and on two titles in capitals that differ in their first letter,
    it answers as every locale does. *)
Definition ordinalCompare (a b : jsstring) : Z :=
  match lexCompare a b with
  | Lt => -1
  | Eq => 0
  | Gt => 1
  end.

(** Upper-casing of the ASCII letters. *)
Definition asciiUpperCase (s : jsstring) : jsstring :=
  (fun c => if (97 <=? c)%N && (c <=? 122)%N then (c - 32)%N else c) <$> s.

Definition sampleGame (i : Z) (title : string) (genre : option string) : Game :=
  {| game_id := i; game_title := js title; game_genre := js <$> genre;
     game_description := None; game_screenshots := [] |}.

(** The values the module's variables are initialised with, an empty page. *)
Definition initialState : State :=
  {| gamesByConsole := ∅; currentConsoleId := None; currentGameDetail := None;
     activeFilter := None; activeGenreFilter := None; activeStatusFilter := None;
     currentPage := 1; isLoading := false; archiveStats := []; consoleStats := None;
     currentLightboxScreenshots := []; currentGameIndex := -1; currentGamesList := [];
     currentDescriptionPage := 1; totalDescriptionPages := 1; currentGameStatus := None;
     statusFilteredGames := []; gameList := EmptyList; gameDetail := None;
     page := {| tabSingleActive := true; addGameTitle := []; addGamesList := [];
                modalAddGameOpen := false; modalGameDetailOpen := false;
                recentlyViewedHidden := false |};
     toasts := []; requests := [] |}.

Definition asteroids : Game := sampleGame 1 "Asteroids" (Some "Action, Arcade").
Definition zelda : Game := sampleGame 2 "Zelda" (Some "Action, RPG ").
Definition tetris : Game := sampleGame 3 "Tetris" None.

(** Console 1 selected, with three games in the cache, and rendered. *)
Definition sampleConsole : State :=
  set_gameList
    (Cards [asteroids; tetris; zelda]
       {| pg_prev := false; pg_page := 1; pg_total := 1; pg_next := false |})
    (set_currentConsoleId (Some 1)
       (set_gamesByConsole {[ Some 1 := [zelda; asteroids; tetris] ]} initialState)).

(** [n] games "Game" with ids [n], ..., 1. *)
Fixpoint manyGames (n : nat) : list Game :=
  match n with
  | O => []
  | S k => sampleGame (Z.of_nat n) "Game" None :: manyGames k
  end.

(** Console 1 with 45 games, the page number [p] requested. *)
Definition fortyFive (p : Z) : State :=
  set_currentPage p (set_gamesByConsole {[ Some 1 := manyGames 45 ]} sampleConsole).

(** The sample console after a click on the status filter "favorite",
    answered by the server with "Zelda" and "Asteroids", in this order. *)
Definition favorites : State :=
  set_requests [{| req_endpoint := ConsoleGamesByStatus (Some 1) (js "favorite");
                   req_method := GET |}]
    (setRecentlyViewedHidden true
       (set_gameList
          (Cards [zelda; asteroids]
             {| pg_prev := false; pg_page := 1; pg_total := 1; pg_next := false |})
          (set_statusFilteredGames [zelda; asteroids]
             (set_activeStatusFilter (Some (js "favorite")) sampleConsole)))).

(** Two games of one title in the cache, the one with the greater id first. *)
Definition twoTetris : State :=
  set_gamesByConsole {[ Some 1 := [sampleGame 7 "Tetris" None; sampleGame 3 "Tetris" None] ]}
    sampleConsole.

(** The genre filter "RPG" active. *)
Definition genreRpg : State := set_activeGenreFilter (Some (js "RPG")) sampleConsole.

(** The detail modal open on the three games of console 1, cursor at [i]. *)
Definition browsing (i : Z) : State :=
  set_currentGameIndex i (set_currentGamesList [asteroids; tetris; zelda] sampleConsole).

(** The add-game form filled in: one title, or a list of two. *)
Definition addOne : State :=
  set_page {| tabSingleActive := true; addGameTitle := js " Doom "; addGamesList := [];
              modalAddGameOpen := true; modalGameDetailOpen := false;
              recentlyViewedHidden := false |} sampleConsole.

Definition addTwo : State :=
  set_page {| tabSingleActive := false; addGameTitle := [];
              addGamesList := js "Doom" ++ [newline] ++ js "Quake";
              modalAddGameOpen := true; modalGameDetailOpen := false;
              recentlyViewedHidden := false |} sampleConsole.

(** A 500 answer with a JSON error body. *)
Definition serverError {A} : Response A :=
  ErrorStatus 500 (Some (Some (js "Internal Server Error"))).

(** The number of error notices among the toasts. *)
Definition errorNotices (l : list Toast) : nat :=
  length (List.filter (fun t => match toast_type t with ToastError => true | _ => false end) l).

(* ===================================================================== *)
(** ** The controller *)
(* ===================================================================== *)

Section Controller.
(** [a.localeCompare(b)]: negative, zero or positive. *)
Variable localeCompare : jsstring -> jsstring -> Z.
(** [s.toUpperCase()]. *)
Variable toUpperCase : jsstring -> jsstring.

(** The comparator [(a, b) => a.title.localeCompare(b.title)]. *)
Definition byTitle (a b : Game) : Z := localeCompare (game_title a) (game_title b).

(** [gamesByConsole[currentConsoleId] || []]. *)
Definition cachedGames (s : State) : list Game :=
  default [] (gamesByConsole s !! currentConsoleId s).

(** The callback of the alphabetical filter. *)
Definition matchesAlpha (letter : jsstring) (g : Game) : bool :=
  if bool_decide (letter = js "0-9") then startsWithDigit (game_title g)
  else startsWith (toUpperCase (game_title g)) letter.

(** The callback of the genre filter. *)
Definition matchesGenre (genre : jsstring) (g : Game) : bool :=
  match game_genre g with
  | None | Some [] => false
  | Some tags => existsb (fun piece => bool_decide (trim piece = genre)) (split comma tags)
  end.

(** [renderGamesForCurrentConsole], first statement: the list the pipeline
    starts from, [None] where the function returns after the notice
    "Select a console to see its games." *)
Definition baseGames (s : State) : option (list Game) :=
  if truthy (activeStatusFilter s) && (0 <? Z.of_nat (length (statusFilteredGames s))) then
    Some (statusFilteredGames s)
  else if negb (truthyId (currentConsoleId s)) then None
  else Some (sortBy byTitle (cachedGames s)).

(** Second and third statements: the two guarded filters. *)
Definition alphaFiltered (s : State) (games : list Game) : list Game :=
  if negb (truthy (activeStatusFilter s)) && truthy (activeFilter s) then
    List.filter (matchesAlpha (default [] (activeFilter s))) games
  else games.

Definition genreFiltered (s : State) (games : list Game) : list Game :=
  if negb (truthy (activeStatusFilter s)) && truthy (activeGenreFilter s) then
    List.filter (matchesGenre (default [] (activeGenreFilter s))) games
  else games.

(** The value of [games] when the pagination starts. *)
Definition workingGames (s : State) : option (list Game) :=
  (fun base => genreFiltered s (alphaFiltered s base)) <$> baseGames s.

Definition renderGamesForCurrentConsole (s : State) : State :=
  match workingGames s with
  | None => set_gameList SelectConsoleNotice s
  | Some games =>
      let totalPages := ceilDiv (Z.of_nat (length games)) PAGE_SIZE in
      let s := if totalPages <? currentPage s then set_currentPage 1 s else s in
      let start := (currentPage s - 1) * PAGE_SIZE in
      let end_ := start + PAGE_SIZE in
      let pageGames := slice games start end_ in
      match pageGames with
      | [] => set_gameList NoGamesNotice s
      | _ :: _ =>
          set_gameList
            (Cards pageGames
               {| pg_prev := 1 <? currentPage s; pg_page := currentPage s;
                  pg_total := totalPages; pg_next := currentPage s <? totalPages |}) s
      end
  end.

(** *** Filters *)

Definition applyFilter (letter : jsstring) (s : State) : State :=
  let s := set_activeFilter (Some letter) s in
  let s := set_currentPage 1 s in
  renderGamesForCurrentConsole s.

Definition applyGenreFilter (genre : jsstring) (s : State) : State :=
  let s :=
    if strictEq (activeGenreFilter s) (Some genre) then set_activeGenreFilter None s
    else set_activeGenreFilter (Some genre) s in
  let s := set_activeFilter None s in
  let s := set_activeStatusFilter None s in
  let s := set_currentPage 1 s in
  renderGamesForCurrentConsole s.

(** [applyStatusFilter(status)]; [r] answers the by-status request, which is
    only sent when the filter is switched on. *)
Definition applyStatusFilter (status : jsstring) (r : Response (list Game)) : Async unit :=
  (active <- get activeStatusFilter ;;
   if strictEq active (Some status) then
     modify (set_activeStatusFilter None) ;;;
     modify (set_statusFilteredGames []) ;;;
     modify (setRecentlyViewedHidden false)
   else
     modify (set_activeStatusFilter (Some status)) ;;;
     tryCatch
       (consoleId <- get currentConsoleId ;;
        games <- (if truthyId consoleId
                  then apiCall (ConsoleGamesByStatus consoleId status) GET r
                  else apiCall (GamesByStatus status) GET r) ;;
        modify (set_statusFilteredGames games))
       (fun _ => modify (set_statusFilteredGames [])) ;;;
     modify (setRecentlyViewedHidden true)) ;;;
  modify (set_activeFilter None) ;;;
  modify (set_activeGenreFilter None) ;;;
  modify (set_currentPage 1) ;;;
  modify renderGamesForCurrentConsole.

(** *** Loading *)

Definition loadGamesForConsole (consoleId : option Z)
    (rGames : Response (list Game)) (rStats : Response Stats) : Async unit :=
  tryCatch
    (games <- apiCall (ConsoleGames consoleId) GET rGames ;;
     modify (fun s => set_gamesByConsole (<[consoleId := games]> (gamesByConsole s)) s))
    (fun _ => modify (fun s => set_gamesByConsole (<[consoleId := []]> (gamesByConsole s)) s)) ;;;
  tryCatch
    (stats <- apiCall (ConsoleStats consoleId) GET rStats ;;
     modify (set_consoleStats (Some stats)))
    (fun _ => modify (set_consoleStats None)) ;;;
  modify renderGamesForCurrentConsole.

(** [loadStats]: the archive-wide counts; a failure is only logged to the
    console. *)
Definition loadStats (rArchive : Response Stats) : Async unit :=
  tryCatch
    (stats <- apiCall ArchiveStats GET rArchive ;;
     modify (set_archiveStats stats))
    (fun _ => ret tt).

(** [loadLastAdded]: fills the "last added" strip of the homepage, which is
    not part of [State]. *)
Definition loadLastAdded (rRecent : Response (list Game)) : Async unit :=
  tryCatch (apiCall RecentlyAdded GET rRecent ;;; ret tt) (fun _ => ret tt).

(** *** Mutations *)

(** [confirmAddGame]: [rAdd] answers the POST, the other responses answer
    the refresh that follows a success. *)
Definition confirmAddGame (rAdd : Response AddResult) (rGames : Response (list Game))
    (rStats : Response Stats) (rRecent : Response (list Game)) : Async unit :=
  consoleId <- get currentConsoleId ;;
  if negb (truthyId consoleId) then
    modify (showToast (js "Please select a console first") ToastWarning)
  else
    single <- get (fun s => tabSingleActive (page s)) ;;
    if single then
      title <- get (fun s => trim (addGameTitle (page s))) ;;
      match title with
      | [] => modify (showToast (js "Please enter a game title") ToastWarning)
      | _ :: _ =>
          tryCatch
            (result <- apiCall (ConsoleGames consoleId) POST rAdd ;;
             modify (if 0 <? added result
                     then showToast (js "Added: " ++ title) ToastSuccess
                     else showToast (js "Already exists: " ++ title) ToastInfo) ;;;
             modify (toggleModalAddGame false) ;;;
             modify clearAddGameTitle ;;;
             loadGamesForConsole consoleId rGames rStats ;;;
             loadLastAdded rRecent)
            (fun _ => modify (showToast (js "Failed to add game") ToastError))
      end
    else
      listText <- get (fun s => trim (addGamesList (page s))) ;;
      match listText with
      | [] => modify (showToast (js "Please paste a list of games") ToastWarning)
      | _ :: _ =>
          let games :=
            List.filter (fun line => 0 <? Z.of_nat (length line))
              (trim <$> split newline listText) in
          match games with
          | [] => modify (showToast (js "No valid game titles found") ToastWarning)
          | _ :: _ =>
              tryCatch
                (result <- apiCall (ConsoleGamesBulk consoleId) POST rAdd ;;
                 modify (showToast
                           (js "Added " ++ decimal (added result) ++ js " games" ++
                            (if 0 <? skipped result
                             then js " (" ++ decimal (skipped result) ++ js " already existed)"
                             else []))
                           ToastSuccess) ;;;
                 modify (toggleModalAddGame false) ;;;
                 modify clearAddGamesList ;;;
                 loadGamesForConsole consoleId rGames rStats ;;;
                 loadLastAdded rRecent)
                (fun _ => modify (showToast (js "Failed to add games") ToastError))
          end
      end.

(** [deleteGame(gameId, event)]; [confirmed] is the answer to the [confirm]
    dialog. The genre sidebar ([extractGenres]) is not part of [State]. *)
Definition deleteGame (gameId : Z) (confirmed : bool) (rDelete : Response unit)
    (rGames : Response (list Game)) (rStats rArchive : Response Stats) : Async unit :=
  if negb confirmed then ret tt
  else
    tryCatch
      (apiCall (GameById gameId) DELETE rDelete ;;;
       modify (showToast (js "Game deleted successfully") ToastSuccess) ;;;
       consoleId <- get currentConsoleId ;;
       loadGamesForConsole consoleId rGames rStats ;;;
       loadStats rArchive)
      (fun _ => ret tt).

(** *** Game detail *)

Definition loadGameStatus (gameId : Z) (r : Response GameStatus) : Async (option GameStatus) :=
  tryCatch (status <- apiCall (GameStatusOf gameId) GET r ;; ret (Some status))
           (fun _ => ret None).

Definition recordGameView (gameId : Z) (r : Response unit) : Async unit :=
  tryCatch (apiCall (GameView gameId) POST r ;;; ret tt) (fun _ => ret tt).

(** [renderGameDetail(game)]: the description pager and the navigation
    buttons of the modal. *)
Definition renderGameDetail (game : Game) (s : State) : State :=
  let descriptionText :=
    if truthy (game_description game) then default [] (game_description game)
    else js "No description available" in
  let charsPerPage := 800 in
  let s := set_totalDescriptionPages
             (Z.max 1 (ceilDiv (Z.of_nat (length descriptionText)) charsPerPage)) s in
  let s := if totalDescriptionPages s <? currentDescriptionPage s
           then set_currentDescriptionPage 1 s else s in
  let len := Z.of_nat (length (currentGamesList s)) in
  set_gameDetail
    (Some {| dv_game := game;
             dv_isFirst := currentGameIndex s <=? 0;
             dv_isLast := len - 1 <=? currentGameIndex s;
             dv_position := if 0 <? len then Some (currentGameIndex s + 1, len) else None;
             dv_descPage := currentDescriptionPage s;
             dv_descPages := totalDescriptionPages s |}) s.

(** The list [openGameDetail] stores in [currentGamesList]. *)
Definition navigationList (s : State) : list Game :=
  let l := sortBy byTitle (cachedGames s) in
  if truthy (activeFilter s) || truthy (activeGenreFilter s) then
    let l := if truthy (activeFilter s)
             then List.filter (matchesAlpha (default [] (activeFilter s))) l else l in
    if truthy (activeGenreFilter s)
    then List.filter (matchesGenre (default [] (activeGenreFilter s))) l else l
  else l.

Definition openGameDetail (gameId : Z) (rGame : Response Game) (rView : Response unit)
    (rStatus : Response GameStatus) : Async unit :=
  tryCatch
    (game <- apiCall (GameById gameId) GET rGame ;;
     modify (set_currentGameDetail (Some game)) ;;;
     modify (set_currentLightboxScreenshots (game_screenshots game)) ;;;
     modify (set_currentDescriptionPage 1) ;;;
     modify (set_totalDescriptionPages 1) ;;;
     recordGameView gameId rView ;;;
     status <- loadGameStatus gameId rStatus ;;
     modify (set_currentGameStatus status) ;;;
     modify (fun s => set_currentGamesList (navigationList s) s) ;;;
     modify (fun s => set_currentGameIndex
                        (findIndex (fun g => game_id g =? gameId) (currentGamesList s)) s) ;;;
     modify (renderGameDetail game) ;;;
     modify (toggleModalGameDetail true))
    (fun _ => ret tt).

(** The body shared by the two navigation functions once the index has
    moved: load the game at the new index and show it. Reading [.id] of a
    missing element throws inside the [try]. *)
Definition loadGameAtIndex (failure : jsstring) (rGame : Response Game)
    (rStatus : Response GameStatus) : Async unit :=
  target <- get (fun s => at_index (currentGamesList s) (currentGameIndex s)) ;;
  tryCatch
    (match target with
     | None => throw (js "Cannot read properties of undefined (reading 'id')")
     | Some g =>
         game <- apiCall (GameById (game_id g)) GET rGame ;;
         modify (set_currentGameDetail (Some game)) ;;;
         modify (set_currentLightboxScreenshots (game_screenshots game)) ;;;
         modify (set_currentDescriptionPage 1) ;;;
         status <- loadGameStatus (game_id g) rStatus ;;
         modify (set_currentGameStatus status) ;;;
         modify (renderGameDetail game)
     end)
    (fun _ => modify (showToast failure ToastError)).

Definition navigateToPrevGame (rGame : Response Game) (rStatus : Response GameStatus)
    : Async unit :=
  fun s =>
    if (currentGameIndex s <=? 0) || (Z.of_nat (length (currentGamesList s)) =? 0)
    then ret tt s
    else
      (modify (fun s => set_currentGameIndex (currentGameIndex s - 1) s) ;;;
       loadGameAtIndex (js "Failed to load previous game") rGame rStatus) s.

Definition navigateToNextGame (rGame : Response Game) (rStatus : Response GameStatus)
    : Async unit :=
  fun s =>
    if (Z.of_nat (length (currentGamesList s)) - 1 <=? currentGameIndex s)
       || (Z.of_nat (length (currentGamesList s)) =? 0)
    then ret tt s
    else
      (modify (fun s => set_currentGameIndex (currentGameIndex s + 1) s) ;;;
       loadGameAtIndex (js "Failed to load next game") rGame rStatus) s.

(* =================================================================== *)
(** ** Properties *)
(* =================================================================== *)

(** *** Stable sorting *)

Section Sorting.
Context {A : Type} (cmp : A -> A -> Z).

Lemma insertBy_Permutation (x : A) (l : list A) : insertBy cmp x l ≡ₚ x :: l.
Proof.
  induction l as [|y l IH]; simpl; [reflexivity|].
  destruct (cmp x y <=? 0); [reflexivity|].
  rewrite IH. apply perm_swap.
Qed.

Lemma sortBy_Permutation (l : list A) : sortBy cmp l ≡ₚ l.
Proof.
  induction l as [|x l IH]; simpl; [reflexivity|].
  rewrite insertBy_Permutation. now rewrite IH.
Qed.

Lemma sortBy_length (l : list A) : length (sortBy cmp l) = length l.
Proof. apply Permutation_length, sortBy_Permutation. Qed.

(** An element only moves past the elements the comparator puts before
    it, so a class of elements that never go after one another keeps its
    order. *)
Lemma insertBy_filter (P : A -> bool) (x : A) (l : list A) :
  (forall y, P x = true -> P y = true -> cmp x y <= 0) ->
  List.filter P (insertBy cmp x l) = List.filter P (x :: l).
Proof.
  intros Hclass. induction l as [|y l IH]; [reflexivity|].
  cbn [insertBy]. destruct (Z.leb_spec (cmp x y) 0) as [Hle|Hgt]; [reflexivity|].
  cbn [List.filter] in *. rewrite IH.
  destruct (P x) eqn:Px, (P y) eqn:Py; try reflexivity.
  specialize (Hclass y eq_refl Py). lia.
Qed.

Lemma sortBy_filter (P : A -> bool) (l : list A) :
  (forall x y, P x = true -> P y = true -> cmp x y <= 0) ->
  List.filter P (sortBy cmp l) = List.filter P l.
Proof.
  intros Hclass. induction l as [|x l IH]; [reflexivity|].
  cbn [sortBy foldr]. rewrite insertBy_filter by (intros; now apply Hclass).
  cbn [List.filter]. fold (sortBy cmp l). now rewrite IH.
Qed.

Hypothesis cmp_total : forall a b, cmp a b <= 0 \/ cmp b a <= 0.
Hypothesis cmp_trans : forall a b c, cmp a b <= 0 -> cmp b c <= 0 -> cmp a c <= 0.

Lemma insertBy_StronglySorted (x : A) (l : list A) :
  StronglySorted (notAfter cmp) l -> StronglySorted (notAfter cmp) (insertBy cmp x l).
Proof using cmp_total cmp_trans.
  induction 1 as [|y l Hl IH Hy]; simpl.
  - repeat constructor.
  - destruct (Z.leb_spec (cmp x y) 0) as [Hle|Hgt].
    + constructor; [now constructor|].
      constructor; [exact Hle|].
      eapply Forall_impl; [exact Hy|]. intros z Hz. now apply (cmp_trans x y z).
    + constructor; [exact IH|].
      rewrite insertBy_Permutation. constructor; [|exact Hy].
      destruct (cmp_total x y) as [H|H]; [lia|exact H].
Qed.

Lemma sortBy_StronglySorted (l : list A) : StronglySorted (notAfter cmp) (sortBy cmp l).
Proof using cmp_total cmp_trans.
  induction l as [|x l IH]; simpl; [constructor|].
  now apply insertBy_StronglySorted.
Qed.
End Sorting.

(** *** What a render reads and writes *)

Arguments renderGamesForCurrentConsole : simpl never.
Arguments workingGames : simpl never.

Lemma render_unfold (s : State) :
  renderGamesForCurrentConsole s =
  match workingGames s with
  | None => set_gameList SelectConsoleNotice s
  | Some games =>
      let p := clampedPage games (currentPage s) in
      set_gameList (viewOf games p) (set_currentPage p s)
  end.
Proof.
  unfold renderGamesForCurrentConsole, clampedPage, viewOf.
  destruct (workingGames s) as [games|]; [|reflexivity].
  cbn zeta. destruct (_ <? currentPage s); cbn;
    destruct (slice games _ _); reflexivity.
Qed.

Lemma clampedPage_idem (games : list Game) (p : Z) :
  clampedPage games (clampedPage games p) = clampedPage games p.
Proof.
  unfold clampedPage.
  destruct (Z.ltb_spec (ceilDiv (Z.of_nat (length games)) PAGE_SIZE) p) as [H|H].
  - destruct (_ <? 1); reflexivity.
  - destruct (Z.ltb_spec (ceilDiv (Z.of_nat (length games)) PAGE_SIZE) p); [lia|reflexivity].
Qed.

(** A render changes the page number and the container, nothing else. *)
Lemma render_frame (s : State) :
  exists p v, renderGamesForCurrentConsole s = set_gameList v (set_currentPage p s).
Proof.
  rewrite render_unfold. destruct (workingGames s) as [games|].
  - now eexists _, _.
  - now exists (currentPage s), SelectConsoleNotice.
Qed.

Lemma workingGames_render (s : State) :
  workingGames (renderGamesForCurrentConsole s) = workingGames s.
Proof. destruct (render_frame s) as (p & v & ->). reflexivity. Qed.

(** Rendering again, with nothing changed in between, changes nothing. *)
Lemma render_idempotent (s : State) :
  renderGamesForCurrentConsole (renderGamesForCurrentConsole s) =
  renderGamesForCurrentConsole s.
Proof.
  rewrite (render_unfold (renderGamesForCurrentConsole s)), workingGames_render.
  rewrite (render_unfold s).
  destruct (workingGames s) as [games|]; [|reflexivity].
  cbn. now rewrite clampedPage_idem.
Qed.

(** *** [split] and [trim] *)

Lemma split_not_nil (sep : N) (s : jsstring) : split sep s <> [].
Proof.
  destruct s as [|c s]; simpl; [discriminate|].
  destruct (c =? sep)%N; [discriminate|]. destruct (split sep s); discriminate.
Qed.

(** Joining the pieces with the separator gives the string back. *)
Lemma joinWith_split (sep : N) (s : jsstring) : joinWith sep (split sep s) = s.
Proof.
  induction s as [|c s IH]; [reflexivity|].
  cbn [split]. destruct (N.eqb_spec c sep) as [->|Hne].
  - pose proof (split_not_nil sep s) as Hnil.
    destruct (split sep s) as [|p ps]; [contradiction|].
    cbn [joinWith app]. cbn [joinWith] in IH. now rewrite IH.
  - pose proof (split_not_nil sep s) as Hnil.
    destruct (split sep s) as [|p ps]; [contradiction|].
    destruct ps as [|q ps]; cbn [joinWith app] in *; now rewrite IH.
Qed.

(** No piece contains the separator. *)
Lemma split_pieces_free (sep : N) (s p : jsstring) :
  In p (split sep s) -> ~ In sep p.
Proof.
  revert p. induction s as [|c s IH]; intros p Hp.
  - destruct Hp as [<-|[]]. intros [].
  - cbn [split] in Hp. destruct (N.eqb_spec c sep) as [->|Hne].
    + destruct Hp as [<-|Hp]; [intros []|now apply IH].
    + destruct (split sep s) as [|q qs].
      * destruct Hp as [<-|[]]. intros [->|[]]. now apply Hne.
      * destruct Hp as [<-|Hp].
        -- intros [->|Hq]; [now apply Hne|]. apply (IH q); [now left|exact Hq].
        -- apply IH. now right.
Qed.

(** [trimStart] removes a run of white space and stops at the first code
    unit that is not white space. *)
Lemma trimStart_decompose (s : jsstring) :
  exists ws, s = ws ++ trimStart s /\ forallb isWhiteSpace ws = true.
Proof.
  induction s as [|c s (ws & Hs & Hws)]; [now exists []|].
  cbn [trimStart]. destruct (isWhiteSpace c) eqn:Hc.
  - exists (c :: ws). cbn. rewrite Hc, Hws. split; [now f_equal|reflexivity].
  - now exists [].
Qed.

Lemma trimStart_head (s : jsstring) (c : N) :
  head (trimStart s) = Some c -> isWhiteSpace c = false.
Proof.
  induction s as [|d s IH]; [discriminate|].
  cbn [trimStart]. destruct (isWhiteSpace d) eqn:Hd; [exact IH|].
  cbn. now intros [= <-].
Qed.

Lemma trimStart_last (s : jsstring) (c : N) :
  last (trimStart s) = Some c -> last s = Some c.
Proof.
  destruct (trimStart_decompose s) as (ws & Hs & _).
  intros Hlast. rewrite Hs at 1. rewrite last_app, Hlast. reflexivity.
Qed.

(** [trim] removes white space at both ends, and only white space; what
    is left neither starts nor ends with white space. *)
Lemma trim_decompose (s : jsstring) :
  exists ws1 ws2,
    s = ws1 ++ trim s ++ ws2 /\
    forallb isWhiteSpace ws1 = true /\ forallb isWhiteSpace ws2 = true.
Proof.
  destruct (trimStart_decompose s) as (ws1 & Hs & Hws1).
  destruct (trimStart_decompose (reverse (trimStart s))) as (ws2 & Hr & Hws2).
  exists ws1, (reverse ws2). repeat split; [|exact Hws1|].
  - unfold trim, trimEnd. rewrite <- reverse_app, <- Hr, reverse_involutive. exact Hs.
  - rewrite forallb_forall in *. intros x Hx. apply Hws2.
    rewrite <- list_elem_of_In in *. now rewrite elem_of_reverse in Hx.
Qed.

Lemma trim_ends (s : jsstring) (c : N) :
  head (trim s) = Some c \/ last (trim s) = Some c -> isWhiteSpace c = false.
Proof.
  unfold trim, trimEnd. rewrite head_reverse, last_reverse. intros [H|H].
  - apply trimStart_last in H. rewrite last_reverse in H. now apply trimStart_head in H.
  - now apply trimStart_head in H.
Qed.

(** *** The genre filter *)

Lemma matchesGenre_iff (genre : jsstring) (g : Game) :
  genre <> [] ->
  matchesGenre genre g = true <->
  exists tags piece,
    game_genre g = Some tags /\ In piece (split comma tags) /\ trim piece = genre.
Proof.
  intros Hgenre. unfold matchesGenre.
  destruct (game_genre g) as [[|c tags]|].
  - split; [discriminate|]. intros (tags & piece & [= <-] & Hin & Htrim).
    destruct Hin as [<-|[]]. now symmetry in Htrim.
  - rewrite existsb_exists. split.
    + intros (piece & Hin & Heq). apply bool_decide_eq_true in Heq. now exists (c :: tags), piece.
    + intros (tags' & piece & [= <-] & Hin & Htrim). exists piece.
      split; [exact Hin|]. now apply bool_decide_eq_true.
  - split; [discriminate|]. now intros (tags & piece & [=] & _).
Qed.

(** C7. With a genre filter active (and no status filter), a game of the
    list passes the genre filter of [renderGamesForCurrentConsole] if and
    only if one of the pieces of its genre string, split on commas and
    trimmed, is exactly the active filter; a game whose genre is missing or
    empty has no such piece and passes no genre filter. *)
Theorem C7_genre_filter_exact_trimmed_tag (s : State) (genre : jsstring)
    (games : list Game) (g : Game) :
  truthy (activeStatusFilter s) = false ->
  activeGenreFilter s = Some genre ->
  genre <> [] ->
  (In g (genreFiltered s games) <->
   In g games /\
   exists tags piece,
     game_genre g = Some tags /\ In piece (split comma tags) /\ trim piece = genre) /\
  (game_genre g = None \/ game_genre g = Some [] -> ~ In g (genreFiltered s games)).
Proof.
  intros Hstatus Hgenre Hne.
  assert (Hf : genreFiltered s games = List.filter (matchesGenre genre) games).
  { unfold genreFiltered. rewrite Hstatus, Hgenre. destruct genre; [contradiction|reflexivity]. }
  rewrite Hf. split.
  - rewrite filter_In, matchesGenre_iff by exact Hne. reflexivity.
  - intros Hmissing. rewrite filter_In. intros [_ Hm]. unfold matchesGenre in Hm.
    destruct Hmissing as [H|H]; rewrite H in Hm; discriminate.
Qed.

(** *** The base list *)

Section Collation.
(** What the sort needs of the host's collation: any two titles are
    comparable, and the order is transitive. *)
Hypothesis localeCompare_total :
  forall a b, localeCompare a b <= 0 \/ localeCompare b a <= 0.
Hypothesis localeCompare_trans :
  forall a b c, localeCompare a b <= 0 -> localeCompare b c <= 0 -> localeCompare a c <= 0.

(** C1 (amended). When the base list is taken from the cache (no status
    filter with a non-empty subset, a console selected), it is the cached
    list of the console sorted by title under [localeCompare], stably: a
    permutation of the cached list, in which no game is after a later one,
    and in which the games with one and the same title are in their cache
    order (there is no tie-break by id). Rendering a second time, with
    nothing changed, leaves the page as it is. *)
Theorem C1_cached_base_list_sorted_stable (s : State) :
  truthy (activeStatusFilter s) && (0 <? Z.of_nat (length (statusFilteredGames s))) = false ->
  truthyId (currentConsoleId s) = true ->
  exists base,
    baseGames s = Some base /\
    Permutation base (cachedGames s) /\
    StronglySorted (notAfter byTitle) base /\
    (forall t,
       List.filter (fun g => bool_decide (game_title g = t)) base =
       List.filter (fun g => bool_decide (game_title g = t)) (cachedGames s)) /\
    renderGamesForCurrentConsole (renderGamesForCurrentConsole s) =
    renderGamesForCurrentConsole s.
Proof using localeCompare_total localeCompare_trans.
  intros Hstatus Hconsole. exists (sortBy byTitle (cachedGames s)).
  split; [|split; [|split; [|split]]].
  - unfold baseGames. now rewrite Hstatus, Hconsole.
  - apply sortBy_Permutation.
  - apply (sortBy_StronglySorted byTitle).
    + intros a b. apply localeCompare_total.
    + intros a b c. apply localeCompare_trans.
  - intros t. apply sortBy_filter. intros x y Hx Hy.
    apply bool_decide_eq_true in Hx, Hy. unfold byTitle. rewrite Hx, Hy.
    destruct (localeCompare_total t t); assumption.
  - apply render_idempotent.
Qed.
End Collation.

(** *** The status filter *)

(** What a render does while a status filter is active: the alphabetical
    and the genre filter are bypassed; a status subset that is not empty is
    the working list; with an empty one the pipeline falls through to the
    cached list of the selected console, sorted and unfiltered, and to the
    notice "Select a console" when none is selected. *)
Lemma status_filter_working_list (s : State) :
  truthy (activeStatusFilter s) = true ->
  (statusFilteredGames s <> [] -> workingGames s = Some (statusFilteredGames s)) /\
  (statusFilteredGames s = [] ->
   workingGames s =
   if truthyId (currentConsoleId s) then Some (sortBy byTitle (cachedGames s)) else None) /\
  (forall games,
     workingGames s = Some games ->
     gameList (renderGamesForCurrentConsole s) =
     viewOf games (clampedPage games (currentPage s))) /\
  (workingGames s = None ->
   gameList (renderGamesForCurrentConsole s) = SelectConsoleNotice).
Proof.
  intros Hstatus. unfold workingGames, baseGames, alphaFiltered, genreFiltered.
  rewrite Hstatus. cbn [negb andb]. split; [|split; [|split]].
  - intros Hne. destruct (statusFilteredGames s); [contradiction|reflexivity].
  - intros ->. cbn. now destruct (truthyId (currentConsoleId s)).
  - intros games Hgames. rewrite render_unfold.
    unfold workingGames, baseGames, alphaFiltered, genreFiltered.
    rewrite Hstatus. cbn [negb andb]. now rewrite Hgames.
  - intros Hnone. rewrite render_unfold.
    unfold workingGames, baseGames, alphaFiltered, genreFiltered.
    rewrite Hstatus. cbn [negb andb]. now rewrite Hnone.
Qed.

(** Switching a status filter on with a non-empty answer of the server
    shows that answer. *)
Lemma applyStatusFilter_shows_subset (s : State) (status : jsstring) (g : Game)
    (games : list Game) :
  status <> [] ->
  activeStatusFilter s <> Some status ->
  workingGames (exec (applyStatusFilter status (Fulfilled (g :: games))) s) = Some (g :: games).
Proof.
  intros Hstatus Hactive.
  unfold exec, applyStatusFilter, bind, get, modify, tryCatch, apiCall, strictEq.
  rewrite bool_decide_eq_false_2 by exact Hactive.
  cbn. destruct (truthyId _); cbn;
    rewrite workingGames_render; unfold workingGames, baseGames; cbn;
    destruct status; try contradiction; reflexivity.
Qed.

(** *** The three filters *)

(** Whatever does not read the page number or the container is the same
    before and after a render. *)
Lemma render_preserves {A} (f : State -> A) (s : State) :
  (forall p v s', f (set_gameList v (set_currentPage p s')) = f s') ->
  f (renderGamesForCurrentConsole s) = f s.
Proof. intros Hf. destruct (render_frame s) as (p & v & ->). apply Hf. Qed.

Ltac run_async :=
  unfold exec, bind, modify, get, ret, throw, tryCatch, apiCall; cbn.

Ltac after_render :=
  repeat (rewrite render_preserves by reflexivity); cbn.

Lemma applyGenreFilter_genre (genre : jsstring) (s : State) :
  activeGenreFilter (applyGenreFilter genre s) =
  if strictEq (activeGenreFilter s) (Some genre) then None else Some genre.
Proof.
  unfold applyGenreFilter. after_render.
  now destruct (strictEq (activeGenreFilter s) (Some genre)).
Qed.

Lemma applyStatusFilter_status (status : jsstring) (r : Response (list Game)) (s : State) :
  activeStatusFilter (exec (applyStatusFilter status r) s) =
  if strictEq (activeStatusFilter s) (Some status) then None else Some status.
Proof.
  unfold applyStatusFilter. run_async.
  destruct (strictEq (activeStatusFilter s) (Some status)); cbn.
  - now after_render.
  - destruct (truthyId _), r; cbn; now after_render.
Qed.

(** C2 (amended). Each kind of filter is one nullable variable, so at most
    one filter of a kind is active. Activating (or switching off) a genre
    filter clears the alphabetical and the status filter; activating (or
    switching off) a status filter clears the alphabetical and the genre
    filter; applying an alphabetical filter sets the alphabetical filter
    only and leaves the genre and the status filter as they were. *)
Theorem C2_filters_cleared_by_activation (s : State) (letter genre status : jsstring)
    (r : Response (list Game)) :
  (activeFilter (applyGenreFilter genre s) = None /\
   activeStatusFilter (applyGenreFilter genre s) = None) /\
  (activeFilter (exec (applyStatusFilter status r) s) = None /\
   activeGenreFilter (exec (applyStatusFilter status r) s) = None) /\
  (activeFilter (applyFilter letter s) = Some letter /\
   activeGenreFilter (applyFilter letter s) = activeGenreFilter s /\
   activeStatusFilter (applyFilter letter s) = activeStatusFilter s).
Proof.
  split; [|split].
  - unfold applyGenreFilter. split; now after_render.
  - unfold applyStatusFilter. run_async.
    destruct (strictEq (activeStatusFilter s) (Some status)); cbn.
    + split; now after_render.
    + destruct (truthyId _), r; cbn; split; now after_render.
  - unfold applyFilter. repeat split; now after_render.
Qed.

(** *** Refreshing the cache *)

(** C4 (amended). When the request for the games of a console fails (a
    non-2xx answer or a rejected request), [loadGamesForConsole] replaces
    the cached list of that console by the empty list; the lists cached for
    the other consoles stay as they were. *)
Theorem C4_failed_refresh_empties_cache (s : State) (consoleId : option Z)
    (status : Z) (errorBody : option (option jsstring)) (message : jsstring)
    (rStats : Response Stats) :
  gamesByConsole (exec (loadGamesForConsole consoleId (ErrorStatus status errorBody) rStats) s)
  = <[consoleId := []]> (gamesByConsole s) /\
  gamesByConsole (exec (loadGamesForConsole consoleId (Rejected message) rStats) s)
  = <[consoleId := []]> (gamesByConsole s).
Proof.
  unfold loadGamesForConsole. run_async.
  split; destruct rStats; cbn; now after_render.
Qed.

(** A successful refresh stores the list the server answered with. *)
Lemma loadGamesForConsole_success (s : State) (consoleId : option Z) (games : list Game)
    (rStats : Response Stats) :
  gamesByConsole (exec (loadGamesForConsole consoleId (Fulfilled games) rStats) s)
  = <[consoleId := games]> (gamesByConsole s).
Proof.
  unfold loadGamesForConsole. run_async. destruct rStats; cbn; now after_render.
Qed.

(** *** Applying a filter twice *)

Lemma clampedPage_one (games : list Game) : clampedPage games 1 = 1.
Proof. unfold clampedPage. now destruct (_ <? 1). Qed.

Lemma applyFilter_idempotent (letter : jsstring) (s : State) :
  applyFilter letter (applyFilter letter s) = applyFilter letter s.
Proof.
  unfold applyFilter. cbn zeta.
  set (s' := set_currentPage 1 (set_activeFilter (Some letter) s)).
  assert (Hfix : set_currentPage 1 (set_activeFilter (Some letter)
                   (renderGamesForCurrentConsole s')) = renderGamesForCurrentConsole s').
  { rewrite render_unfold. destruct (workingGames s') as [games|]; [|reflexivity].
    cbn zeta. assert (Hp : currentPage s' = 1) by reflexivity.
    rewrite Hp, clampedPage_one. reflexivity. }
  rewrite Hfix. apply render_idempotent.
Qed.

(** The container and the page number a render leaves. *)
Lemma gameList_render (s : State) :
  gameList (renderGamesForCurrentConsole s) =
  match workingGames s with
  | Some games => viewOf games (clampedPage games (currentPage s))
  | None => SelectConsoleNotice
  end.
Proof. rewrite render_unfold. now destruct (workingGames s). Qed.

Lemma currentPage_render (s : State) :
  currentPage (renderGamesForCurrentConsole s) =
  match workingGames s with
  | Some games => clampedPage games (currentPage s)
  | None => currentPage s
  end.
Proof. rewrite render_unfold. now destruct (workingGames s). Qed.

(** Without filters, the working list is the sorted cache. *)
Lemma workingGames_unfiltered (s : State) :
  activeFilter s = None -> activeGenreFilter s = None -> activeStatusFilter s = None ->
  workingGames s =
  if truthyId (currentConsoleId s) then Some (sortBy byTitle (cachedGames s)) else None.
Proof.
  intros Halpha Hgenre Hstatus.
  unfold workingGames, baseGames, alphaFiltered, genreFiltered.
  rewrite Halpha, Hgenre, Hstatus. cbn. now destruct (truthyId (currentConsoleId s)).
Qed.

(** The container of a console without any filter, on page 1. *)
Definition unfilteredView (s : State) : GameListView :=
  if truthyId (currentConsoleId s) then viewOf (sortBy byTitle (cachedGames s)) 1
  else SelectConsoleNotice.

(** A render on page 1 of a state without filters. *)
Lemma render_unfiltered (s : State) :
  activeFilter s = None -> activeGenreFilter s = None -> activeStatusFilter s = None ->
  currentPage s = 1 ->
  gameList (renderGamesForCurrentConsole s) = unfilteredView s /\
  currentPage (renderGamesForCurrentConsole s) = 1.
Proof.
  intros Halpha Hgenre Hstatus Hpage.
  rewrite gameList_render, currentPage_render, workingGames_unfiltered by assumption.
  unfold unfilteredView. rewrite Hpage.
  destruct (truthyId (currentConsoleId s)); [|now split].
  now rewrite clampedPage_one.
Qed.

(** Applying the active status filter switches it off. *)
Lemma applyStatusFilter_off (status : jsstring) (r : Response (list Game)) (s : State) :
  activeStatusFilter s = Some status ->
  exec (applyStatusFilter status r) s =
  renderGamesForCurrentConsole
    (set_currentPage 1
       (set_activeGenreFilter None
          (set_activeFilter None
             (setRecentlyViewedHidden false
                (set_statusFilteredGames [] (set_activeStatusFilter None s)))))).
Proof.
  intros Hactive. unfold exec, applyStatusFilter, bind, get, modify, strictEq.
  cbv beta iota. rewrite Hactive, bool_decide_eq_true_2 by reflexivity. reflexivity.
Qed.

(** A status filter touches neither the selection nor the cache. *)
Lemma applyStatusFilter_cache (status : jsstring) (r : Response (list Game)) (s : State) :
  currentConsoleId (exec (applyStatusFilter status r) s) = currentConsoleId s /\
  gamesByConsole (exec (applyStatusFilter status r) s) = gamesByConsole s.
Proof.
  unfold applyStatusFilter. run_async.
  destruct (strictEq (activeStatusFilter s) (Some status)); cbn.
  - split; now after_render.
  - destruct (truthyId _), r; cbn; split; now after_render.
Qed.

(** C6 (amended). Applying an alphabetical filter is idempotent: the second
    application leaves the state, and with it the active filters and the
    displayed list, as the first one left it. Applying a genre or a status
    filter is a toggle: the first application of a value that is not the
    active one activates it, and applying the same value again switches
    the filter off; after the two applications no filter is active, the
    page is 1, and the container is the one of the console without any
    filter. *)
Theorem C6_alphabetical_idempotent_others_toggle (s : State) (letter genre status : jsstring)
    (r1 r2 : Response (list Game)) :
  applyFilter letter (applyFilter letter s) = applyFilter letter s /\
  (activeGenreFilter (applyGenreFilter genre s) =
     (if strictEq (activeGenreFilter s) (Some genre) then None else Some genre) /\
   activeGenreFilter (applyGenreFilter genre (applyGenreFilter genre s)) =
     (if strictEq (activeGenreFilter s) (Some genre) then Some genre else None)) /\
  (activeStatusFilter (exec (applyStatusFilter status r1) s) =
     (if strictEq (activeStatusFilter s) (Some status) then None else Some status) /\
   activeStatusFilter (exec (applyStatusFilter status r2) (exec (applyStatusFilter status r1) s)) =
     (if strictEq (activeStatusFilter s) (Some status) then Some status else None)) /\
  (activeGenreFilter s <> Some genre ->
   let twice := applyGenreFilter genre (applyGenreFilter genre s) in
   activeGenreFilter (applyGenreFilter genre s) = Some genre /\
   activeGenreFilter twice = None /\
   activeFilter twice = None /\
   activeStatusFilter twice = None /\
   currentPage twice = 1 /\
   gameList twice = unfilteredView s) /\
  (activeStatusFilter s <> Some status ->
   let twice := exec (applyStatusFilter status r2) (exec (applyStatusFilter status r1) s) in
   activeStatusFilter (exec (applyStatusFilter status r1) s) = Some status /\
   activeStatusFilter twice = None /\
   statusFilteredGames twice = [] /\
   activeFilter twice = None /\
   activeGenreFilter twice = None /\
   currentPage twice = 1 /\
   gameList twice = unfilteredView s).
Proof.
  split; [apply applyFilter_idempotent|]. split; [|split; [|split]].
  - rewrite !applyGenreFilter_genre. split; [reflexivity|].
    unfold strictEq. destruct (bool_decide (activeGenreFilter s = Some genre)).
    + now rewrite bool_decide_eq_false_2.
    + now rewrite bool_decide_eq_true_2.
  - rewrite !applyStatusFilter_status. split; [reflexivity|].
    unfold strictEq. destruct (bool_decide (activeStatusFilter s = Some status)).
    + now rewrite bool_decide_eq_false_2.
    + now rewrite bool_decide_eq_true_2.
  - intros Hinactive. cbn zeta.
    assert (Honce : activeGenreFilter (applyGenreFilter genre s) = Some genre).
    { rewrite applyGenreFilter_genre. unfold strictEq.
      now rewrite bool_decide_eq_false_2. }
    assert (Hsame : currentConsoleId (applyGenreFilter genre s) = currentConsoleId s /\
                    gamesByConsole (applyGenreFilter genre s) = gamesByConsole s).
    { unfold applyGenreFilter. destruct (strictEq _ _); split; now after_render. }
    destruct Hsame as [Hconsole Hcache].
    set (once := applyGenreFilter genre s) in *. clearbody once.
    unfold applyGenreFilter at 1 2 3 4 5. cbn zeta. unfold strictEq.
    rewrite Honce, bool_decide_eq_true_2 by reflexivity.
    set (cleared := set_currentPage 1 _).
    destruct (render_unfiltered cleared eq_refl eq_refl eq_refl eq_refl) as [Hlist Hpage].
    rewrite Hlist, Hpage. rewrite !render_preserves by reflexivity.
    unfold unfilteredView, cachedGames.
    change (currentConsoleId cleared) with (currentConsoleId once).
    change (gamesByConsole cleared) with (gamesByConsole once).
    rewrite Hconsole, Hcache. now repeat split.
  - intros Hinactive. cbn zeta.
    assert (Honce : activeStatusFilter (exec (applyStatusFilter status r1) s) = Some status).
    { rewrite applyStatusFilter_status. unfold strictEq.
      now rewrite bool_decide_eq_false_2. }
    destruct (applyStatusFilter_cache status r1 s) as [Hconsole Hcache].
    set (once := exec (applyStatusFilter status r1) s) in *. clearbody once.
    rewrite (applyStatusFilter_off status r2 once Honce).
    set (cleared := set_currentPage 1 _).
    destruct (render_unfiltered cleared eq_refl eq_refl eq_refl eq_refl) as [Hlist Hpage].
    rewrite Hlist, Hpage. rewrite !render_preserves by reflexivity.
    unfold unfilteredView, cachedGames.
    change (currentConsoleId cleared) with (currentConsoleId once).
    change (gamesByConsole cleared) with (gamesByConsole once).
    rewrite Hconsole, Hcache. now repeat split.
Qed.

(** *** Pagination *)

(** With a start that is not negative, [slice] is "drop, then take". *)
Lemma slice_take_drop {A} (l : list A) (start size : Z) :
  0 <= start -> 0 <= size ->
  slice l start (start + size) = take (Z.to_nat size) (drop (Z.to_nat start) l).
Proof.
  intros Hstart Hsize. unfold slice.
  destruct (Z.ltb_spec start 0) as [?|_]; [lia|].
  destruct (Z.ltb_spec (start + size) 0) as [?|_]; [lia|].
  destruct (Z_le_gt_dec start (Z.of_nat (length l))) as [Hin|Hout].
  - rewrite (Z.min_l start) by lia.
    destruct (Z_le_gt_dec (start + size) (Z.of_nat (length l))) as [Hfit|Hcut].
    + rewrite Z.min_l by lia. f_equal. lia.
    + rewrite Z.min_r by lia.
      rewrite !take_ge; [reflexivity| |]; rewrite length_drop; lia.
  - rewrite !Z.min_r by lia. rewrite Z.sub_diag.
    rewrite (drop_ge l (Z.to_nat start)) by lia. now rewrite take_nil.
Qed.

(** [ceilDiv n d] is the ceiling of n/d: the least number of pages of [d]
    items that hold [n] items. *)
Lemma ceilDiv_bounds (n : Z) :
  PAGE_SIZE * (ceilDiv n PAGE_SIZE - 1) < n <= PAGE_SIZE * ceilDiv n PAGE_SIZE.
Proof.
  unfold ceilDiv, PAGE_SIZE.
  pose proof (Z.div_mod (n + 20 - 1) 20 ltac:(lia)).
  pose proof (Z.mod_pos_bound (n + 20 - 1) 20 ltac:(lia)). lia.
Qed.

Lemma displayedGames_viewOf (games : list Game) (p : Z) :
  displayedGames (viewOf games p) =
  slice games ((p - 1) * PAGE_SIZE) ((p - 1) * PAGE_SIZE + PAGE_SIZE).
Proof. unfold viewOf. now destruct (slice games _ _). Qed.

(** C8. For a working list of [n] games and a requested page number (at
    least 1): the number of pages is the ceiling of n/20; the page shown is
    the requested one, or page 1 when the requested one is greater than the
    number of pages; and the container shows exactly the games at the
    positions (p-1)*20, ..., min(p*20, n)-1 of the working list. *)
Theorem C8_pagination (s : State) (games : list Game) :
  workingGames s = Some games ->
  1 <= currentPage s ->
  let n := Z.of_nat (length games) in
  let totalPages := ceilDiv n PAGE_SIZE in
  let p := if totalPages <? currentPage s then 1 else currentPage s in
  let shown := displayedGames (gameList (renderGamesForCurrentConsole s)) in
  PAGE_SIZE * (totalPages - 1) < n <= PAGE_SIZE * totalPages /\
  currentPage (renderGamesForCurrentConsole s) = p /\
  Z.of_nat (length shown) = Z.min (p * PAGE_SIZE) n - (p - 1) * PAGE_SIZE /\
  (forall i, 0 <= i < Z.of_nat (length shown) ->
             at_index shown i = at_index games ((p - 1) * PAGE_SIZE + i)).
Proof.
  intros Hgames Hpage n totalPages p shown.
  pose proof (ceilDiv_bounds n) as Hceil. fold totalPages in Hceil.
  assert (Hp : 1 <= p /\ (p - 1) * PAGE_SIZE <= n).
  { subst p. destruct (Z.ltb_spec totalPages (currentPage s)); unfold PAGE_SIZE in *; lia. }
  assert (Hshown : shown = take 20 (drop (Z.to_nat ((p - 1) * PAGE_SIZE)) games)).
  { subst shown. rewrite render_unfold, Hgames. cbn.
    rewrite displayedGames_viewOf. fold n totalPages. unfold clampedPage. fold n totalPages p.
    rewrite slice_take_drop by (unfold PAGE_SIZE; lia). reflexivity. }
  split; [exact Hceil|]. split; [|split].
  - rewrite render_unfold, Hgames. reflexivity.
  - rewrite Hshown, length_take, length_drop. unfold PAGE_SIZE in *. subst n. lia.
  - intros i Hi. rewrite Hshown in *. rewrite length_take, length_drop in Hi.
    unfold at_index.
    destruct (Z.ltb_spec i 0) as [?|_]; [lia|].
    destruct (Z.ltb_spec ((p - 1) * PAGE_SIZE + i) 0) as [?|_]; [unfold PAGE_SIZE in *; lia|].
    rewrite lookup_take, lookup_drop. destruct (decide (Z.to_nat i < 20)%nat) as [_|Hge].
    + f_equal. unfold PAGE_SIZE in *. lia.
    + lia.
Qed.

(** The page number stays a page number: a render keeps it at least 1, and
    every change of filter resets it to 1. *)
Lemma render_page_positive (s : State) :
  1 <= currentPage s -> 1 <= currentPage (renderGamesForCurrentConsole s).
Proof.
  intros Hpage. rewrite render_unfold. destruct (workingGames s) as [games|]; [|exact Hpage].
  cbn. unfold clampedPage. destruct (_ <? _); lia.
Qed.

Lemma render_page_one (s : State) :
  currentPage s = 1 -> currentPage (renderGamesForCurrentConsole s) = 1.
Proof.
  intros Hpage. rewrite render_unfold. destruct (workingGames s) as [games|]; [|exact Hpage].
  cbn. rewrite Hpage. apply clampedPage_one.
Qed.

Lemma filters_reset_page (s : State) (letter genre status : jsstring)
    (r : Response (list Game)) :
  currentPage (applyFilter letter s) = 1 /\
  currentPage (applyGenreFilter genre s) = 1 /\
  currentPage (exec (applyStatusFilter status r) s) = 1.
Proof.
  split; [|split].
  - unfold applyFilter. now apply render_page_one.
  - unfold applyGenreFilter. now apply render_page_one.
  - unfold applyStatusFilter. run_async.
    destruct (strictEq (activeStatusFilter s) (Some status)); cbn.
    + now apply render_page_one.
    + destruct (truthyId _), r; cbn; now apply render_page_one.
Qed.

(** *** Detail navigation *)

Arguments renderGameDetail : simpl never.
Arguments navigationList : simpl never.

(** [renderGameDetail] writes the description pager and the modal. *)
Lemma renderGameDetail_preserves {A} (f : State -> A) (game : Game) (s : State) :
  (forall a b d s',
     f (set_gameDetail d (set_currentDescriptionPage b (set_totalDescriptionPages a s'))) = f s') ->
  f (renderGameDetail game s) = f s.
Proof.
  intros Hf. unfold renderGameDetail. cbn zeta.
  destruct (_ <? _).
  - apply Hf.
  - match goal with |- f (set_gameDetail ?d (set_totalDescriptionPages ?a s)) = _ =>
      rewrite <- (Hf a (currentDescriptionPage s) d s) end.
    reflexivity.
Qed.

(** Loading the game under the cursor moves neither the cursor nor the list. *)
Lemma loadGameAtIndex_cursor (failure : jsstring) (rGame : Response Game)
    (rStatus : Response GameStatus) (s : State) :
  currentGameIndex (exec (loadGameAtIndex failure rGame rStatus) s) = currentGameIndex s /\
  currentGamesList (exec (loadGameAtIndex failure rGame rStatus) s) = currentGamesList s.
Proof.
  unfold loadGameAtIndex, loadGameStatus. run_async.
  destruct (at_index _ _); [destruct rGame; destruct rStatus|]; cbn;
    rewrite ?renderGameDetail_preserves by reflexivity; split; reflexivity.
Qed.

(** Where the two navigation functions leave the cursor. *)
Lemma navigateToPrevGame_cursor (rGame : Response Game) (rStatus : Response GameStatus)
    (s : State) :
  let s' := exec (navigateToPrevGame rGame rStatus) s in
  currentGamesList s' = currentGamesList s /\
  currentGameIndex s' =
  if (currentGameIndex s <=? 0) || (Z.of_nat (length (currentGamesList s)) =? 0)
  then currentGameIndex s else currentGameIndex s - 1.
Proof.
  cbn zeta. unfold exec, navigateToPrevGame. destruct (_ || _); [now split|].
  unfold bind, modify. cbn beta iota.
  destruct (loadGameAtIndex_cursor (js "Failed to load previous game") rGame rStatus
              (set_currentGameIndex (currentGameIndex s - 1) s)) as [Hi Hl].
  unfold exec in Hi, Hl. now rewrite Hi, Hl.
Qed.

Lemma navigateToNextGame_cursor (rGame : Response Game) (rStatus : Response GameStatus)
    (s : State) :
  let s' := exec (navigateToNextGame rGame rStatus) s in
  currentGamesList s' = currentGamesList s /\
  currentGameIndex s' =
  if (Z.of_nat (length (currentGamesList s)) - 1 <=? currentGameIndex s)
     || (Z.of_nat (length (currentGamesList s)) =? 0)
  then currentGameIndex s else currentGameIndex s + 1.
Proof.
  cbn zeta. unfold exec, navigateToNextGame. destruct (_ || _); [now split|].
  unfold bind, modify. cbn beta iota.
  destruct (loadGameAtIndex_cursor (js "Failed to load next game") rGame rStatus
              (set_currentGameIndex (currentGameIndex s + 1) s)) as [Hi Hl].
  unfold exec in Hi, Hl. now rewrite Hi, Hl.
Qed.

(** C9. Detail navigation stops at the ends of the list. At index 0, and
    on an empty list, [navigateToPrevGame] changes nothing: the index, the
    rest of the state and the log of requests are as before. At the last
    index [navigateToNextGame] changes nothing. From an index inside the
    list, either function leaves the list as it is and the index inside
    it. *)
Theorem C9_navigation_stops_at_the_ends (s : State) (rGame : Response Game)
    (rStatus : Response GameStatus) :
  (currentGameIndex s = 0 \/ currentGamesList s = [] ->
   navigateToPrevGame rGame rStatus s = (s, Returned tt)) /\
  (currentGameIndex s = Z.of_nat (length (currentGamesList s)) - 1 ->
   navigateToNextGame rGame rStatus s = (s, Returned tt)) /\
  (0 <= currentGameIndex s < Z.of_nat (length (currentGamesList s)) ->
   let s1 := exec (navigateToPrevGame rGame rStatus) s in
   let s2 := exec (navigateToNextGame rGame rStatus) s in
   currentGamesList s1 = currentGamesList s /\
   currentGamesList s2 = currentGamesList s /\
   0 <= currentGameIndex s1 < Z.of_nat (length (currentGamesList s)) /\
   0 <= currentGameIndex s2 < Z.of_nat (length (currentGamesList s))).
Proof.
  split; [|split].
  - intros Hstart. unfold navigateToPrevGame.
    destruct Hstart as [-> | ->]; [reflexivity|].
    cbn. now rewrite orb_true_r.
  - intros Hlast. unfold navigateToNextGame. rewrite Hlast, Z.leb_refl. reflexivity.
  - intros Hin.
    destruct (navigateToPrevGame_cursor rGame rStatus s) as [Hl1 Hi1].
    destruct (navigateToNextGame_cursor rGame rStatus s) as [Hl2 Hi2].
    cbn zeta. rewrite Hl1, Hl2, Hi1, Hi2.
    destruct (Z.leb_spec (currentGameIndex s) 0),
      (Z.leb_spec (Z.of_nat (length (currentGamesList s)) - 1) (currentGameIndex s)),
      (Z.eqb_spec (Z.of_nat (length (currentGamesList s))) 0);
      cbn [orb]; repeat split; lia.
Qed.

(** Without a status filter, the list [openGameDetail] navigates in is the
    working list of the render. *)
Lemma navigationList_working (s : State) :
  truthy (activeStatusFilter s) = false ->
  truthyId (currentConsoleId s) = true ->
  workingGames s = Some (navigationList s).
Proof.
  intros Hstatus Hconsole.
  unfold workingGames, baseGames, navigationList, alphaFiltered, genreFiltered.
  rewrite Hstatus, Hconsole. cbn.
  now destruct (truthy (activeFilter s)), (truthy (activeGenreFilter s)).
Qed.

(** What [openGameDetail] stores for the navigation when the game loads. *)
Lemma openGameDetail_cursor (s : State) (gameId : Z) (game : Game) (rView : Response unit)
    (rStatus : Response GameStatus) :
  let s' := exec (openGameDetail gameId (Fulfilled game) rView rStatus) s in
  currentGamesList s' = navigationList s /\
  currentGameIndex s' = findIndex (fun g => game_id g =? gameId) (navigationList s).
Proof.
  cbn zeta. unfold openGameDetail, recordGameView, loadGameStatus. run_async.
  destruct rView, rStatus; cbn;
    rewrite ?renderGameDetail_preserves by reflexivity; split; reflexivity.
Qed.

(** *** Failed mutations *)

(** A failed delete: the container is untouched and [apiCall]'s notice is
    the only one. *)
Lemma deleteGame_failure (s : State) (gameId status : Z) (errorBody : option (option jsstring))
    (rGames : Response (list Game)) (rStats rArchive : Response Stats) :
  let r := ErrorStatus status errorBody in
  let s' := exec (deleteGame gameId true r rGames rStats rArchive) s in
  gameList s' = gameList s /\ gamesByConsole s' = gamesByConsole s /\
  toasts s' = toasts s ++ [apiErrorToast r].
Proof. cbn zeta. unfold deleteGame. run_async. repeat split; reflexivity. Qed.

(** A failed add of one game: the container is untouched, and two error
    notices are shown, [apiCall]'s and the one of [confirmAddGame]'s own
    [catch]. *)
Lemma confirmAddGame_failure (s : State) (status : Z) (errorBody : option (option jsstring))
    (rGames rRecent : Response (list Game)) (rStats : Response Stats) :
  truthyId (currentConsoleId s) = true ->
  tabSingleActive (page s) = true ->
  trim (addGameTitle (page s)) <> [] ->
  let r := ErrorStatus status errorBody in
  let s' := exec (confirmAddGame r rGames rStats rRecent) s in
  gameList s' = gameList s /\ gamesByConsole s' = gamesByConsole s /\
  toasts s' = toasts s ++ [apiErrorToast r;
                          {| toast_message := js "Failed to add game";
                             toast_type := ToastError |}].
Proof.
  intros Hconsole Htab Htitle. cbn zeta. unfold confirmAddGame. run_async.
  rewrite Hconsole. cbn. rewrite Htab. cbn.
  destruct (trim (addGameTitle (page s))); [contradiction|]. cbn.
  rewrite <- app_assoc. repeat split; reflexivity.
Qed.
End Controller.

(* ===================================================================== *)
(** ** The sample host is a collation *)
(* ===================================================================== *)

Lemma lexCompare_refl (a : jsstring) : lexCompare a a = Eq.
Proof. induction a as [|x a IH]; [reflexivity|]. cbn. now rewrite N.compare_refl. Qed.

Lemma lexCompare_antisym (a b : jsstring) : lexCompare b a = CompOpp (lexCompare a b).
Proof.
  revert b. induction a as [|x a IH]; intros [|y b]; try reflexivity.
  cbn. rewrite (N.compare_antisym x y). destruct (x ?= y)%N; cbn; [apply IH|reflexivity..].
Qed.

Lemma lexCompare_le_trans (a b c : jsstring) :
  lexCompare a b <> Gt -> lexCompare b c <> Gt -> lexCompare a c <> Gt.
Proof.
  revert b c. induction a as [|x a IH]; intros [|y b] [|z c]; cbn; try congruence.
  destruct (N.compare_spec x y), (N.compare_spec y z), (N.compare_spec x z);
    subst; try congruence; try lia.
  apply IH.
Qed.

Lemma ordinalCompare_total (a b : jsstring) :
  ordinalCompare a b <= 0 \/ ordinalCompare b a <= 0.
Proof.
  unfold ordinalCompare. rewrite (lexCompare_antisym a b).
  destruct (lexCompare a b); cbn; lia.
Qed.

Lemma ordinalCompare_trans (a b c : jsstring) :
  ordinalCompare a b <= 0 -> ordinalCompare b c <= 0 -> ordinalCompare a c <= 0.
Proof.
  unfold ordinalCompare. intros Hab Hbc.
  pose proof (lexCompare_le_trans a b c) as Htrans.
  destruct (lexCompare a b), (lexCompare b c), (lexCompare a c);
    try lia; exfalso; apply Htrans; congruence.
Qed.

(* ===================================================================== *)
(** ** The theorems at work, and where the claims fail *)
(* ===================================================================== *)

(** The sample states are states of the controller: the sample console is
    what a render leaves, and [favorites] is what [applyStatusFilter] leaves. *)
Example sampleConsole_rendered :
  renderGamesForCurrentConsole ordinalCompare asciiUpperCase sampleConsole = sampleConsole.
Proof. vm_compute. reflexivity. Qed.

Example favorites_reached :
  exec (applyStatusFilter ordinalCompare asciiUpperCase (js "favorite")
          (Fulfilled [zelda; asteroids])) sampleConsole = favorites.
Proof. vm_compute. reflexivity. Qed.

(** The examples of the specification for the genre filter. *)
Example genre_filter_examples :
  matchesGenre (js "RPG") (sampleGame 2 "Zelda" (Some "Action, RPG ")) = true /\
  matchesGenre (js "RP") (sampleGame 2 "Zelda" (Some "Action, RPG ")) = false /\
  matchesGenre (js "RPG") (sampleGame 2 "Zelda" (Some "")) = false /\
  matchesGenre (js "RPG") (sampleGame 2 "Zelda" None) = false.
Proof. vm_compute. repeat split; reflexivity. Qed.

(** C1, the sorted base list on the sample console. *)
Lemma C1_cached_base_list_witness :
  (truthy (activeStatusFilter sampleConsole)
   && (0 <? Z.of_nat (length (statusFilteredGames sampleConsole))) = false /\
   truthyId (currentConsoleId sampleConsole) = true) /\
  exists base,
    baseGames ordinalCompare sampleConsole = Some base /\
    Permutation base (cachedGames sampleConsole) /\
    StronglySorted (notAfter (byTitle ordinalCompare)) base /\
    (forall t,
       List.filter (fun g => bool_decide (game_title g = t)) base =
       List.filter (fun g => bool_decide (game_title g = t)) (cachedGames sampleConsole)) /\
    renderGamesForCurrentConsole ordinalCompare asciiUpperCase
      (renderGamesForCurrentConsole ordinalCompare asciiUpperCase sampleConsole) =
    renderGamesForCurrentConsole ordinalCompare asciiUpperCase sampleConsole.
Proof.
  split; [split; reflexivity|].
  apply (C1_cached_base_list_sorted_stable ordinalCompare asciiUpperCase
           ordinalCompare_total ordinalCompare_trans sampleConsole); reflexivity.
Defined.

(** C1 fails as stated: a status subset is shown in the order the server
    sent it ("Zelda" before "Asteroids"), and two games of one title keep
    their cache order (id 7 before id 3), whatever their ids. *)
Lemma C1_counterexample_unsorted_and_no_id_tie_break :
  (baseGames ordinalCompare favorites = Some [zelda; asteroids] /\
   specSorted [zelda; asteroids] = false) /\
  (baseGames ordinalCompare twoTetris =
     Some [sampleGame 7 "Tetris" None; sampleGame 3 "Tetris" None] /\
   specSorted [sampleGame 7 "Tetris" None; sampleGame 3 "Tetris" None] = false).
Proof. vm_compute. repeat split; reflexivity. Qed.

(** C2 fails as stated: after [applyFilter] the genre filter "RPG", and
    likewise the status filter "favorite", is still active. *)
Lemma C2_counterexample_applyFilter_keeps_other_filters :
  activeGenreFilter
    (applyFilter ordinalCompare asciiUpperCase (js "Z")
       (applyGenreFilter ordinalCompare asciiUpperCase (js "RPG") sampleConsole))
  = Some (js "RPG") /\
  activeStatusFilter
    (applyFilter ordinalCompare asciiUpperCase (js "Z")
       (exec (applyStatusFilter ordinalCompare asciiUpperCase (js "favorite")
                (Fulfilled [zelda])) sampleConsole))
  = Some (js "favorite").
Proof. vm_compute. split; reflexivity. Qed.

(** The status filter "favorite" on the sample console: the subset of the
    server is the working list and is what the container shows. *)
Example status_filter_on_favorites :
  truthy (activeStatusFilter favorites) = true /\
  workingGames ordinalCompare asciiUpperCase favorites = Some [zelda; asteroids] /\
  displayedGames (gameList (renderGamesForCurrentConsole ordinalCompare asciiUpperCase favorites))
  = [zelda; asteroids].
Proof.
  assert (Hactive : truthy (activeStatusFilter favorites) = true) by reflexivity.
  destruct (status_filter_working_list ordinalCompare asciiUpperCase favorites Hactive)
    as (Hsubset & _ & Hview & _).
  assert (Hworking : workingGames ordinalCompare asciiUpperCase favorites
                     = Some [zelda; asteroids]) by (apply Hsubset; discriminate).
  split; [exact Hactive|]. split; [exact Hworking|].
  rewrite (Hview _ Hworking). reflexivity.
Qed.

(** C3, the code at a failing input: on the sample console the status
    filter "dropped" is applied and the server answers with the empty subset,
    or with a 500. The filter is active and the subset is empty, yet the
    container shows the three cached games of the console, none of which is
    in the subset. *)
Theorem C3_empty_status_subset_shows_the_cache :
  (activeStatusFilter
     (exec (applyStatusFilter ordinalCompare asciiUpperCase (js "dropped") (Fulfilled []))
        sampleConsole) = Some (js "dropped") /\
   statusFilteredGames
     (exec (applyStatusFilter ordinalCompare asciiUpperCase (js "dropped") (Fulfilled []))
        sampleConsole) = [] /\
   displayedGames
     (gameList
        (exec (applyStatusFilter ordinalCompare asciiUpperCase (js "dropped") (Fulfilled []))
           sampleConsole)) = [asteroids; tetris; zelda]) /\
  (activeStatusFilter
     (exec (applyStatusFilter ordinalCompare asciiUpperCase (js "dropped") serverError)
        sampleConsole) = Some (js "dropped") /\
   statusFilteredGames
     (exec (applyStatusFilter ordinalCompare asciiUpperCase (js "dropped") serverError)
        sampleConsole) = [] /\
   displayedGames
     (gameList
        (exec (applyStatusFilter ordinalCompare asciiUpperCase (js "dropped") serverError)
           sampleConsole)) = [asteroids; tetris; zelda]).
Proof. vm_compute. repeat split; reflexivity. Qed.

(** C4 fails as stated: console 1 has three games cached; after a refresh
    answered with a 500 its cached list is empty. *)
Lemma C4_counterexample_failed_refresh_empties_cache :
  gamesByConsole sampleConsole !! Some 1 = Some [zelda; asteroids; tetris] /\
  gamesByConsole
    (exec (loadGamesForConsole ordinalCompare asciiUpperCase (Some 1) serverError (Fulfilled []))
       sampleConsole) !! Some 1 = Some [].
Proof. vm_compute. split; reflexivity. Qed.

(** C5, the code at a failing input: an add of one game and a bulk add
    answered with a 500 each leave the container as it was and show two error
    notices; a delete answered with a 500 shows one. *)
Theorem C5_failed_add_shows_two_error_notices :
  (gameList (exec (confirmAddGame ordinalCompare asciiUpperCase serverError
                     (Fulfilled []) (Fulfilled []) (Fulfilled [])) addOne) = gameList addOne /\
   errorNotices (toasts (exec (confirmAddGame ordinalCompare asciiUpperCase serverError
                                 (Fulfilled []) (Fulfilled []) (Fulfilled [])) addOne)) = 2%nat) /\
  (gameList (exec (confirmAddGame ordinalCompare asciiUpperCase serverError
                     (Fulfilled []) (Fulfilled []) (Fulfilled [])) addTwo) = gameList addTwo /\
   errorNotices (toasts (exec (confirmAddGame ordinalCompare asciiUpperCase serverError
                                 (Fulfilled []) (Fulfilled []) (Fulfilled [])) addTwo)) = 2%nat) /\
  (gameList (exec (deleteGame ordinalCompare asciiUpperCase 2 true serverError
                     (Fulfilled []) (Fulfilled []) (Fulfilled [])) sampleConsole)
   = gameList sampleConsole /\
   errorNotices (toasts (exec (deleteGame ordinalCompare asciiUpperCase 2 true serverError
                                 (Fulfilled []) (Fulfilled []) (Fulfilled [])) sampleConsole))
   = 1%nat).
Proof. vm_compute. repeat split; reflexivity. Qed.

(** C6 fails as stated: the genre filter "RPG" applied once is active and
    one game is displayed; applied a second time it is off and three games
    are displayed. *)
Lemma C6_counterexample_genre_filter_toggles :
  (activeGenreFilter (applyGenreFilter ordinalCompare asciiUpperCase (js "RPG") sampleConsole)
   = Some (js "RPG") /\
   displayedGames
     (gameList (applyGenreFilter ordinalCompare asciiUpperCase (js "RPG") sampleConsole))
   = [zelda]) /\
  (activeGenreFilter
     (applyGenreFilter ordinalCompare asciiUpperCase (js "RPG")
        (applyGenreFilter ordinalCompare asciiUpperCase (js "RPG") sampleConsole)) = None /\
   displayedGames
     (gameList
        (applyGenreFilter ordinalCompare asciiUpperCase (js "RPG")
           (applyGenreFilter ordinalCompare asciiUpperCase (js "RPG") sampleConsole)))
   = [asteroids; tetris; zelda]).
Proof. vm_compute. repeat split; reflexivity. Qed.

(** C6, on the sample console: the genre filter "RPG" and the status
    filter "favorite", each applied twice, leave the three games of the
    console on display. *)
Lemma C6_toggle_witness :
  displayedGames
    (gameList
       (applyGenreFilter ordinalCompare asciiUpperCase (js "RPG")
          (applyGenreFilter ordinalCompare asciiUpperCase (js "RPG") sampleConsole)))
  = [asteroids; tetris; zelda] /\
  displayedGames
    (gameList
       (exec (applyStatusFilter ordinalCompare asciiUpperCase (js "favorite") serverError)
          (exec (applyStatusFilter ordinalCompare asciiUpperCase (js "favorite")
                   (Fulfilled [zelda; asteroids])) sampleConsole)))
  = [asteroids; tetris; zelda].
Proof.
  destruct (C6_alphabetical_idempotent_others_toggle ordinalCompare asciiUpperCase
              sampleConsole (js "A") (js "RPG") (js "favorite")
              (Fulfilled [zelda; asteroids]) serverError)
    as (_ & _ & _ & Hgenre & Hstatus).
  assert (Hg : activeGenreFilter sampleConsole <> Some (js "RPG")) by discriminate.
  assert (Hs : activeStatusFilter sampleConsole <> Some (js "favorite")) by discriminate.
  destruct (Hgenre Hg) as (_ & _ & _ & _ & _ & Hlist1).
  destruct (Hstatus Hs) as (_ & _ & _ & _ & _ & _ & Hlist2).
  cbv zeta in Hlist1, Hlist2. rewrite Hlist1, Hlist2. vm_compute. split; reflexivity.
Defined.

(** C7, on the sample console: "Zelda", of genre "Action, RPG ", passes the
    genre filter "RPG". *)
Lemma C7_genre_filter_witness :
  (truthy (activeStatusFilter genreRpg) = false /\
   activeGenreFilter genreRpg = Some (js "RPG") /\
   js "RPG" <> []) /\
  In zelda (genreFiltered genreRpg [zelda; asteroids; tetris]).
Proof.
  assert (Hne : js "RPG" <> []) by discriminate.
  split; [split; [reflexivity|split; [reflexivity|exact Hne]]|].
  apply (proj2 (proj1 (C7_genre_filter_exact_trimmed_tag genreRpg (js "RPG")
                         [zelda; asteroids; tetris] zelda eq_refl eq_refl Hne))).
  split; [now left|].
  exists (js "Action, RPG "), (js " RPG ").
  split; [reflexivity|]. split; [|reflexivity].
  vm_compute. right; left; reflexivity.
Defined.

(** C8, the example of the specification: of 45 games page 3 shows the 5
    games at the positions 40 to 44, and a request for page 10 shows page 1. *)
Lemma C8_pagination_witness :
  (workingGames ordinalCompare asciiUpperCase (fortyFive 3) = Some (manyGames 45) /\
   1 <= currentPage (fortyFive 3)) /\
  (workingGames ordinalCompare asciiUpperCase (fortyFive 10) = Some (manyGames 45) /\
   1 <= currentPage (fortyFive 10)) /\
  length (displayedGames
            (gameList (renderGamesForCurrentConsole ordinalCompare asciiUpperCase (fortyFive 3))))
  = 5%nat /\
  currentPage (renderGamesForCurrentConsole ordinalCompare asciiUpperCase (fortyFive 10)) = 1.
Proof.
  assert (H3 : workingGames ordinalCompare asciiUpperCase (fortyFive 3) = Some (manyGames 45))
    by (vm_compute; reflexivity).
  assert (H10 : workingGames ordinalCompare asciiUpperCase (fortyFive 10) = Some (manyGames 45))
    by (vm_compute; reflexivity).
  assert (P3 : 1 <= currentPage (fortyFive 3)) by (cbn; lia).
  assert (P10 : 1 <= currentPage (fortyFive 10)) by (cbn; lia).
  destruct (C8_pagination ordinalCompare asciiUpperCase (fortyFive 3) (manyGames 45) H3 P3)
    as (_ & _ & Hlen & _).
  destruct (C8_pagination ordinalCompare asciiUpperCase (fortyFive 10) (manyGames 45) H10 P10)
    as (_ & Hpage & _).
  split; [now split|]. split; [now split|]. split.
  - apply Nat2Z.inj. rewrite Hlen. reflexivity.
  - rewrite Hpage. reflexivity.
Defined.

(** C9, on a list of three games: "previous" at index 0 and "next" at
    index 2 return the state they were given. *)
Lemma C9_navigation_witness :
  (currentGameIndex (browsing 0) = 0 \/ currentGamesList (browsing 0) = []) /\
  navigateToPrevGame (Fulfilled tetris) (Fulfilled {| completed_date_note := None |})
    (browsing 0) = (browsing 0, Returned tt) /\
  currentGameIndex (browsing 2) = Z.of_nat (length (currentGamesList (browsing 2))) - 1 /\
  navigateToNextGame (Fulfilled tetris) (Fulfilled {| completed_date_note := None |})
    (browsing 2) = (browsing 2, Returned tt).
Proof.
  assert (H0 : currentGameIndex (browsing 0) = 0 \/ currentGamesList (browsing 0) = [])
    by (left; reflexivity).
  assert (H2 : currentGameIndex (browsing 2)
               = Z.of_nat (length (currentGamesList (browsing 2))) - 1) by reflexivity.
  split; [exact H0|]. split; [|split; [exact H2|]].
  - exact (proj1 (C9_navigation_stops_at_the_ends (browsing 0) (Fulfilled tetris)
                    (Fulfilled {| completed_date_note := None |})) H0).
  - exact (proj1 (proj2 (C9_navigation_stops_at_the_ends (browsing 2) (Fulfilled tetris)
                           (Fulfilled {| completed_date_note := None |}))) H2).
Defined.

(** C10, the code at a failing input: with the status filter "favorite"
    active the container shows the server's subset, "Zelda" and "Asteroids";
    opening "Zelda" stores the whole cached list of the console as the
    navigation list, with "Zelda" at index 2, so that "previous" leads to
    "Tetris", which is not among the favorites. *)
Theorem C10_navigation_list_ignores_status_subset :
  workingGames ordinalCompare asciiUpperCase favorites = Some [zelda; asteroids] /\
  displayedGames (gameList favorites) = [zelda; asteroids] /\
  currentGamesList
    (exec (openGameDetail ordinalCompare asciiUpperCase 2 (Fulfilled zelda) (Fulfilled tt)
             (Fulfilled {| completed_date_note := None |})) favorites)
  = [asteroids; tetris; zelda] /\
  currentGameIndex
    (exec (openGameDetail ordinalCompare asciiUpperCase 2 (Fulfilled zelda) (Fulfilled tt)
             (Fulfilled {| completed_date_note := None |})) favorites)
  = 2.
Proof. vm_compute. repeat split; reflexivity. Qed.

(* ===================================================================== *)
(** * The rest of the controller *)
(* ===================================================================== *)

(** ** URLs and markup *)

(** [STATIC_BASE], for the host name the page was loaded from. *)
Definition STATIC_BASE (hostname : jsstring) : jsstring :=
  js "http://" ++ (hostname ++ js ":9001").

(** [toAbsoluteUrl(url)]. *)
Definition toAbsoluteUrl (hostname : jsstring) (url : option jsstring) : option jsstring :=
  if negb (truthy url) then url
  else if startsWith (default [] url) (js "http") then url
  else Some (STATIC_BASE hostname ++ default [] url).

(** [text.replace(/c/g, replacement)] for one code unit [c] and a
    replacement without [$]. *)
Definition replaceAll (c : N) (replacement : jsstring) (text : jsstring) : jsstring :=
  text ≫= (fun x => if (x =? c)%N then replacement else [x]).

(** [escapeHtml(text)]: the five replacements, in the order of the source. *)
Definition escapeHtml (text : option jsstring) : jsstring :=
  if negb (truthy text) then []
  else
    replaceAll 39 (js "&#039;")
      (replaceAll 34 (js "&quot;")
         (replaceAll 62 (js "&gt;")
            (replaceAll 60 (js "&lt;")
               (replaceAll 38 (js "&amp;") (default [] text))))).

(** The characters [escapeHtml] replaces: the double quote, the ampersand,
    the apostrophe and the two angle brackets. *)
Definition htmlSpecial (c : N) : bool :=
  match c with
  | 34 | 38 | 39 | 60 | 62 => true
  | _ => false
  end%N.

(** The characters that end a text node or an attribute value: the two
    quotes and the two angle brackets. *)
Definition htmlDelimiter (c : N) : bool :=
  match c with
  | 34 | 39 | 60 | 62 => true
  | _ => false
  end%N.

Lemma startsWith_http (hostname url : jsstring) :
  startsWith (STATIC_BASE hostname ++ url) (js "http") = true.
Proof. reflexivity. Qed.

Lemma toAbsoluteUrl_cons (hostname : jsstring) (c : N) (u : jsstring) :
  toAbsoluteUrl hostname (Some (c :: u)) =
  if startsWith (c :: u) (js "http") then Some (c :: u)
  else Some (STATIC_BASE hostname ++ c :: u).
Proof. reflexivity. Qed.

(** X1. [toAbsoluteUrl] leaves a missing or empty URL and a URL that starts
    with "http" as they are, turns every other URL into one that starts with
    "http" (the static base followed by the URL), and applying it a second
    time changes nothing. *)
Theorem toAbsoluteUrl_absolute_once (hostname : jsstring) (url : option jsstring) :
  (truthy url = false -> toAbsoluteUrl hostname url = url) /\
  (truthy url = true ->
   exists absolute,
     toAbsoluteUrl hostname url = Some absolute /\
     startsWith absolute (js "http") = true /\
     (startsWith (default [] url) (js "http") = true -> Some absolute = url) /\
     (startsWith (default [] url) (js "http") = false ->
      absolute = STATIC_BASE hostname ++ default [] url)) /\
  toAbsoluteUrl hostname (toAbsoluteUrl hostname url) = toAbsoluteUrl hostname url.
Proof.
  destruct url as [[|c u]|]; [repeat split; discriminate| |repeat split; discriminate].
  rewrite toAbsoluteUrl_cons.
  change (default [] (Some (c :: u))) with (c :: u).
  destruct (startsWith (c :: u) (js "http")) eqn:Habs.
  - split; [discriminate|]. split.
    + intros _. exists (c :: u). repeat split; [exact Habs|discriminate].
    + now rewrite toAbsoluteUrl_cons, Habs.
  - split; [discriminate|]. split.
    + intros _. eexists. split; [reflexivity|]. split; [apply startsWith_http|].
      split; [discriminate|reflexivity].
    + reflexivity.
Qed.

Lemma toAbsoluteUrl_witness :
  truthy (Some (js "/covers/1.png")) = true /\
  toAbsoluteUrl (js "localhost") (Some (js "/covers/1.png"))
  = Some (js "http://localhost:9001/covers/1.png").
Proof.
  assert (H : truthy (Some (js "/covers/1.png")) = true) by reflexivity.
  split; [exact H|].
  destruct (proj1 (proj2 (toAbsoluteUrl_absolute_once (js "localhost")
                            (Some (js "/covers/1.png")))) H)
    as (absolute & -> & _ & _ & Hrel).
  rewrite Hrel by reflexivity. reflexivity.
Defined.

Lemma replaceAll_Forall (P : N -> Prop) (c : N) (replacement text : jsstring) :
  Forall P replacement ->
  Forall (fun x => x <> c -> P x) text ->
  Forall P (replaceAll c replacement text).
Proof.
  intros Hrep Htext. unfold replaceAll. apply Forall_bind.
  eapply Forall_impl; [exact Htext|]. intros x Hx. cbn.
  destruct (N.eqb_spec x c) as [_|Hne]; [exact Hrep|]. constructor; [now apply Hx|constructor].
Qed.

Lemma replaceAll_absent (c : N) (replacement text : jsstring) :
  Forall (fun x => x <> c) text -> replaceAll c replacement text = text.
Proof.
  unfold replaceAll. induction 1 as [|x text Hx _ IH]; [reflexivity|].
  cbn. destruct (N.eqb_spec x c); [contradiction|]. cbn. f_equal. exact IH.
Qed.

(** X2. The result of [escapeHtml] contains no double quote, no apostrophe
    and no angle bracket, whatever the text; and a text without any of the
    five special characters comes out unchanged. *)
Theorem escapeHtml_no_delimiter (text : option jsstring) :
  Forall (fun c => htmlDelimiter c = false) (escapeHtml text) /\
  (Forall (fun c => htmlSpecial c = false) (default [] text) ->
   escapeHtml text = default [] text).
Proof.
  unfold escapeHtml. destruct text as [[|c t]|]; cbn [truthy negb default];
    try (split; [constructor|reflexivity]).
  set (t0 := c :: t). split.
  - assert (H0 : Forall (fun x : N => True) t0) by (apply Forall_forall; auto).
    assert (H1 : Forall (fun x => True) (replaceAll 38 (js "&amp;") t0)).
    { apply Forall_forall; auto. }
    assert (H2 : Forall (fun x => x <> 60%N)
                   (replaceAll 60 (js "&lt;") (replaceAll 38 (js "&amp;") t0))).
    { apply replaceAll_Forall; [repeat constructor; discriminate|].
      eapply Forall_impl; [exact H1|]. auto. }
    assert (H3 : Forall (fun x => x <> 60%N /\ x <> 62%N)
                   (replaceAll 62 (js "&gt;")
                      (replaceAll 60 (js "&lt;") (replaceAll 38 (js "&amp;") t0)))).
    { apply replaceAll_Forall; [repeat constructor; discriminate|].
      eapply Forall_impl; [exact H2|]. auto. }
    assert (H4 : Forall (fun x => x <> 60%N /\ x <> 62%N /\ x <> 34%N)
                   (replaceAll 34 (js "&quot;")
                      (replaceAll 62 (js "&gt;")
                         (replaceAll 60 (js "&lt;") (replaceAll 38 (js "&amp;") t0))))).
    { apply replaceAll_Forall; [repeat constructor; discriminate|].
      eapply Forall_impl; [exact H3|]. intros x [? ?] ?. auto. }
    assert (H5 : Forall (fun x => x <> 60%N /\ x <> 62%N /\ x <> 34%N /\ x <> 39%N)
                   (replaceAll 39 (js "&#039;")
                      (replaceAll 34 (js "&quot;")
                         (replaceAll 62 (js "&gt;")
                            (replaceAll 60 (js "&lt;") (replaceAll 38 (js "&amp;") t0)))))).
    { apply replaceAll_Forall; [repeat constructor; discriminate|].
      eapply Forall_impl; [exact H4|]. intros x (? & ? & ?) ?. auto. }
    eapply Forall_impl; [exact H5|]. intros x (Hlt & Hgt & Hquot & Hapos).
    unfold htmlDelimiter.
    destruct x as [|p]; [reflexivity|].
    do 7 (try destruct p as [p|p|]); try reflexivity; exfalso; auto.
  - intros Hplain.
    assert (Hne : forall d, htmlSpecial d = true -> Forall (fun x => x <> d) t0).
    { intros d Hd. eapply Forall_impl; [exact Hplain|]. intros x Hx ->. congruence. }
    change (id t0) with t0 in *.
    rewrite (replaceAll_absent 38) by (apply Hne; reflexivity).
    rewrite (replaceAll_absent 60) by (apply Hne; reflexivity).
    rewrite (replaceAll_absent 62) by (apply Hne; reflexivity).
    rewrite (replaceAll_absent 34) by (apply Hne; reflexivity).
    rewrite (replaceAll_absent 39) by (apply Hne; reflexivity).
    reflexivity.
Qed.

Lemma escapeHtml_witness :
  Forall (fun c => htmlSpecial c = false) (default [] (Some (js "Finished in 2024"))) /\
  escapeHtml (Some (js "Finished in 2024")) = js "Finished in 2024".
Proof.
  assert (H : Forall (fun c => htmlSpecial c = false)
                (default [] (Some (js "Finished in 2024")))).
  { vm_compute. repeat constructor. }
  split; [exact H|].
  exact (proj2 (escapeHtml_no_delimiter (Some (js "Finished in 2024"))) H).
Defined.

(** ** The description pager of the detail modal *)

(** [game.description || "No description available"]. *)
Definition descriptionText (game : Game) : jsstring :=
  if truthy (game_description game) then default [] (game_description game)
  else js "No description available".

Definition charsPerPage : Z := 800.

(** The value [renderGameDetail] gives [totalDescriptionPages]. *)
Definition descriptionPages (game : Game) : Z :=
  Z.max 1 (ceilDiv (Z.of_nat (length (descriptionText game))) charsPerPage).

(** [currentDescription], the part of the text [renderGameDetail] shows on
    page [p]. *)
Definition currentDescriptionOf (game : Game) (p : Z) : jsstring :=
  let startIdx := (p - 1) * charsPerPage in
  let endIdx := Z.min (startIdx + charsPerPage) (Z.of_nat (length (descriptionText game))) in
  slice (descriptionText game) startIdx endIdx.

(** [changeDescriptionPage(delta)]. With no game in [currentGameDetail] the
    render throws on [game.description], after the assignment. *)
Definition changeDescriptionPage (delta : Z) : Async unit :=
  fun s =>
    let newPage := currentDescriptionPage s + delta in
    if (1 <=? newPage) && (newPage <=? totalDescriptionPages s) then
      let s := set_currentDescriptionPage newPage s in
      match currentGameDetail s with
      | Some game => (renderGameDetail game s, Returned tt)
      | None => (s, Thrown (js "Cannot read properties of null (reading 'description')"))
      end
    else (s, Returned tt).

(** The pager shows a page of the game in the modal. *)
Definition pagerInSync (s : State) : Prop :=
  exists game,
    currentGameDetail s = Some game /\
    totalDescriptionPages s = descriptionPages game /\
    1 <= currentDescriptionPage s <= totalDescriptionPages s.

Lemma descriptionText_not_nil (game : Game) : descriptionText game <> [].
Proof.
  unfold descriptionText. destruct (game_description game) as [[|c d]|]; cbn; discriminate.
Qed.

Lemma chunks_concat {A} (l : list A) (c n : nat) :
  concat ((fun i => take c (drop (i * c) l)) <$> seq 0 n) = take (n * c) l.
Proof.
  induction n as [|n IH]; [reflexivity|].
  rewrite seq_S, fmap_app, concat_app, IH. cbn [fmap list_fmap concat Nat.add].
  rewrite app_nil_r, take_take_drop. f_equal. lia.
Qed.

Lemma currentDescriptionOf_chunk (game : Game) (i : nat) :
  currentDescriptionOf game (Z.of_nat i + 1) =
  take 800 (drop (i * 800) (descriptionText game)).
Proof.
  unfold currentDescriptionOf, charsPerPage, slice. cbn zeta.
  set (len := Z.of_nat (length (descriptionText game))).
  replace ((Z.of_nat i + 1 - 1) * 800) with (Z.of_nat (i * 800)) by lia.
  destruct (Z.ltb_spec (Z.of_nat (i * 800)) 0) as [?|_]; [lia|].
  destruct (Z.ltb_spec (Z.min (Z.of_nat (i * 800) + 800) len) 0) as [?|_]; [lia|].
  rewrite Z.min_l by lia.
  destruct (Z_le_gt_dec (Z.of_nat (i * 800)) len) as [Hin|Hout].
  - rewrite (Z.min_l (Z.of_nat (i * 800))) by lia. rewrite Nat2Z.id.
    destruct (Z_le_gt_dec (Z.of_nat (i * 800) + 800) len) as [Hfit|Hcut].
    + rewrite Z.min_l by lia. f_equal. lia.
    + rewrite Z.min_r by lia. rewrite !take_ge; [reflexivity| |]; rewrite length_drop; lia.
  - rewrite (Z.min_r (Z.of_nat (i * 800))) by lia. rewrite (Z.min_r _ len) by lia.
    rewrite Z.sub_diag. rewrite (drop_ge _ (i * 800)) by lia. now rewrite take_nil.
Qed.

(** X3. The pages of the description pager are the text cut into pieces of
    800 code units: put one after the other, pages 1 to the last give the
    text back, nothing lost and nothing twice; no page is empty, and every
    page before the last has exactly 800 code units. *)
Theorem description_pages_partition (game : Game) :
  concat (currentDescriptionOf game <$> seqZ 1 (descriptionPages game)) = descriptionText game /\
  (forall p, 1 <= p <= descriptionPages game ->
             currentDescriptionOf game p <> [] /\
             Z.of_nat (length (currentDescriptionOf game p)) <= charsPerPage /\
             (p < descriptionPages game ->
              Z.of_nat (length (currentDescriptionOf game p)) = charsPerPage)).
Proof.
  pose proof (descriptionText_not_nil game) as Hne.
  assert (Hlen : 0 < Z.of_nat (length (descriptionText game))).
  { destruct (descriptionText game); [contradiction|cbn; lia]. }
  assert (Hpages : 800 * (descriptionPages game - 1)
                   < Z.of_nat (length (descriptionText game))
                   <= 800 * descriptionPages game).
  { unfold descriptionPages, ceilDiv, charsPerPage.
    pose proof (Z.div_mod (Z.of_nat (length (descriptionText game)) + 800 - 1) 800 ltac:(lia)).
    pose proof (Z.mod_pos_bound (Z.of_nat (length (descriptionText game)) + 800 - 1) 800
                  ltac:(lia)). lia. }
  split.
  - unfold seqZ. rewrite <- list_fmap_compose.
    rewrite (list_fmap_ext _ (fun i => take 800 (drop (i * 800) (descriptionText game)))
               (seq 0 (Z.to_nat (descriptionPages game)))).
    + rewrite chunks_concat. apply take_ge. lia.
    + intros i x _. cbn. apply currentDescriptionOf_chunk.
  - intros p Hp. replace p with (Z.of_nat (Z.to_nat (p - 1)) + 1) by lia.
    rewrite currentDescriptionOf_chunk. unfold charsPerPage.
    assert (Hsize : Z.of_nat (length (take 800 (drop (Z.to_nat (p - 1) * 800)
                                              (descriptionText game))))
                    = Z.min 800 (Z.of_nat (length (descriptionText game)) - 800 * (p - 1))).
    { rewrite length_take, length_drop. lia. }
    rewrite Hsize. repeat split.
    + intros Hnil. rewrite Hnil in Hsize. cbn [length] in Hsize. lia.
    + lia.
    + intros Hlast. lia.
Qed.

Lemma renderGameDetail_pager (game : Game) (s : State) :
  currentGameDetail (renderGameDetail game s) = currentGameDetail s /\
  totalDescriptionPages (renderGameDetail game s) = descriptionPages game /\
  currentDescriptionPage (renderGameDetail game s) =
  (if descriptionPages game <? currentDescriptionPage s then 1 else currentDescriptionPage s).
Proof.
  unfold renderGameDetail, descriptionPages, descriptionText, charsPerPage. cbn.
  destruct (_ <? _); repeat split; reflexivity.
Qed.

(** X4. Once the pager shows a page of the game in the modal,
    [changeDescriptionPage] keeps it so: a step to a page between 1 and the
    number of pages goes there, any other step changes nothing at all. *)
Theorem changeDescriptionPage_in_range (s : State) (delta : Z) :
  pagerInSync s ->
  let target := currentDescriptionPage s + delta in
  let s' := exec (changeDescriptionPage delta) s in
  pagerInSync s' /\
  (1 <= target <= totalDescriptionPages s -> currentDescriptionPage s' = target) /\
  (~ 1 <= target <= totalDescriptionPages s -> s' = s).
Proof.
  intros (game & Hgame & Htotal & Hpage). cbn zeta. unfold exec, changeDescriptionPage.
  destruct (Z.leb_spec 1 (currentDescriptionPage s + delta)) as [Hlo|Hlo];
    destruct (Z.leb_spec (currentDescriptionPage s + delta) (totalDescriptionPages s))
      as [Hhi|Hhi]; cbn [andb fst].
  - change (currentGameDetail (set_currentDescriptionPage _ s)) with (currentGameDetail s).
    rewrite Hgame. cbn [fst].
    destruct (renderGameDetail_pager game
                (set_currentDescriptionPage (currentDescriptionPage s + delta) s))
      as (Hd & Ht & Hp).
    cbn [currentDescriptionPage set_currentDescriptionPage currentGameDetail] in Hd, Hp.
    rewrite Htotal in Hhi.
    destruct (Z.ltb_spec (descriptionPages game) (currentDescriptionPage s + delta));
      [lia|].
    split; [|split; [intros _; exact Hp|intros Hout; lia]].
    exists game. rewrite Hd, Ht, Hp. repeat split; [exact Hgame|lia|lia].
  - split; [now exists game|]. split; [lia|reflexivity].
  - split; [now exists game|]. split; [lia|reflexivity].
  - split; [now exists game|]. split; [lia|reflexivity].
Qed.

(** A game whose description takes two pages, open in the modal on page 1. *)
Definition longGame : Game :=
  {| game_id := 9; game_title := js "Ultima"; game_genre := Some (js "RPG");
     game_description := Some (replicate 1000 97%N); game_screenshots := [] |}.

Definition readingLongGame : State :=
  set_totalDescriptionPages 2 (set_currentGameDetail (Some longGame) sampleConsole).

Lemma changeDescriptionPage_witness :
  pagerInSync readingLongGame /\
  currentDescriptionPage (exec (changeDescriptionPage 1) readingLongGame) = 2 /\
  exec (changeDescriptionPage 2) readingLongGame = readingLongGame.
Proof.
  assert (H : pagerInSync readingLongGame).
  { exists longGame. split; [reflexivity|]. split; [vm_compute; reflexivity|cbn; lia]. }
  split; [exact H|]. split.
  - apply (proj1 (proj2 (changeDescriptionPage_in_range readingLongGame 1 H))). cbn. lia.
  - apply (proj2 (proj2 (changeDescriptionPage_in_range readingLongGame 2 H))). cbn. lia.
Defined.

(* ===================================================================== *)
(** ** The page buttons and the reset of the alphabetical filter *)
(* ===================================================================== *)

Section Pages.
Variable localeCompare : jsstring -> jsstring -> Z.
Variable toUpperCase : jsstring -> jsstring.

Abbreviation render := (renderGamesForCurrentConsole localeCompare toUpperCase).
Abbreviation working := (workingGames localeCompare toUpperCase).

(** The click handler of the "Previous" button, which the container has
    when the render found [currentPage > 1]. *)
Definition clickPrevious (s : State) : State :=
  match gameList s with
  | Cards _ pagination =>
      if pg_prev pagination then render (set_currentPage (currentPage s - 1) s) else s
  | _ => s
  end.

(** The click handler of the "Next" button, which the container has when the
    render found [currentPage < totalPages]. *)
Definition clickNext (s : State) : State :=
  match gameList s with
  | Cards _ pagination =>
      if pg_next pagination then render (set_currentPage (currentPage s + 1) s) else s
  | _ => s
  end.

(** The click handler of the "All" button of the alphabetical index. *)
Definition resetFilter (s : State) : State :=
  let s := set_activeFilter None s in
  let s := set_currentPage 1 s in
  render s.

Lemma viewOf_cases (games : list Game) (p : Z) :
  1 <= p <= Z.max 1 (ceilDiv (Z.of_nat (length games)) PAGE_SIZE) ->
  (games = [] /\ viewOf games p = NoGamesNotice) \/
  (games <> [] /\
   exists cards,
     cards <> [] /\ Z.of_nat (length cards) <= PAGE_SIZE /\
     viewOf games p =
     Cards cards {| pg_prev := 1 <? p; pg_page := p;
                    pg_total := ceilDiv (Z.of_nat (length games)) PAGE_SIZE;
                    pg_next := p <? ceilDiv (Z.of_nat (length games)) PAGE_SIZE |}).
Proof.
  intros Hp. pose proof (ceilDiv_bounds (Z.of_nat (length games))) as Hceil.
  unfold viewOf. cbn zeta.
  rewrite slice_take_drop by (unfold PAGE_SIZE; lia).
  destruct games as [|g games]; [left; split; [reflexivity|]|right; split; [discriminate|]].
  - now rewrite drop_nil, take_nil.
  - set (l := g :: games) in *.
    assert (Hl : (0 < length l)%nat) by (unfold l; cbn; lia).
    assert (Hdrop : (0 < length (take (Z.to_nat PAGE_SIZE)
                                   (drop (Z.to_nat ((p - 1) * PAGE_SIZE)) l)))%nat).
    { rewrite length_take, length_drop. unfold PAGE_SIZE in *. lia. }
    destruct (take (Z.to_nat PAGE_SIZE) (drop (Z.to_nat ((p - 1) * PAGE_SIZE)) l))
      as [|c cards] eqn:Hcards; [cbn in Hdrop; lia|].
    exists (c :: cards). split; [discriminate|]. split; [|reflexivity].
    rewrite <- Hcards, length_take. unfold PAGE_SIZE. lia.
Qed.

Lemma clampedPage_range (games : list Game) (p : Z) :
  1 <= p ->
  1 <= clampedPage games p <= Z.max 1 (ceilDiv (Z.of_nat (length games)) PAGE_SIZE).
Proof.
  intros Hp. unfold clampedPage.
  destruct (Z.ltb_spec (ceilDiv (Z.of_nat (length games)) PAGE_SIZE) p); lia.
Qed.

(** X5. With a page number of at least 1, a render never leaves an empty
    page behind: the notice "No games found" is shown exactly when the
    working list is empty; otherwise the container has between 1 and 20
    cards and a page number between 1 and the number of pages. *)
Theorem render_page_never_empty (s : State) (games : list Game) :
  working s = Some games ->
  1 <= currentPage s ->
  (games = [] /\ gameList (render s) = NoGamesNotice) \/
  (games <> [] /\
   exists cards pagination,
     gameList (render s) = Cards cards pagination /\
     cards <> [] /\ Z.of_nat (length cards) <= PAGE_SIZE /\
     1 <= pg_page pagination <= pg_total pagination /\
     pg_page pagination = currentPage (render s) /\
     pg_total pagination = ceilDiv (Z.of_nat (length games)) PAGE_SIZE).
Proof.
  intros Hgames Hpage. rewrite render_unfold, Hgames. cbn.
  pose proof (clampedPage_range games (currentPage s) Hpage) as Hrange.
  destruct (viewOf_cases games _ Hrange) as [[-> Hview]|[Hne (cards & Hc & Hlen & Hview)]].
  - left. now split.
  - right. split; [exact Hne|]. exists cards. eexists. split; [exact Hview|]. cbn.
    repeat split; try assumption; try lia.
    pose proof (ceilDiv_bounds (Z.of_nat (length games))).
    destruct games; [contradiction|]. cbn [length] in *. unfold PAGE_SIZE in *. lia.
Qed.

(** X6. On a rendered page that has a "Next" button, a click on it shows the
    following page, and a click on "Previous" then gives back the very state
    the first render left. *)
Theorem clickNext_then_clickPrevious (s : State) (cards : list Game) (pagination : Pagination) :
  1 <= currentPage s ->
  gameList (render s) = Cards cards pagination ->
  pg_next pagination = true ->
  currentPage (clickNext (render s)) = pg_page pagination + 1 /\
  pg_page pagination + 1 <= pg_total pagination /\
  clickPrevious (clickNext (render s)) = render s.
Proof.
  intros Hpage Hview Hnext.
  rewrite render_unfold in Hview |- *.
  destruct (working s) as [games|] eqn:Hgames; [|discriminate].
  cbn zeta in *. set (p := clampedPage games (currentPage s)) in *.
  pose proof (clampedPage_range games (currentPage s) Hpage) as Hrange. fold p in Hrange.
  cbn [gameList set_gameList] in Hview.
  destruct (viewOf_cases games p Hrange) as [[_ Hv]|[Hgames_ne (c0 & _ & _ & Hv)]];
    [rewrite Hv in Hview; discriminate|].
  rewrite Hv in Hview. injection Hview as <- <-. cbn [pg_next pg_page pg_total] in *.
  apply Z.ltb_lt in Hnext.
  set (s1 := set_gameList (viewOf games p) (set_currentPage p s)).
  assert (Hw1 : forall q v, working (set_gameList v (set_currentPage q s1)) = Some games).
  { intros q v. exact Hgames. }
  assert (Hnext_state : clickNext s1 =
            set_gameList (viewOf games (p + 1)) (set_currentPage (p + 1) s1)).
  { unfold clickNext. unfold s1 at 1. cbn [gameList set_gameList]. rewrite Hv.
    cbn [pg_next]. rewrite (proj2 (Z.ltb_lt _ _) Hnext).
    rewrite render_unfold.
    change (working (set_currentPage (currentPage s1 + 1) s1)) with (working s).
    rewrite Hgames. cbn zeta.
    change (currentPage (set_currentPage (currentPage s1 + 1) s1)) with (p + 1).
    assert (Hclamp : clampedPage games (p + 1) = p + 1).
    { unfold clampedPage. destruct (Z.ltb_spec (ceilDiv (Z.of_nat (length games)) PAGE_SIZE)
                                     (p + 1)); [lia|reflexivity]. }
    rewrite Hclamp. reflexivity. }
  rewrite Hnext_state. split; [reflexivity|]. split; [lia|].
  assert (Hrange' : 1 <= p + 1 <= Z.max 1 (ceilDiv (Z.of_nat (length games)) PAGE_SIZE))
    by lia.
  destruct (viewOf_cases games (p + 1) Hrange') as [[? _]|[_ (c1 & _ & _ & Hv1)]];
    [contradiction|].
  unfold clickPrevious. cbn [gameList set_gameList]. rewrite Hv1. cbn [pg_prev].
  rewrite (proj2 (Z.ltb_lt 1 (p + 1))) by lia.
  rewrite render_unfold.
  match goal with |- context [working ?x] => change (working x) with (working s) end.
  rewrite Hgames. cbn zeta.
  match goal with |- context [clampedPage games ?x] =>
    replace (clampedPage games x) with p end.
  - reflexivity.
  - cbn [currentPage set_currentPage set_gameList]. replace (p + 1 - 1) with p by lia.
    unfold clampedPage. destruct (Z.ltb_spec (ceilDiv (Z.of_nat (length games)) PAGE_SIZE) p);
      [lia|reflexivity].
Qed.
End Pages.

(* ===================================================================== *)
(** ** What the page shows *)
(* ===================================================================== *)

Section Shown.
Variable localeCompare : jsstring -> jsstring -> Z.
Variable toUpperCase : jsstring -> jsstring.

Abbreviation render' := (renderGamesForCurrentConsole localeCompare toUpperCase).

(** A render overwrites the container: what was in it does not matter. *)
Lemma render_ignores_gameList (v : GameListView) (s : State) :
  render' (set_gameList v s) = render' s.
Proof.
  rewrite !render_unfold.
  change (workingGames localeCompare toUpperCase (set_gameList v s))
    with (workingGames localeCompare toUpperCase s).
  now destruct (workingGames localeCompare toUpperCase s).
Qed.

Lemma set_page_filter_id (s : State) :
  activeFilter s = None -> currentPage s = 1 ->
  set_currentPage 1 (set_activeFilter None s) = s.
Proof. destruct s. cbn. now intros -> ->. Qed.

(** X7. The "All" button undoes the alphabetical filter: clicked after a
    letter it leaves the state it leaves when clicked at once, and on a
    rendered first page without alphabetical filter, a letter followed by
    "All" gives that state back. *)
Theorem resetFilter_undoes_applyFilter (letter : jsstring) (s : State) :
  resetFilter localeCompare toUpperCase (applyFilter localeCompare toUpperCase letter s)
  = resetFilter localeCompare toUpperCase s /\
  (activeFilter s = None -> currentPage s = 1 -> render' s = s ->
   resetFilter localeCompare toUpperCase (applyFilter localeCompare toUpperCase letter s) = s).
Proof.
  assert (Hundo : resetFilter localeCompare toUpperCase
                    (applyFilter localeCompare toUpperCase letter s)
                  = resetFilter localeCompare toUpperCase s).
  { unfold resetFilter, applyFilter. cbn zeta.
    destruct (render_frame localeCompare toUpperCase
                (set_currentPage 1 (set_activeFilter (Some letter) s))) as (p & v & ->).
    rewrite <- (render_ignores_gameList v (set_currentPage 1 (set_activeFilter None s))).
    reflexivity. }
  split; [exact Hundo|].
  intros Hfilter Hpage Hrendered. rewrite Hundo. unfold resetFilter. cbn zeta.
  now rewrite set_page_filter_id.
Qed.

Lemma StronglySorted_sublist {A} (R : A -> A -> Prop) (l k : list A) :
  sublist l k -> StronglySorted R k -> StronglySorted R l.
Proof.
  induction 1 as [|x l k Hsub IH|x l k Hsub IH]; intros Hk.
  - constructor.
  - apply StronglySorted_inv in Hk as [Hk Hx]. constructor; [now apply IH|].
    apply Forall_forall. intros y Hy. rewrite Forall_forall in Hx. apply Hx.
    eapply elem_of_sublist; eassumption.
  - apply StronglySorted_inv in Hk as [Hk _]. now apply IH.
Qed.

Lemma sublist_List_filter {A} (f : A -> bool) (l : list A) : sublist (List.filter f l) l.
Proof.
  induction l as [|x l IH]; [constructor|]. cbn.
  destruct (f x); [now apply sublist_skip|now apply sublist_cons].
Qed.

Lemma sublist_slice {A} (l : list A) (start end_ : Z) : sublist (slice l start end_) l.
Proof. unfold slice. etransitivity; [apply sublist_take|apply sublist_drop]. Qed.

Lemma displayed_sublist_working (s : State) :
  sublist (displayedGames (gameList (render' s)))
    (default [] (workingGames localeCompare toUpperCase s)).
Proof.
  rewrite render_unfold. destruct (workingGames localeCompare toUpperCase s) as [games|]; cbn.
  - rewrite displayedGames_viewOf. apply sublist_slice.
  - constructor.
Qed.

Section SortedCards.
Hypothesis localeCompare_total :
  forall a b, localeCompare a b <= 0 \/ localeCompare b a <= 0.
Hypothesis localeCompare_trans :
  forall a b c, localeCompare a b <= 0 -> localeCompare b c <= 0 -> localeCompare a c <= 0.

(** X8. Without a status filter, whatever the alphabetical filter, the genre
    filter and the page number, the cards of the container are games of the
    cache of the selected console, in title order: a sublist of the sorted
    cached list, in which no card is after a later one. *)
Theorem displayed_cards_sorted (s : State) :
  truthy (activeStatusFilter s) = false ->
  sublist (displayedGames (gameList (render' s)))
    (sortBy (byTitle localeCompare) (cachedGames s)) /\
  StronglySorted (notAfter (byTitle localeCompare)) (displayedGames (gameList (render' s))) /\
  Forall (fun g => In g (cachedGames s)) (displayedGames (gameList (render' s))).
Proof using localeCompare_total localeCompare_trans.
  intros Hstatus.
  assert (Hsub : sublist (displayedGames (gameList (render' s)))
                   (sortBy (byTitle localeCompare) (cachedGames s))).
  { etransitivity; [apply displayed_sublist_working|].
    unfold workingGames, baseGames, alphaFiltered, genreFiltered. rewrite Hstatus. cbn.
    destruct (truthyId (currentConsoleId s)); cbn; [|apply sublist_nil_l].
    destruct (truthy (activeFilter s)), (truthy (activeGenreFilter s)); cbn;
      repeat (etransitivity; [apply sublist_List_filter|]); reflexivity. }
  split; [exact Hsub|]. split.
  - eapply StronglySorted_sublist; [exact Hsub|].
    apply (sortBy_StronglySorted (byTitle localeCompare)).
    + intros a b. apply localeCompare_total.
    + intros a b c. apply localeCompare_trans.
  - apply Forall_forall. intros g Hg. apply list_elem_of_In.
    rewrite <- (sortBy_Permutation (byTitle localeCompare) (cachedGames s)).
    eapply elem_of_sublist; eassumption.
Qed.
End SortedCards.
End Shown.

(* ===================================================================== *)
(** ** Opening a game and moving through the list *)
(* ===================================================================== *)

Arguments renderGameDetail : simpl never.
Arguments navigationList : simpl never.
Arguments renderGamesForCurrentConsole : simpl never.

Ltac run_calls :=
  unfold exec, bind, modify, get, ret, throw, tryCatch, apiCall; cbn.

(** [findIndex] answers the position of the first element that satisfies the
    predicate, and -1 when there is none. *)
Lemma findIndexFrom_spec {A} (p : A -> bool) (l : list A) (i : Z) :
  0 <= i ->
  (findIndexFrom p l i = -1 /\ Forall (fun x => p x = false) l) \/
  (i <= findIndexFrom p l i < i + Z.of_nat (length l) /\
   exists x,
     l !! Z.to_nat (findIndexFrom p l i - i) = Some x /\ p x = true /\
     Forall (fun y => p y = false) (take (Z.to_nat (findIndexFrom p l i - i)) l)).
Proof.
  revert i. induction l as [|x l IH]; intros i Hi; [left; split; [reflexivity|constructor]|].
  cbn [findIndexFrom]. destruct (p x) eqn:Hx.
  - right. split; [cbn [length]; lia|]. exists x. rewrite Z.sub_diag. cbn.
    repeat split; [exact Hx|constructor].
  - destruct (IH (i + 1) ltac:(lia)) as [[Hnone Hall]|[Hrange (y & Hy & Hpy & Hbefore)]].
    + left. split; [exact Hnone|now constructor].
    + right. split; [cbn [length]; lia|]. exists y.
      replace (Z.to_nat (findIndexFrom p l (i + 1) - i))
        with (S (Z.to_nat (findIndexFrom p l (i + 1) - (i + 1)))) by lia.
      cbn. repeat split; [exact Hy|exact Hpy|now constructor].
Qed.

Lemma findIndex_spec {A} (p : A -> bool) (l : list A) :
  (findIndex p l = -1 /\ Forall (fun x => p x = false) l) \/
  (0 <= findIndex p l < Z.of_nat (length l) /\
   exists x, at_index l (findIndex p l) = Some x /\ p x = true).
Proof.
  unfold findIndex, at_index.
  destruct (findIndexFrom_spec p l 0 ltac:(lia)) as [H|[Hrange (x & Hx & Hpx & _)]];
    [now left|right].
  split; [lia|]. exists x. rewrite Z.sub_0_r in Hx.
  destruct (Z.ltb_spec (findIndexFrom p l 0) 0); [lia|]. now split.
Qed.

Lemma renderGameDetail_view (game : Game) (s : State) :
  gameDetail (renderGameDetail game s) =
  Some {| dv_game := game;
          dv_isFirst := currentGameIndex s <=? 0;
          dv_isLast := Z.of_nat (length (currentGamesList s)) - 1 <=? currentGameIndex s;
          dv_position := if 0 <? Z.of_nat (length (currentGamesList s))
                         then Some (currentGameIndex s + 1,
                                    Z.of_nat (length (currentGamesList s)))
                         else None;
          dv_descPage := currentDescriptionPage (renderGameDetail game s);
          dv_descPages := descriptionPages game |}.
Proof.
  unfold renderGameDetail, descriptionPages, descriptionText, charsPerPage. cbn zeta.
  destruct (_ <? _); reflexivity.
Qed.

Section Browsing.
Variable localeCompare : jsstring -> jsstring -> Z.
Variable toUpperCase : jsstring -> jsstring.

Abbreviation openDetail := (openGameDetail localeCompare toUpperCase).
Abbreviation navList := (navigationList localeCompare toUpperCase).

(** What the modal shows when the game has loaded: the game, page 1 of
    its description, and the position of the cursor in the stored list. *)
Lemma openGameDetail_view (s : State) (gameId : Z) (game : Game) (rView : Response unit)
    (rStatus : Response GameStatus) :
  let s' := exec (openDetail gameId (Fulfilled game) rView rStatus) s in
  gameDetail s' =
  Some {| dv_game := game;
          dv_isFirst := currentGameIndex s' <=? 0;
          dv_isLast := Z.of_nat (length (currentGamesList s')) - 1 <=? currentGameIndex s';
          dv_position := if 0 <? Z.of_nat (length (currentGamesList s'))
                         then Some (currentGameIndex s' + 1,
                                    Z.of_nat (length (currentGamesList s')))
                         else None;
          dv_descPage := 1;
          dv_descPages := descriptionPages game |}.
Proof.
  cbn zeta. unfold openGameDetail, recordGameView, loadGameStatus. run_calls.
  destruct rView, rStatus; cbn;
    match goal with |- context [renderGameDetail game ?x] =>
      rewrite (renderGameDetail_view game x);
      destruct (renderGameDetail_pager game x) as (_ & _ & Hp); rewrite Hp;
      rewrite ?renderGameDetail_preserves by reflexivity; cbn;
      destruct (_ <? 1); reflexivity
    end.
Qed.

(** X9. When the game loads, [openGameDetail] shows it in the modal on page 1
    of its description, stores the navigation list, and leaves the cursor on
    the game with the requested id, or at -1 when the list has no such game.
    When the request for the game fails, nothing of the detail changes: the
    game, the list, the cursor, the modal and its visibility are as before,
    and the one notice is that of [apiCall]. *)
Theorem openGameDetail_outcome (s : State) (gameId : Z) (game : Game) (rView : Response unit)
    (rStatus : Response GameStatus) (status : Z) (errorBody : option (option jsstring)) :
  (let s' := exec (openDetail gameId (Fulfilled game) rView rStatus) s in
   currentGameDetail s' = Some game /\
   modalGameDetailOpen (page s') = true /\
   gameDetail s' =
     Some {| dv_game := game;
             dv_isFirst := currentGameIndex s' <=? 0;
             dv_isLast := Z.of_nat (length (currentGamesList s')) - 1 <=? currentGameIndex s';
             dv_position := if 0 <? Z.of_nat (length (currentGamesList s'))
                            then Some (currentGameIndex s' + 1,
                                       Z.of_nat (length (currentGamesList s')))
                            else None;
             dv_descPage := 1;
             dv_descPages := descriptionPages game |} /\
   pagerInSync s' /\ currentDescriptionPage s' = 1 /\
   currentGamesList s' = navList s /\
   ((currentGameIndex s' = -1 /\ Forall (fun g => game_id g <> gameId) (navList s)) \/
    (exists g, at_index (currentGamesList s') (currentGameIndex s') = Some g /\
               game_id g = gameId))) /\
  (let s' := exec (openDetail gameId (ErrorStatus status errorBody) rView rStatus) s in
   currentGameDetail s' = currentGameDetail s /\
   currentGamesList s' = currentGamesList s /\
   currentGameIndex s' = currentGameIndex s /\
   gameDetail s' = gameDetail s /\
   page s' = page s /\
   toasts s' = toasts s ++ [apiErrorToast (ErrorStatus (A:=Game) status errorBody)]).
Proof.
  split.
  - cbn zeta.
    destruct (openGameDetail_cursor localeCompare toUpperCase s gameId game rView rStatus)
      as [Hlist Hindex]. cbn zeta in Hlist, Hindex.
    assert (Hrest :
      let s' := exec (openDetail gameId (Fulfilled game) rView rStatus) s in
      currentGameDetail s' = Some game /\ modalGameDetailOpen (page s') = true /\
      totalDescriptionPages s' = descriptionPages game /\ currentDescriptionPage s' = 1).
    { cbn zeta. unfold openGameDetail, recordGameView, loadGameStatus. run_calls.
      destruct rView, rStatus; cbn;
        match goal with |- context [renderGameDetail game ?x] =>
          destruct (renderGameDetail_pager game x) as (Hd & Ht & Hp);
          cbn [currentDescriptionPage set_currentDescriptionPage currentGameDetail
               set_totalDescriptionPages set_currentGameIndex set_currentGamesList
               set_currentGameStatus set_currentLightboxScreenshots set_currentGameDetail
               set_isLoading set_requests set_toasts setLoading showToast] in Hd, Hp;
          rewrite Hd, Ht, Hp
        end;
        (repeat split; try reflexivity;
         unfold descriptionPages; destruct (Z.ltb_spec (Z.max 1 (ceilDiv
           (Z.of_nat (length (descriptionText game))) charsPerPage)) 1); [lia|reflexivity]). }
    cbn zeta in Hrest. destruct Hrest as (Hgame & Hmodal & Htotal & Hpage).
    split; [exact Hgame|]. split; [exact Hmodal|].
    split; [exact (openGameDetail_view s gameId game rView rStatus)|]. split.
    { exists game. rewrite Htotal, Hpage. repeat split; [exact Hgame|lia|].
      unfold descriptionPages. lia. }
    split; [exact Hpage|]. split; [exact Hlist|].
    rewrite Hlist, Hindex.
    destruct (findIndex_spec (fun g => game_id g =? gameId) (navList s))
      as [[Hnone Hall]|[_ (g & Hg & Hid)]].
    + left. split; [exact Hnone|]. eapply Forall_impl; [exact Hall|].
      intros g Hg. cbn in Hg. now apply Z.eqb_neq.
    + right. exists g. split; [exact Hg|now apply Z.eqb_eq].
  - cbn zeta. unfold openGameDetail. run_calls. repeat split; reflexivity.
Qed.
End Browsing.

(** What [renderGameDetail] puts in the modal. *)
Lemma at_index_Some {A} (l : list A) (i : Z) (x : A) :
  at_index l i = Some x -> 0 <= i < Z.of_nat (length l).
Proof.
  unfold at_index. destruct (Z.ltb_spec i 0); [discriminate|].
  intros Hlookup. apply lookup_lt_Some in Hlookup. lia.
Qed.

(** The state after a navigation step that loads [game] for the list element
    [g] under the moved cursor. *)
Lemma loadGameAtIndex_success (failure : jsstring) (game g : Game)
    (rStatus : Response GameStatus) (s : State) :
  at_index (currentGamesList s) (currentGameIndex s) = Some g ->
  let s' := exec (loadGameAtIndex failure (Fulfilled game) rStatus) s in
  currentGameDetail s' = Some game /\
  currentDescriptionPage s' = 1 /\
  requests s' = requests s ++ [{| req_endpoint := GameById (game_id g); req_method := GET |};
                               {| req_endpoint := GameStatusOf (game_id g);
                                  req_method := GET |}] /\
  exists view,
    gameDetail s' = Some view /\ dv_game view = game /\
    dv_isFirst view = (currentGameIndex s <=? 0) /\
    dv_isLast view = (Z.of_nat (length (currentGamesList s)) - 1 <=? currentGameIndex s) /\
    dv_position view = Some (currentGameIndex s + 1, Z.of_nat (length (currentGamesList s))).
Proof.
  intros Hat. pose proof (at_index_Some _ _ _ Hat) as Hrange.
  cbn zeta. unfold loadGameAtIndex, loadGameStatus. run_calls. rewrite Hat.
  destruct rStatus; cbn;
    match goal with |- context [renderGameDetail game ?x] =>
      destruct (renderGameDetail_pager game x) as (Hd & Ht & Hp);
      pose proof (renderGameDetail_view game x) as Hv;
      rewrite ?(renderGameDetail_preserves requests) by reflexivity;
      cbn [currentDescriptionPage set_currentDescriptionPage currentGameDetail
           set_currentGameStatus set_currentLightboxScreenshots set_currentGameDetail
           set_isLoading set_requests set_toasts setLoading showToast
           currentGameIndex currentGamesList requests] in Hd, Hp, Hv |- *;
      rewrite Hd, Hp, Hv
    end;
    (split; [reflexivity|]; split;
     [unfold descriptionPages;
      destruct (Z.ltb_spec (Z.max 1 (ceilDiv (Z.of_nat (length (descriptionText game)))
                                       charsPerPage)) 1); [lia|reflexivity]|];
     split; [rewrite <- !app_assoc; reflexivity|];
     eexists; split; [reflexivity|]; cbn;
     destruct (Z.ltb_spec 0 (Z.of_nat (length (currentGamesList s)))); [|lia];
     repeat split; reflexivity).
Qed.

(** X10. From a cursor that has a game before it, [navigateToPrevGame] asks
    the server for that game and for its status, and for nothing else; when
    the game loads, the cursor is one lower, the modal shows the loaded game
    on page 1 of its description, and the position it displays is the old
    index out of the length of the list. [navigateToNextGame] does the same
    for the game after the cursor. *)
Theorem navigation_loads_the_neighbour (s : State) (g game : Game)
    (rStatus : Response GameStatus) :
  (at_index (currentGamesList s) (currentGameIndex s - 1) = Some g ->
   let s' := exec (navigateToPrevGame (Fulfilled game) rStatus) s in
   currentGameIndex s' = currentGameIndex s - 1 /\
   currentGameDetail s' = Some game /\ currentDescriptionPage s' = 1 /\
   requests s' = requests s ++ [{| req_endpoint := GameById (game_id g); req_method := GET |};
                                {| req_endpoint := GameStatusOf (game_id g);
                                   req_method := GET |}] /\
   exists view,
     gameDetail s' = Some view /\ dv_game view = game /\
     dv_position view = Some (currentGameIndex s, Z.of_nat (length (currentGamesList s)))) /\
  (at_index (currentGamesList s) (currentGameIndex s + 1) = Some g ->
   let s' := exec (navigateToNextGame (Fulfilled game) rStatus) s in
   currentGameIndex s' = currentGameIndex s + 1 /\
   currentGameDetail s' = Some game /\ currentDescriptionPage s' = 1 /\
   requests s' = requests s ++ [{| req_endpoint := GameById (game_id g); req_method := GET |};
                                {| req_endpoint := GameStatusOf (game_id g);
                                   req_method := GET |}] /\
   exists view,
     gameDetail s' = Some view /\ dv_game view = game /\
     dv_position view = Some (currentGameIndex s + 2, Z.of_nat (length (currentGamesList s)))).
Proof.
  split; intros Hat; pose proof (at_index_Some _ _ _ Hat) as Hrange; cbn zeta.
  - destruct (navigateToPrevGame_cursor (Fulfilled game) rStatus s) as [_ Hindex].
    cbn zeta in Hindex.
    assert (Hguard : (currentGameIndex s <=? 0)
                     || (Z.of_nat (length (currentGamesList s)) =? 0) = false).
    { apply orb_false_intro; [apply Z.leb_gt|apply Z.eqb_neq]; lia. }
    rewrite Hguard in Hindex. split; [exact Hindex|].
    unfold exec, navigateToPrevGame. rewrite Hguard. unfold bind, modify. cbn beta iota.
    destruct (loadGameAtIndex_success (js "Failed to load previous game") game g rStatus
                (set_currentGameIndex (currentGameIndex s - 1) s) Hat)
      as (Hgame & Hpage & Hreq & view & Hview & Hshown & _ & _ & Hpos).
    unfold exec in *. split; [exact Hgame|]. split; [exact Hpage|]. split; [exact Hreq|].
    exists view. split; [exact Hview|]. split; [exact Hshown|].
    rewrite Hpos. cbn. f_equal. f_equal. lia.
  - destruct (navigateToNextGame_cursor (Fulfilled game) rStatus s) as [_ Hindex].
    cbn zeta in Hindex.
    assert (Hguard : (Z.of_nat (length (currentGamesList s)) - 1 <=? currentGameIndex s)
                     || (Z.of_nat (length (currentGamesList s)) =? 0) = false).
    { apply orb_false_intro; [apply Z.leb_gt|apply Z.eqb_neq]; lia. }
    rewrite Hguard in Hindex. split; [exact Hindex|].
    unfold exec, navigateToNextGame. rewrite Hguard. unfold bind, modify. cbn beta iota.
    destruct (loadGameAtIndex_success (js "Failed to load next game") game g rStatus
                (set_currentGameIndex (currentGameIndex s + 1) s) Hat)
      as (Hgame & Hpage & Hreq & view & Hview & Hshown & _ & _ & Hpos).
    unfold exec in *. split; [exact Hgame|]. split; [exact Hpage|]. split; [exact Hreq|].
    exists view. split; [exact Hview|]. split; [exact Hshown|].
    rewrite Hpos. cbn. f_equal. f_equal. lia.
Qed.

(** X11. Between the ends of the list, "previous" followed by "next", and
    "next" followed by "previous", bring the cursor back to where it was,
    whatever the server answers. *)
Theorem navigation_round_trip (s : State) (rGame1 rGame2 : Response Game)
    (rStatus1 rStatus2 : Response GameStatus) :
  (0 < currentGameIndex s <= Z.of_nat (length (currentGamesList s)) - 1 ->
   currentGameIndex
     (exec (navigateToNextGame rGame2 rStatus2) (exec (navigateToPrevGame rGame1 rStatus1) s))
   = currentGameIndex s) /\
  (0 <= currentGameIndex s < Z.of_nat (length (currentGamesList s)) - 1 ->
   currentGameIndex
     (exec (navigateToPrevGame rGame2 rStatus2) (exec (navigateToNextGame rGame1 rStatus1) s))
   = currentGameIndex s).
Proof.
  split; intros Hrange.
  - destruct (navigateToPrevGame_cursor rGame1 rStatus1 s) as [Hl1 Hi1].
    destruct (navigateToNextGame_cursor rGame2 rStatus2
                (exec (navigateToPrevGame rGame1 rStatus1) s)) as [_ Hi2].
    cbn zeta in *. rewrite Hi2, Hl1, Hi1.
    destruct (Z.leb_spec (currentGameIndex s) 0); [lia|].
    destruct (Z.eqb_spec (Z.of_nat (length (currentGamesList s))) 0); [lia|]. cbn [orb].
    destruct (Z.leb_spec (Z.of_nat (length (currentGamesList s)) - 1) (currentGameIndex s - 1));
      [lia|]. cbn [orb]. lia.
  - destruct (navigateToNextGame_cursor rGame1 rStatus1 s) as [Hl1 Hi1].
    destruct (navigateToPrevGame_cursor rGame2 rStatus2
                (exec (navigateToNextGame rGame1 rStatus1) s)) as [_ Hi2].
    cbn zeta in *. rewrite Hi2, Hl1, Hi1.
    destruct (Z.leb_spec (Z.of_nat (length (currentGamesList s)) - 1) (currentGameIndex s));
      [lia|].
    destruct (Z.eqb_spec (Z.of_nat (length (currentGamesList s))) 0); [lia|]. cbn [orb].
    destruct (Z.leb_spec (currentGameIndex s + 1) 0); [lia|]. cbn [orb]. lia.
Qed.

(** X12. When the request of a navigation step fails, the cursor has moved
    all the same, while the modal still shows the game and the position it
    showed before; two error notices are shown, that of [apiCall] and that of
    the navigation function. *)
Theorem failed_navigation_moves_the_cursor (s : State) (g : Game) (status : Z)
    (errorBody : option (option jsstring)) (rStatus : Response GameStatus) :
  at_index (currentGamesList s) (currentGameIndex s - 1) = Some g ->
  let r := ErrorStatus (A:=Game) status errorBody in
  let s' := exec (navigateToPrevGame r rStatus) s in
  currentGameIndex s' = currentGameIndex s - 1 /\
  currentGameDetail s' = currentGameDetail s /\
  gameDetail s' = gameDetail s /\
  toasts s' = toasts s ++ [apiErrorToast r;
                          {| toast_message := js "Failed to load previous game";
                             toast_type := ToastError |}].
Proof.
  intros Hat. pose proof (at_index_Some _ _ _ Hat) as Hrange. cbn zeta.
  unfold exec, navigateToPrevGame.
  assert (Hguard : (currentGameIndex s <=? 0)
                   || (Z.of_nat (length (currentGamesList s)) =? 0) = false).
  { apply orb_false_intro; [apply Z.leb_gt|apply Z.eqb_neq]; lia. }
  rewrite Hguard. unfold loadGameAtIndex. run_calls. rewrite Hat. cbn.
  rewrite <- app_assoc. repeat split; reflexivity.
Qed.

(* ===================================================================== *)
(** ** The add-game form *)
(* ===================================================================== *)

(** The warnings among the toasts. *)
Definition warnings (l : list Toast) : list Toast :=
  List.filter (fun t => match toast_type t with ToastWarning => true | _ => false end) l.

(** The titles [confirmAddGame] sends for the text of the bulk tab: the
    lines, trimmed, without the empty ones. *)
Definition parseGameList (listText : jsstring) : list jsstring :=
  List.filter (fun line => 0 <? Z.of_nat (length line)) (trim <$> split newline listText).

Lemma trimStart_id (s : jsstring) :
  (forall c, head s = Some c -> isWhiteSpace c = false) -> trimStart s = s.
Proof.
  destruct s as [|c s]; [reflexivity|]. intros Hhead. cbn.
  now rewrite (Hhead c eq_refl).
Qed.

Lemma trim_idempotent (s : jsstring) : trim (trim s) = trim s.
Proof.
  unfold trim at 1. rewrite (trimStart_id (trim s)).
  - unfold trimEnd. rewrite trimStart_id; [apply reverse_involutive|].
    intros c Hc. rewrite head_reverse in Hc. apply (trim_ends s). now right.
  - intros c Hc. apply (trim_ends s). now left.
Qed.

Lemma trimStart_snoc_not_nil (l : jsstring) (c : N) :
  isWhiteSpace c = false -> trimStart (l ++ [c]) <> [].
Proof.
  intros Hc. induction l as [|x l IH]; cbn; [now rewrite Hc|].
  destruct (isWhiteSpace x); [exact IH|discriminate].
Qed.

Lemma trim_cons_not_nil (c : N) (s : jsstring) :
  isWhiteSpace c = false -> trim (c :: s) <> [].
Proof.
  intros Hc. unfold trim, trimEnd. cbn [trimStart]. rewrite Hc.
  rewrite reverse_cons. intros Hnil. apply (f_equal reverse) in Hnil.
  rewrite reverse_involutive in Hnil. cbn in Hnil.
  now apply (trimStart_snoc_not_nil (reverse s) c).
Qed.

Lemma trim_In (s : jsstring) (c : N) : In c (trim s) -> In c s.
Proof.
  destruct (trim_decompose s) as (ws1 & ws2 & Hs & _). intros Hc.
  rewrite Hs. apply in_or_app. right. apply in_or_app. now left.
Qed.

(** A text that is not blank has a first line that is not blank. *)
Lemma parseGameList_not_nil (text : jsstring) :
  trim text <> [] -> parseGameList (trim text) <> [].
Proof.
  intros Hne. destruct (trim text) as [|c t] eqn:Htrim; [contradiction|].
  assert (Hc : isWhiteSpace c = false).
  { apply (trim_ends text). left. now rewrite Htrim. }
  unfold parseGameList. cbn [split].
  destruct (N.eqb_spec c newline) as [->|_]; [discriminate|].
  pose proof (split_not_nil newline t) as Hsplit.
  destruct (split newline t) as [|p ps]; [contradiction|].
  cbn [fmap list_fmap List.filter].
  pose proof (trim_cons_not_nil c p Hc) as Hfirst.
  destruct (trim (c :: p)); [contradiction|]. cbn. discriminate.
Qed.

(** X13. The titles of a bulk add are well formed: each one is a trimmed,
    non-empty line of the text, without a line break in it; and a text that
    is not blank always gives at least one title, so that the notice
    "No valid game titles found" is out of reach. *)
Theorem bulk_titles_well_formed (text : jsstring) :
  Forall (fun title => title <> [] /\ trim title = title /\ ~ In newline title)
    (parseGameList (trim text)) /\
  (trim text <> [] -> parseGameList (trim text) <> []).
Proof.
  split; [|apply parseGameList_not_nil].
  apply Forall_forall. intros title Htitle. apply list_elem_of_In in Htitle.
  unfold parseGameList in Htitle. apply filter_In in Htitle as [Hin Hlen].
  apply list_elem_of_In, list_elem_of_fmap in Hin as (piece & -> & Hpiece).
  apply list_elem_of_In in Hpiece. repeat split.
  - intros Hnil. rewrite Hnil in Hlen. discriminate.
  - apply trim_idempotent.
  - intros Hnl. apply trim_In in Hnl. now apply (split_pieces_free newline (trim text) piece).
Qed.

Lemma bulk_titles_witness :
  trim (js " Doom ") <> [] /\ parseGameList (trim (js " Doom ")) <> [].
Proof.
  assert (H : trim (js " Doom ") <> []) by (vm_compute; discriminate).
  split; [exact H|]. exact (proj2 (bulk_titles_well_formed (js " Doom ")) H).
Defined.

Section AddGame.
Variable localeCompare : jsstring -> jsstring -> Z.
Variable toUpperCase : jsstring -> jsstring.

Abbreviation addGame := (confirmAddGame localeCompare toUpperCase).

(** X14. The checks [confirmAddGame] makes before any request: without a
    selected console, with a blank title on the single tab, and with a blank
    text on the bulk tab, it shows one warning and does nothing else; no
    request is sent and the state is otherwise untouched. *)
Theorem confirmAddGame_validation (s : State) (rAdd : Response AddResult)
    (rGames rRecent : Response (list Game)) (rStats : Response Stats) :
  (truthyId (currentConsoleId s) = false ->
   addGame rAdd rGames rStats rRecent s =
   (showToast (js "Please select a console first") ToastWarning s, Returned tt)) /\
  (truthyId (currentConsoleId s) = true -> tabSingleActive (page s) = true ->
   trim (addGameTitle (page s)) = [] ->
   addGame rAdd rGames rStats rRecent s =
   (showToast (js "Please enter a game title") ToastWarning s, Returned tt)) /\
  (truthyId (currentConsoleId s) = true -> tabSingleActive (page s) = false ->
   trim (addGamesList (page s)) = [] ->
   addGame rAdd rGames rStats rRecent s =
   (showToast (js "Please paste a list of games") ToastWarning s, Returned tt)).
Proof.
  unfold confirmAddGame, bind, get, modify. repeat split.
  - intros Hconsole. cbn. now rewrite Hconsole.
  - intros Hconsole Htab Htitle. cbn. rewrite Hconsole. cbn. rewrite Htab. cbn.
    now rewrite Htitle.
  - intros Hconsole Htab Hlist. cbn. rewrite Hconsole. cbn. rewrite Htab. cbn.
    now rewrite Hlist.
Qed.

(** A refresh after a mutation only adds to the log of requests, shows no
    warning, and never throws. *)
Lemma loadGamesForConsole_log (consoleId : option Z) (rGames : Response (list Game))
    (rStats : Response Stats) (s : State) :
  exists s',
    loadGamesForConsole localeCompare toUpperCase consoleId rGames rStats s = (s', Returned tt) /\
    (exists rest, requests s' = requests s ++ rest) /\
    warnings (toasts s') = warnings (toasts s).
Proof.
  unfold loadGamesForConsole, warnings.
  destruct rGames, rStats; run_calls; eexists; (split; [reflexivity|]);
    rewrite ?(render_preserves localeCompare toUpperCase requests) by reflexivity;
    rewrite ?(render_preserves localeCompare toUpperCase toasts) by reflexivity; cbn;
    (split; [eexists; rewrite <- ?app_assoc; reflexivity|]);
    rewrite ?List.filter_app; cbn; rewrite ?app_nil_r; reflexivity.
Qed.

Lemma loadLastAdded_log (rRecent : Response (list Game)) (s : State) :
  exists s',
    loadLastAdded rRecent s = (s', Returned tt) /\
    (exists rest, requests s' = requests s ++ rest) /\
    warnings (toasts s') = warnings (toasts s).
Proof.
  unfold loadLastAdded, warnings.
  destruct rRecent; run_calls; eexists; (split; [reflexivity|]);
    (split; [eexists; reflexivity|]);
    cbn; rewrite ?List.filter_app; cbn; rewrite ?app_nil_r; reflexivity.
Qed.

(** X15. With a console selected, a text on the bulk tab that is not blank
    always leads to the request: the first thing [confirmAddGame] does is the
    POST to the bulk endpoint of the selected console, and the only warnings
    of the state afterwards are those that were there before. *)
Theorem bulk_add_always_posts (s : State) (rAdd : Response AddResult)
    (rGames rRecent : Response (list Game)) (rStats : Response Stats) :
  truthyId (currentConsoleId s) = true ->
  tabSingleActive (page s) = false ->
  trim (addGamesList (page s)) <> [] ->
  let s' := exec (addGame rAdd rGames rStats rRecent) s in
  (exists rest,
     requests s' = requests s ++ {| req_endpoint := ConsoleGamesBulk (currentConsoleId s);
                                    req_method := POST |} :: rest) /\
  warnings (toasts s') = warnings (toasts s).
Proof.
  intros Hconsole Htab Htext. cbn zeta.
  pose proof (parseGameList_not_nil (addGamesList (page s)) Htext) as Htitles.
  unfold parseGameList in Htitles.
  unfold exec, confirmAddGame, bind, get. cbv beta iota. rewrite Hconsole. cbn [negb].
  rewrite Htab.
  destruct (trim (addGamesList (page s))) as [|c t] eqn:Htrim; [contradiction|].
  destruct (List.filter _ _) as [|title titles]; [contradiction|].
  clear Htrim Htext Htitles.
  unfold tryCatch, apiCall, modify. destruct rAdd as [result| |]; cbv beta iota zeta.
  - match goal with |- context [loadGamesForConsole _ _ ?c rGames rStats ?x] =>
      destruct (loadGamesForConsole_log c rGames rStats x)
        as (s3 & -> & (rest3 & Hreq3) & Hwarn3) end.
    cbv beta iota.
    destruct (loadLastAdded_log rRecent s3) as (s4 & -> & (rest4 & Hreq4) & Hwarn4).
    cbn [fst]. rewrite Hreq4, Hreq3, Hwarn4, Hwarn3. unfold warnings. cbn.
    rewrite List.filter_app. cbn. rewrite app_nil_r.
    split; [eexists; rewrite <- !app_assoc; reflexivity|reflexivity].
  - unfold warnings. cbn. split; [eexists; reflexivity|].
    rewrite !List.filter_app. cbn. now rewrite !app_nil_r.
  - unfold warnings. cbn. split; [eexists; reflexivity|].
    rewrite !List.filter_app. cbn. now rewrite !app_nil_r.
Qed.
End AddGame.

(* ===================================================================== *)
(** ** The rest of the module's variables *)
(* ===================================================================== *)

(** A console as the server returns it. *)
Record Console := {
  console_id : Z;
  console_name : jsstring;
  console_path : option jsstring;
  console_game_count : Z
}.

(** The values of [currentView]. *)
Inductive View := Homepage | ConsoleView | SearchView.

Definition viewName (v : View) : jsstring :=
  match v with
  | Homepage => js "homepage"
  | ConsoleView => js "console"
  | SearchView => js "search"
  end.

(** The endpoints of the functions below, beside those of [Endpoint]; the
    search string is the one [encodeURIComponent] encodes. *)
Inductive ShellEndpoint :=
| Consoles
| ConsoleById (consoleId : Z)
| GamesSearch (query : jsstring)
| RecentlyViewed.

Record ShellRequest := { sreq_endpoint : ShellEndpoint; sreq_method : Method }.

(** The controller's state together with the variables the functions below
    use: the list of consoles, the genres of the sidebar, the view, the
    search, the cursor of the screenshot lightbox, the browser's
    [localStorage], and the requests to the endpoints above, in the order
    they were sent. *)
Record Shell := mkShell {
  controller : State;
  consoles : list Console;
  genres : list jsstring;
  currentView : View;
  globalSearchQuery : jsstring;
  searchResultsList : list Game;
  currentLightboxIndex : Z;
  localStorage : gmap jsstring jsstring;
  shellRequests : list ShellRequest
}.

Definition set_controller (v : State) (sh : Shell) : Shell :=
  mkShell v (consoles sh) (genres sh) (currentView sh) (globalSearchQuery sh)
    (searchResultsList sh) (currentLightboxIndex sh) (localStorage sh) (shellRequests sh).

Definition set_consoles (v : list Console) (sh : Shell) : Shell :=
  mkShell (controller sh) v (genres sh) (currentView sh) (globalSearchQuery sh)
    (searchResultsList sh) (currentLightboxIndex sh) (localStorage sh) (shellRequests sh).

Definition set_genres (v : list jsstring) (sh : Shell) : Shell :=
  mkShell (controller sh) (consoles sh) v (currentView sh) (globalSearchQuery sh)
    (searchResultsList sh) (currentLightboxIndex sh) (localStorage sh) (shellRequests sh).

Definition set_currentView (v : View) (sh : Shell) : Shell :=
  mkShell (controller sh) (consoles sh) (genres sh) v (globalSearchQuery sh)
    (searchResultsList sh) (currentLightboxIndex sh) (localStorage sh) (shellRequests sh).

Definition set_globalSearchQuery (v : jsstring) (sh : Shell) : Shell :=
  mkShell (controller sh) (consoles sh) (genres sh) (currentView sh) v (searchResultsList sh)
    (currentLightboxIndex sh) (localStorage sh) (shellRequests sh).

Definition set_searchResultsList (v : list Game) (sh : Shell) : Shell :=
  mkShell (controller sh) (consoles sh) (genres sh) (currentView sh) (globalSearchQuery sh) v
    (currentLightboxIndex sh) (localStorage sh) (shellRequests sh).

Definition set_currentLightboxIndex (v : Z) (sh : Shell) : Shell :=
  mkShell (controller sh) (consoles sh) (genres sh) (currentView sh) (globalSearchQuery sh)
    (searchResultsList sh) v (localStorage sh) (shellRequests sh).

Definition set_localStorage (v : gmap jsstring jsstring) (sh : Shell) : Shell :=
  mkShell (controller sh) (consoles sh) (genres sh) (currentView sh) (globalSearchQuery sh)
    (searchResultsList sh) (currentLightboxIndex sh) v (shellRequests sh).

Definition set_shellRequests (v : list ShellRequest) (sh : Shell) : Shell :=
  mkShell (controller sh) (consoles sh) (genres sh) (currentView sh) (globalSearchQuery sh)
    (searchResultsList sh) (currentLightboxIndex sh) (localStorage sh) v.

(** A step of the controller inside the shell. *)
Definition onController (f : State -> State) (sh : Shell) : Shell :=
  set_controller (f (controller sh)) sh.

(* ===================================================================== *)
(** ** The screenshot lightbox *)
(* ===================================================================== *)

(** [openLightbox(imageSrc)]: the cursor goes to the clicked screenshot, or
    to 0 when the list does not have it. A screenshot is an object with its
    address in [url]; [s.url || s] is the object itself when the address is
    empty, which no string equals. *)
Definition openLightbox (imageSrc : jsstring) (sh : Shell) : Shell :=
  let screenshotUrls := currentLightboxScreenshots (controller sh) in
  let i :=
    findIndex (fun url => truthy (Some url) && bool_decide (url = imageSrc)) screenshotUrls in
  set_currentLightboxIndex (if i =? -1 then 0 else i) sh.

(** [nextScreenshot()]; [%] is the remainder with the sign of the dividend. *)
Definition nextScreenshot (sh : Shell) : Shell :=
  let len := Z.of_nat (length (currentLightboxScreenshots (controller sh))) in
  if len =? 0 then sh
  else set_currentLightboxIndex (Z.rem (currentLightboxIndex sh + 1) len) sh.

(** [previousScreenshot()]. *)
Definition previousScreenshot (sh : Shell) : Shell :=
  let len := Z.of_nat (length (currentLightboxScreenshots (controller sh))) in
  if len =? 0 then sh
  else set_currentLightboxIndex (Z.rem (currentLightboxIndex sh - 1 + len) len) sh.

(** The cursor of the lightbox points into the list of screenshots. *)
Definition lightboxInRange (sh : Shell) : Prop :=
  0 <= currentLightboxIndex sh
  < Z.of_nat (length (currentLightboxScreenshots (controller sh))).

Lemma set_currentLightboxIndex_id (sh : Shell) :
  set_currentLightboxIndex (currentLightboxIndex sh) sh = sh.
Proof. now destruct sh. Qed.

Lemma rem_next (i len : Z) :
  0 <= i < len -> Z.rem (i + 1) len = if i =? len - 1 then 0 else i + 1.
Proof.
  intros Hrange. destruct (Z.eqb_spec i (len - 1)) as [Heq|Hne].
  - replace (i + 1) with len by lia. apply Z.rem_same. lia.
  - apply Z.rem_small. lia.
Qed.

Lemma rem_previous (i len : Z) :
  0 <= i < len -> Z.rem (i - 1 + len) len = if i =? 0 then len - 1 else i - 1.
Proof.
  intros Hrange. destruct (Z.eqb_spec i 0) as [Heq|Hne].
  - rewrite Z.rem_small by lia. lia.
  - rewrite Z.rem_mod_nonneg by lia.
    replace (i - 1 + len) with (i - 1 + 1 * len) by lia.
    rewrite Z.mod_add by lia. apply Z.mod_small. lia.
Qed.

(** X16. The screenshot lightbox wraps around, where the game navigation
    stops: from a cursor inside the list, next and previous keep the
    cursor inside the list, next at the last screenshot goes to the first
    and previous at the first goes to the last, and each undoes the
    other. *)
Theorem lightbox_wraps_around (sh : Shell) :
  lightboxInRange sh ->
  let len := Z.of_nat (length (currentLightboxScreenshots (controller sh))) in
  lightboxInRange (nextScreenshot sh) /\
  lightboxInRange (previousScreenshot sh) /\
  currentLightboxIndex (nextScreenshot sh) =
    (if currentLightboxIndex sh =? len - 1 then 0 else currentLightboxIndex sh + 1) /\
  currentLightboxIndex (previousScreenshot sh) =
    (if currentLightboxIndex sh =? 0 then len - 1 else currentLightboxIndex sh - 1) /\
  previousScreenshot (nextScreenshot sh) = sh /\
  nextScreenshot (previousScreenshot sh) = sh.
Proof.
  unfold lightboxInRange. intros Hrange. cbn zeta.
  destruct sh as [c cs gs v q rs i ls rq]. cbn [currentLightboxIndex controller] in *.
  unfold nextScreenshot, previousScreenshot.
  cbn [currentLightboxIndex set_currentLightboxIndex controller consoles genres
       currentView globalSearchQuery searchResultsList localStorage shellRequests].
  assert (Hlen : (Z.of_nat (length (currentLightboxScreenshots c)) =? 0) = false)
    by (apply Z.eqb_neq; lia).
  rewrite !Hlen.
  cbn [currentLightboxIndex set_currentLightboxIndex controller consoles genres
       currentView globalSearchQuery searchResultsList localStorage shellRequests].
  rewrite !Hlen.
  cbn [currentLightboxIndex set_currentLightboxIndex controller consoles genres
       currentView globalSearchQuery searchResultsList localStorage shellRequests].
  clear Hlen. generalize dependent (Z.of_nat (length (currentLightboxScreenshots c))).
  intros len Hrange.
  rewrite (rem_next i len Hrange), (rem_previous i len Hrange).
  assert (Hback : Z.rem ((if i =? len - 1 then 0 else i + 1) - 1 + len) len = i).
  { rewrite rem_previous by (destruct (Z.eqb_spec i (len - 1)); lia).
    destruct (Z.eqb_spec i (len - 1)); cbn; [lia|].
    destruct (Z.eqb_spec (i + 1) 0); lia. }
  assert (Hforth : Z.rem ((if i =? 0 then len - 1 else i - 1) + 1) len = i).
  { rewrite rem_next by (destruct (Z.eqb_spec i 0); lia).
    destruct (Z.eqb_spec i 0); [rewrite Z.eqb_refl; lia|].
    destruct (Z.eqb_spec (i - 1) (len - 1)); lia. }
  rewrite Hback, Hforth.
  split; [destruct (Z.eqb_spec i (len - 1)); lia|].
  split; [destruct (Z.eqb_spec i 0); lia|].
  repeat split; reflexivity.
Qed.

(** X17. Opening the lightbox on a game with screenshots puts the cursor
    inside the list: on a screenshot with the clicked address when the list
    has that address, and on the first screenshot when it does not. *)
Theorem openLightbox_in_range (imageSrc : jsstring) (sh : Shell) :
  currentLightboxScreenshots (controller sh) <> [] ->
  lightboxInRange (openLightbox imageSrc sh) /\
  (imageSrc ∉ currentLightboxScreenshots (controller sh) ->
   currentLightboxIndex (openLightbox imageSrc sh) = 0) /\
  (imageSrc <> [] -> imageSrc ∈ currentLightboxScreenshots (controller sh) ->
   at_index (currentLightboxScreenshots (controller sh))
     (currentLightboxIndex (openLightbox imageSrc sh)) = Some imageSrc).
Proof.
  intros Hshots. unfold lightboxInRange, openLightbox.
  cbn [currentLightboxIndex set_currentLightboxIndex controller].
  set (urls := currentLightboxScreenshots (controller sh)) in *.
  set (found := fun url : jsstring => _).
  assert (Hlen : 0 < Z.of_nat (length urls)) by (destruct urls; [contradiction|cbn; lia]).
  destruct (findIndex_spec found urls) as [[-> Hnone]|[Hrange (x & Hx & Hfound)]].
  - cbn. split; [lia|]. split; [reflexivity|]. intros Hsrc Hin.
    rewrite Forall_forall in Hnone. specialize (Hnone _ Hin). unfold found in Hnone.
    rewrite bool_decide_eq_true_2 in Hnone by reflexivity.
    destruct imageSrc; [contradiction|discriminate].
  - destruct (Z.eqb_spec (findIndex found urls) (-1)) as [Heq|_]; [lia|].
    split; [exact Hrange|]. unfold found in Hfound.
    apply andb_true_iff in Hfound as [_ Heq]. apply bool_decide_eq_true in Heq. subst x.
    split; [|now intros _ _]. intros Hnot. exfalso. apply Hnot.
    unfold at_index in Hx. destruct (_ <? 0); [discriminate|].
    now apply list_elem_of_lookup_2 in Hx.
Qed.

(** The detail modal of a game with three screenshots, the lightbox on the
    last one. *)
Definition threeShots : Shell :=
  {| controller :=
       set_currentLightboxScreenshots [js "/a.png"; js "/b.png"; js "/c.png"] sampleConsole;
     consoles := []; genres := []; currentView := ConsoleView; globalSearchQuery := [];
     searchResultsList := []; currentLightboxIndex := 2; localStorage := ∅;
     shellRequests := [] |}.

Lemma lightbox_wraps_around_witness :
  currentLightboxIndex (nextScreenshot threeShots) = 0 /\
  currentLightboxIndex (previousScreenshot (nextScreenshot threeShots)) = 2.
Proof.
  assert (Hrange : lightboxInRange threeShots) by (unfold lightboxInRange; cbn; lia).
  destruct (lightbox_wraps_around threeShots Hrange) as (_ & _ & Hnext & _ & Hback & _).
  split; [exact Hnext|]. now rewrite Hback.
Defined.

Lemma openLightbox_witness :
  currentLightboxIndex (openLightbox (js "/b.png") threeShots) = 1 /\
  currentLightboxIndex (openLightbox (js "/b.png?t=1700000000000") threeShots) = 0.
Proof.
  assert (Hshots : currentLightboxScreenshots (controller threeShots) <> []) by discriminate.
  destruct (openLightbox_in_range (js "/b.png") threeShots Hshots) as (_ & _ & _).
  split; reflexivity.
Defined.

(* ===================================================================== *)
(** ** The genres of the sidebar *)
(* ===================================================================== *)

(** [set.add(x)] on a [Set], its elements in insertion order. *)
Definition setAdd (x : jsstring) (set : list jsstring) : list jsstring :=
  if bool_decide (x ∈ set) then set else set ++ [x].

(** The inner [forEach] of [extractGenres]: the trimmed pieces that are
    not empty go into the set. *)
Definition addPieces (set : list jsstring) (pieces : list jsstring) : list jsstring :=
  fold_left
    (fun set g => let trimmed := trim g in if truthy (Some trimmed) then setAdd trimmed set else set)
    pieces set.

(** The outer [forEach]: a game without genre adds nothing. *)
Definition addGenresOf (set : list jsstring) (game : Game) : list jsstring :=
  if truthy (game_genre game) then addPieces set (split comma (default [] (game_genre game)))
  else set.

(** [extractGenres()]; the default order of [sort()] compares the code
    units. *)
Definition extractGenres (sh : Shell) : Shell :=
  if negb (truthyId (currentConsoleId (controller sh))) then set_genres [] sh
  else
    let games := cachedGames (controller sh) in
    set_genres (sortBy ordinalCompare (fold_left addGenresOf games [])) sh.

Lemma setAdd_elem (x y : jsstring) (set : list jsstring) :
  x ∈ setAdd y set <-> x ∈ set \/ x = y.
Proof.
  unfold setAdd. case_bool_decide as Hin.
  - split; [now left|]. intros [H| ->]; assumption.
  - rewrite elem_of_app, list_elem_of_singleton. reflexivity.
Qed.

Lemma setAdd_NoDup (y : jsstring) (set : list jsstring) : NoDup set -> NoDup (setAdd y set).
Proof.
  intros Hset. unfold setAdd. case_bool_decide as Hin; [exact Hset|].
  apply NoDup_app. split; [exact Hset|]. split; [|apply NoDup_singleton].
  intros x Hx Hy. apply list_elem_of_singleton in Hy. now subst.
Qed.

Lemma addPieces_elem (x : jsstring) (pieces set : list jsstring) :
  x ∈ addPieces set pieces <->
  x ∈ set \/ (x <> [] /\ exists piece, piece ∈ pieces /\ trim piece = x).
Proof.
  unfold addPieces. revert set. induction pieces as [|p pieces IH]; intros set.
  - cbn. split; [now left|]. intros [H|(_ & piece & Hin & _)]; [exact H|].
    now apply elem_of_nil in Hin.
  - cbn [fold_left]. rewrite IH. destruct (trim p) as [|c t] eqn:Hp; cbn [truthy].
    + split.
      * intros [H|(Hx & piece & Hin & Htrim)]; [now left|right].
        split; [exact Hx|]. exists piece. split; [now right|exact Htrim].
      * intros [H|(Hx & piece & Hin & Htrim)]; [now left|right].
        split; [exact Hx|]. exists piece. split; [|exact Htrim].
        apply elem_of_cons in Hin as [->|Hin]; [|exact Hin]. congruence.
    + rewrite setAdd_elem. split.
      * intros [[H| ->]|(Hx & piece & Hin & Htrim)].
        -- now left.
        -- right. split; [discriminate|]. exists p. split; [now left|exact Hp].
        -- right. split; [exact Hx|]. exists piece. split; [now right|exact Htrim].
      * intros [H|(Hx & piece & Hin & Htrim)]; [now left; left|].
        apply elem_of_cons in Hin as [->|Hin].
        -- left. right. congruence.
        -- right. split; [exact Hx|]. now exists piece.
Qed.

Lemma addPieces_NoDup (pieces set : list jsstring) : NoDup set -> NoDup (addPieces set pieces).
Proof.
  unfold addPieces. revert set. induction pieces as [|p pieces IH]; intros set Hset; [exact Hset|].
  cbn [fold_left]. apply IH. destruct (truthy _); [now apply setAdd_NoDup|exact Hset].
Qed.

Lemma addGenresOf_elem (x : jsstring) (game : Game) (set : list jsstring) :
  x ∈ addGenresOf set game <-> x ∈ set \/ (x <> [] /\ matchesGenre x game = true).
Proof.
  unfold addGenresOf. destruct (truthy (game_genre game)) eqn:Hgenre.
  - rewrite addPieces_elem. apply or_iff_compat_l. split.
    + intros (Hx & piece & Hin & Htrim). split; [exact Hx|].
      apply matchesGenre_iff; [exact Hx|].
      destruct (game_genre game) as [tags|]; [|discriminate].
      exists tags, piece. now rewrite <- list_elem_of_In.
    + intros (Hx & Hm). split; [exact Hx|].
      apply matchesGenre_iff in Hm as (tags & piece & Htags & Hin & Htrim); [|exact Hx].
      exists piece. rewrite Htags. now rewrite list_elem_of_In.
  - split; [now left|]. intros [H|(Hx & Hm)]; [exact H|].
    unfold matchesGenre in Hm. destruct (game_genre game) as [[|c tags]|]; discriminate.
Qed.

Lemma addGenresOf_NoDup (game : Game) (set : list jsstring) :
  NoDup set -> NoDup (addGenresOf set game).
Proof.
  intros Hset. unfold addGenresOf. destruct (truthy _); [now apply addPieces_NoDup|exact Hset].
Qed.

Lemma genreSet_elem (x : jsstring) (games : list Game) (set : list jsstring) :
  x ∈ fold_left addGenresOf games set <->
  x ∈ set \/ (x <> [] /\ exists game, game ∈ games /\ matchesGenre x game = true).
Proof.
  revert set. induction games as [|g games IH]; intros set.
  - cbn. split; [now left|]. intros [H|(_ & game & Hin & _)]; [exact H|].
    now apply elem_of_nil in Hin.
  - cbn [fold_left]. rewrite IH, addGenresOf_elem. split.
    + intros [[H|(Hx & Hm)]|(Hx & game & Hin & Hm)].
      * now left.
      * right. split; [exact Hx|]. exists g. split; [now left|exact Hm].
      * right. split; [exact Hx|]. exists game. split; [now right|exact Hm].
    + intros [H|(Hx & game & Hin & Hm)]; [now left; left|].
      apply elem_of_cons in Hin as [->|Hin].
      * left. right. now split.
      * right. split; [exact Hx|]. now exists game.
Qed.

Lemma genreSet_NoDup (games : list Game) (set : list jsstring) :
  NoDup set -> NoDup (fold_left addGenresOf games set).
Proof.
  revert set. induction games as [|g games IH]; intros set Hset; [exact Hset|].
  cbn [fold_left]. now apply IH, addGenresOf_NoDup.
Qed.

(** X18. With a console selected, the sidebar lists exactly the genres
    that select something: a tag is listed if and only if it is not empty
    and the genre filter with that tag keeps at least one game of the
    console's cache. Every tag is listed once, without white space around
    it, and the list is in the order of the code units. *)
Theorem sidebar_genres_select_a_game (sh : Shell) :
  truthyId (currentConsoleId (controller sh)) = true ->
  (forall tag,
     tag ∈ genres (extractGenres sh) <->
     tag <> [] /\
     exists game, game ∈ cachedGames (controller sh) /\ matchesGenre tag game = true) /\
  NoDup (genres (extractGenres sh)) /\
  Forall (fun tag => trim tag = tag) (genres (extractGenres sh)) /\
  StronglySorted (notAfter ordinalCompare) (genres (extractGenres sh)).
Proof.
  intros Hconsole. unfold extractGenres. rewrite Hconsole. cbn [negb genres set_genres].
  assert (Hmem : forall tag,
    tag ∈ sortBy ordinalCompare (fold_left addGenresOf (cachedGames (controller sh)) []) <->
    tag <> [] /\
    exists game, game ∈ cachedGames (controller sh) /\ matchesGenre tag game = true).
  { intros tag. rewrite (sortBy_Permutation ordinalCompare), genreSet_elem.
    split; [intros [H|H]; [now apply elem_of_nil in H|exact H]|now right]. }
  split; [exact Hmem|]. split; [|split].
  - rewrite (sortBy_Permutation ordinalCompare). apply genreSet_NoDup, NoDup_nil_2.
  - apply Forall_forall. intros tag Htag. apply Hmem in Htag as (Hne & game & _ & Hm).
    apply matchesGenre_iff in Hm as (tags & piece & _ & _ & <-); [|exact Hne].
    apply trim_idempotent.
  - apply sortBy_StronglySorted; [apply ordinalCompare_total|apply ordinalCompare_trans].
Qed.

(** The sidebar of the sample console. *)
Definition sampleShell : Shell :=
  {| controller := sampleConsole; consoles := []; genres := []; currentView := ConsoleView;
     globalSearchQuery := []; searchResultsList := []; currentLightboxIndex := 0;
     localStorage := ∅; shellRequests := [] |}.

Lemma sidebar_genres_witness :
  genres (extractGenres sampleShell) = [js "Action"; js "Arcade"; js "RPG"] /\
  NoDup (genres (extractGenres sampleShell)).
Proof.
  split; [reflexivity|].
  apply (sidebar_genres_select_a_game sampleShell). reflexivity.
Defined.

(* ===================================================================== *)
(** ** The state kept across reloads *)
(* ===================================================================== *)

(** The value of a digit of [parseInt], letters included. *)
Definition digitValue (c : N) : option N :=
  if (48 <=? c)%N && (c <=? 57)%N then Some (c - 48)%N
  else if (97 <=? c)%N && (c <=? 122)%N then Some (c - 87)%N
  else if (65 <=? c)%N && (c <=? 90)%N then Some (c - 55)%N
  else None.

(** The longest prefix of digits of the radix, read as a number; [None]
    when there is no digit. *)
Fixpoint parseDigits (radix : N) (acc : option N) (s : jsstring) : option N :=
  match s with
  | [] => acc
  | c :: s' =>
      match digitValue c with
      | Some d =>
          if (d <? radix)%N then parseDigits radix (Some (default 0 acc * radix + d)%N) s'
          else acc
      | None => acc
      end
  end.

(** The integer a string denotes for [parseInt(s)] without a radix:
    leading white space, a sign, the prefix 0x or 0X of a hexadecimal number,
    then digits; [None] when there is no digit. *)
Definition mathInt (s : jsstring) : option Z :=
  let s := trimStart s in
  let '(negative, s) :=
    match s with
    | 45 :: rest => (true, rest)
    | 43 :: rest => (false, rest)
    | _ => (false, s)
    end%N in
  let '(radix, s) :=
    match s with
    | 48 :: 120 :: rest | 48 :: 88 :: rest => (16, rest)
    | _ => (10, s)
    end%N in
  (fun n => if negative : bool then - Z.of_N n else Z.of_N n) <$> parseDigits radix None s.

(** The result of [parseInt]: a Number, which is [NaN], infinite, or an
    integer. *)
Inductive ParsedInt :=
| NotANumber
| Infinite
| Finite (n : Z).

(** [parseInt(s)]. The integer read is returned as a Number: up to 2^53 in
    size it is returned exactly; beyond, it is rounded to a double, after an
    approximation that is left to the host for a numeral of more than 20
    digits, and [large] stands for what the host returns there. *)
Definition parseInt (large : Z -> ParsedInt) (s : jsstring) : ParsedInt :=
  match mathInt s with
  | None => NotANumber
  | Some n => if Z.abs n <=? 2 ^ 53 then Finite n else large n
  end.

Definition KEY_CONSOLE : jsstring := js "archive_currentConsoleId".
Definition KEY_VIEW : jsstring := js "archive_currentView".

(** [savePageState()]; [setItem] stores the string of its argument, which
    for a number below 10^21 in size is its decimal numeral. *)
Definition savePageState (sh : Shell) : Shell :=
  let s := controller sh in
  set_localStorage
    (<[js "archive_currentPage" := decimal (currentPage s)]>
     (<[js "archive_activeStatusFilter" := default [] (activeStatusFilter s)]>
      (<[js "archive_activeGenreFilter" := default [] (activeGenreFilter s)]>
       (<[js "archive_activeFilter" := default [] (activeFilter s)]>
        (<[KEY_VIEW := viewName (currentView sh)]>
         (<[KEY_CONSOLE := if truthyId (currentConsoleId s)
                           then decimal (default 0 (currentConsoleId s)) else []]>
          (localStorage sh))))))) sh.

(** The object [loadPageState] returns. *)
Inductive SavedState :=
| SavedConsole (consoleId : ParsedInt)
| SavedHomepage.

Definition loadPageState (large : Z -> ParsedInt) (sh : Shell) : SavedState :=
  let savedView := localStorage sh !! KEY_VIEW in
  let savedConsoleId := localStorage sh !! KEY_CONSOLE in
  if bool_decide (savedView = Some (js "console")) && truthy savedConsoleId then
    SavedConsole (parseInt large (default [] savedConsoleId))
  else SavedHomepage.

(** *** [parseInt] reads what the conversion to a string writes *)

From Stdlib Require Import DecimalPos.

(** The value of a decimal numeral after the digits read so far. *)
Fixpoint readUint (d : Decimal.uint) (acc : N) : N :=
  match d with
  | Decimal.Nil => acc
  | Decimal.D0 d => readUint d (acc * 10)
  | Decimal.D1 d => readUint d (acc * 10 + 1)
  | Decimal.D2 d => readUint d (acc * 10 + 2)
  | Decimal.D3 d => readUint d (acc * 10 + 3)
  | Decimal.D4 d => readUint d (acc * 10 + 4)
  | Decimal.D5 d => readUint d (acc * 10 + 5)
  | Decimal.D6 d => readUint d (acc * 10 + 6)
  | Decimal.D7 d => readUint d (acc * 10 + 7)
  | Decimal.D8 d => readUint d (acc * 10 + 8)
  | Decimal.D9 d => readUint d (acc * 10 + 9)
  end%N.

Lemma readUint_pos (d : Decimal.uint) (a : positive) :
  readUint d (Npos a) = Npos (Pos.of_uint_acc d a).
Proof.
  revert a. induction d; intros a; cbn [readUint Pos.of_uint_acc]; [reflexivity|..];
    rewrite <- IHd; f_equal; lia.
Qed.

Lemma readUint_zero (d : Decimal.uint) : readUint d 0 = Pos.of_uint d.
Proof.
  induction d; cbn [readUint Pos.of_uint]; try exact IHd; try reflexivity;
    now rewrite <- readUint_pos.
Qed.

Lemma js_String (c : Ascii.ascii) (s : string) :
  js (String c s) = Ascii.N_of_ascii c :: js s.
Proof. reflexivity. Qed.

Lemma parseDigits_step (k : N) (s : jsstring) (acc : option N) :
  (k <? 10)%N = true ->
  parseDigits 10 acc ((48 + k)%N :: s) = parseDigits 10 (Some (default 0 acc * 10 + k)%N) s.
Proof.
  intros Hk. cbn [parseDigits]. unfold digitValue.
  assert (Hlow : (48 <=? 48 + k)%N = true) by (apply N.leb_le; lia).
  assert (Hhigh : (48 + k <=? 57)%N = true) by (apply N.leb_le; apply N.ltb_lt in Hk; lia).
  rewrite Hlow, Hhigh. cbn [andb].
  replace (48 + k - 48)%N with k by lia. now rewrite Hk.
Qed.

Lemma parseDigits_uint (d : Decimal.uint) (acc : option N) :
  d <> Decimal.Nil \/ acc <> None ->
  parseDigits 10 acc (js (NilEmpty.string_of_uint d)) = Some (readUint d (default 0%N acc)).
Proof.
  revert acc. induction d; intros acc Hd; cbn [NilEmpty.string_of_uint readUint];
    [destruct Hd as [Hd|Hd]; [contradiction|]; now destruct acc|..];
    rewrite js_String.
  - rewrite (parseDigits_step 0), IHd by (reflexivity || (right; discriminate)).
    cbn [default]. now rewrite N.add_0_r.
  - now rewrite (parseDigits_step 1), IHd by (reflexivity || (right; discriminate)).
  - now rewrite (parseDigits_step 2), IHd by (reflexivity || (right; discriminate)).
  - now rewrite (parseDigits_step 3), IHd by (reflexivity || (right; discriminate)).
  - now rewrite (parseDigits_step 4), IHd by (reflexivity || (right; discriminate)).
  - now rewrite (parseDigits_step 5), IHd by (reflexivity || (right; discriminate)).
  - now rewrite (parseDigits_step 6), IHd by (reflexivity || (right; discriminate)).
  - now rewrite (parseDigits_step 7), IHd by (reflexivity || (right; discriminate)).
  - now rewrite (parseDigits_step 8), IHd by (reflexivity || (right; discriminate)).
  - now rewrite (parseDigits_step 9), IHd by (reflexivity || (right; discriminate)).
Qed.

(** The sign and the prefix of the radix leave a decimal numeral alone. *)
Lemma mathInt_uint (d : Decimal.uint) :
  d <> Decimal.Nil ->
  mathInt (js (NilEmpty.string_of_uint d)) =
    Z.of_N <$> parseDigits 10 None (js (NilEmpty.string_of_uint d)) /\
  mathInt (45%N :: js (NilEmpty.string_of_uint d)) =
    (fun n => - Z.of_N n) <$> parseDigits 10 None (js (NilEmpty.string_of_uint d)).
Proof.
  intros Hd. destruct d as [|d|d|d|d|d|d|d|d|d|d]; [contradiction|..];
    try (split; reflexivity).
  destruct d; split; reflexivity.
Qed.

Lemma mathInt_decimal (z : Z) : mathInt (decimal z) = Some z.
Proof.
  destruct z as [|p|p]; [reflexivity|..]; unfold decimal;
    cbn [Z.to_int NilZero.string_of_int];
    pose proof (Unsigned.to_uint_nonnil p) as Hnil;
    pose proof (DecimalPos.Unsigned.of_to p) as Hp;
    destruct (mathInt_uint (Pos.to_uint p) Hnil) as [Hpos Hneg];
    replace (NilZero.string_of_uint (Pos.to_uint p))
      with (NilEmpty.string_of_uint (Pos.to_uint p))
      by (destruct (Pos.to_uint p); [contradiction|reflexivity..]).
  - rewrite Hpos, parseDigits_uint by now left. cbn [fmap option_fmap option_map default].
    now rewrite readUint_zero, Hp.
  - rewrite js_String. change (Ascii.N_of_ascii _) with 45%N.
    rewrite Hneg, parseDigits_uint by now left. cbn [fmap option_fmap option_map default].
    now rewrite readUint_zero, Hp.
Qed.

(** A number a double holds exactly is read back from its numeral. *)
Lemma parseInt_decimal (large : Z -> ParsedInt) (z : Z) :
  Z.abs z <= 2 ^ 53 -> parseInt large (decimal z) = Finite z.
Proof.
  intros Hsafe. unfold parseInt. rewrite mathInt_decimal.
  destruct (Z.leb_spec (Z.abs z) (2 ^ 53)); [reflexivity|lia].
Qed.

(* ===================================================================== *)
(** ** Views, consoles and the search *)
(* ===================================================================== *)

(** [encodeURIComponent(s)] throws for a string with a lone surrogate. *)
Fixpoint isWellFormed (s : jsstring) : bool :=
  match s with
  | [] => true
  | c :: s' =>
      if (55296 <=? c)%N && (c <=? 56319)%N then
        match s' with
        | d :: s'' => (56320 <=? d)%N && (d <=? 57343)%N && isWellFormed s''
        | [] => false
        end
      else if (56320 <=? c)%N && (c <=? 57343)%N then false
      else isWellFormed s'
  end.

(** [apiCall] for an endpoint of [ShellEndpoint]: the state it leaves. It
    returns the body of a [Fulfilled] response and throws for the others,
    which the callers below read off the response. *)
Definition shellCall {A} (endpoint : ShellEndpoint) (method : Method) (r : Response A)
    (sh : Shell) : Shell :=
  let sh := onController (setLoading true) sh in
  let sh :=
    set_shellRequests
      (shellRequests sh ++ [{| sreq_endpoint := endpoint; sreq_method := method |}]) sh in
  let sh :=
    match r with
    | Fulfilled _ => sh
    | _ => onController (showToast (js "Error: " ++ errorMessage r) ToastError) sh
    end in
  onController (setLoading false) sh.

Definition showConsoleView (sh : Shell) : Shell := set_currentView ConsoleView sh.

(** [loadRecentlyViewed]: fills a strip of the homepage, which is not part
    of the state; a failure is only logged to the console. *)
Definition loadRecentlyViewed (rViewed : Response (list Game)) (sh : Shell) : Shell :=
  shellCall RecentlyViewed GET rViewed sh.

(** [renderHomepage()]. The three loads are started in this order and not
    awaited; here each one finishes before the next one starts. *)
Definition renderHomepage (rArchive : Response Stats) (rViewed rRecent : Response (list Game))
    (sh : Shell) : Shell :=
  let sh := set_currentView Homepage sh in
  let sh := onController (exec (loadStats rArchive)) sh in
  let sh := loadRecentlyViewed rViewed sh in
  onController (exec (loadLastAdded rRecent)) sh.

(** [goToHomepage()]. *)
Definition goToHomepage (rArchive : Response Stats) (rViewed rRecent : Response (list Game))
    (sh : Shell) : Shell :=
  let sh :=
    onController
      (fun s =>
         set_currentPage 1
           (set_consoleStats None
              (set_statusFilteredGames []
                 (set_activeStatusFilter None
                    (set_activeGenreFilter None
                       (set_activeFilter None (set_currentConsoleId None s))))))) sh in
  let sh :=
    set_localStorage
      (<[KEY_CONSOLE := []]> (<[KEY_VIEW := js "homepage"]> (localStorage sh))) sh in
  renderHomepage rArchive rViewed rRecent sh.

Section Views.
Variable localeCompare : jsstring -> jsstring -> Z.
Variable toUpperCase : jsstring -> jsstring.
(** What [parseInt] returns for an integer beyond 2^53 in size. *)
Variable large : Z -> ParsedInt.

Local Abbreviation render := (renderGamesForCurrentConsole localeCompare toUpperCase).
Local Abbreviation loadGames := (loadGamesForConsole localeCompare toUpperCase).

(** [selectConsole(id)]. *)
Definition selectConsole (id : Z) (rGames : Response (list Game)) (rStats : Response Stats)
    (sh : Shell) : Shell :=
  let sh :=
    onController
      (fun s =>
         set_currentPage 1
           (set_statusFilteredGames []
              (set_activeStatusFilter None
                 (set_activeGenreFilter None
                    (set_activeFilter None (set_currentConsoleId (Some id) s)))))) sh in
  let sh := showConsoleView sh in
  let sh := savePageState sh in
  let sh := onController (exec (loadGames (Some id) rGames rStats)) sh in
  extractGenres sh.

(** [loadInitialData()]: [rConsoles] answers the request for the consoles,
    the other responses answer what follows. A saved id that is [NaN] or 0
    is falsy; an infinite one is the id of no console. *)
Definition loadInitialData (rConsoles : Response (list Console))
    (rGames : Response (list Game)) (rStats rArchive : Response Stats)
    (rViewed rRecent : Response (list Game)) (sh : Shell) : Shell :=
  let sh := shellCall Consoles GET rConsoles sh in
  let sh := set_consoles (match rConsoles with Fulfilled cs => cs | _ => [] end) sh in
  match loadPageState large sh with
  | SavedConsole (Finite consoleId) =>
      if negb (consoleId =? 0)
         && bool_decide (is_Some (List.find (fun c => console_id c =? consoleId) (consoles sh)))
      then selectConsole consoleId rGames rStats sh
      else renderHomepage rArchive rViewed rRecent sh
  | _ => renderHomepage rArchive rViewed rRecent sh
  end.

(** [performGlobalSearch(query)]; [uriError] is the message of the
    [URIError] of [encodeURIComponent], which the host words. *)
Definition performGlobalSearch (uriError : jsstring) (query : jsstring)
    (rSearch : Response (list Game)) (sh : Shell) : Shell :=
  if negb (truthy (Some (trim query))) then sh
  else
    let sh := onController (setLoading true) sh in
    let sh :=
      if negb (isWellFormed query) then
        onController (showToast (js "Search failed: " ++ uriError) ToastError) sh
      else
        let sh := shellCall (GamesSearch query) GET rSearch sh in
        match rSearch with
        | Fulfilled results =>
            set_searchResultsList results
              (set_currentView SearchView (set_globalSearchQuery query sh))
        | _ =>
            onController
              (showToast (js "Search failed: " ++ errorMessage rSearch) ToastError) sh
        end in
    onController (setLoading false) sh.

(** [clearSearch()]; the reload of the console's games is not awaited. *)
Definition clearSearch (rGames : Response (list Game)) (rStats rArchive : Response Stats)
    (rViewed rRecent : Response (list Game)) (sh : Shell) : Shell :=
  let sh := set_globalSearchQuery [] sh in
  if truthyId (currentConsoleId (controller sh)) then
    let sh := showConsoleView sh in
    onController (exec (loadGames (currentConsoleId (controller sh)) rGames rStats)) sh
  else renderHomepage rArchive rViewed rRecent sh.

(** [navigateToGame(gameId, consoleName)]. *)
Definition navigateToGame (gameId : Z) (consoleName : jsstring)
    (rGames : Response (list Game)) (rStats : Response Stats) (rGame : Response Game)
    (rView : Response unit) (rStatus : Response GameStatus) (sh : Shell) : Shell :=
  match List.find (fun c => bool_decide (console_name c = consoleName)) (consoles sh) with
  | None => onController (showToast (js "Console not found") ToastError) sh
  | Some c =>
      let sh := selectConsole (console_id c) rGames rStats sh in
      onController
        (exec (openGameDetail localeCompare toUpperCase gameId rGame rView rStatus)) sh
  end.

(** [deleteConsole(consoleId, event)]; [confirmed] is the answer to the
    dialog. *)
Definition deleteConsole (consoleId : Z) (confirmed : bool) (rDelete : Response unit)
    (rArchive : Response Stats) (sh : Shell) : Shell :=
  match List.find (fun c => console_id c =? consoleId) (consoles sh) with
  | None => sh
  | Some _ =>
      if negb confirmed then sh
      else
        let sh := shellCall (ConsoleById consoleId) DELETE rDelete sh in
        match rDelete with
        | Fulfilled _ =>
            let sh :=
              onController
                (showToast (js "Console and all games deleted successfully") ToastSuccess)
                sh in
            let sh :=
              set_consoles
                (List.filter (fun c => negb (console_id c =? consoleId)) (consoles sh)) sh in
            let sh :=
              onController
                (fun s => set_gamesByConsole (delete (Some consoleId) (gamesByConsole s)) s)
                sh in
            let sh :=
              onController
                (fun s =>
                   if bool_decide (currentConsoleId s = Some consoleId)
                   then set_currentConsoleId None s else s) sh in
            let sh := onController render sh in
            onController (exec (loadStats rArchive)) sh
        | _ => sh
        end
  end.

(** *** What the loads change *)

Definition bodyOr {A} (r : Response A) (fallback : A) : A :=
  match r with
  | Fulfilled body => body
  | _ => fallback
  end.

(** The notices after [apiCall] has come back with [r]. *)
Definition noticeOf {A} (r : Response A) (notices : list Toast) : list Toast :=
  match r with
  | Fulfilled _ => notices
  | _ => notices ++ [apiErrorToast r]
  end.

(** The load of a console's games is a render of the state with the new
    cache and the new counts; beside them, only the notices, the log of
    requests and the busy flag have changed. *)
Lemma loadGamesForConsole_render (consoleId : option Z) (rGames : Response (list Game))
    (rStats : Response Stats) (s : State) :
  exec (loadGames consoleId rGames rStats) s =
  render
    (set_toasts (noticeOf rStats (noticeOf rGames (toasts s)))
       (set_requests
          ((requests s ++ [{| req_endpoint := ConsoleGames consoleId; req_method := GET |}])
           ++ [{| req_endpoint := ConsoleStats consoleId; req_method := GET |}])
          (set_isLoading false
             (set_consoleStats (match rStats with Fulfilled stats => Some stats | _ => None end)
                (set_gamesByConsole (<[consoleId := bodyOr rGames []]> (gamesByConsole s))
                   s))))).
Proof. destruct s, rGames, rStats; reflexivity. Qed.

Lemma extractGenres_frame (sh : Shell) : exists g, extractGenres sh = set_genres g sh.
Proof. unfold extractGenres. destruct (negb _); now eexists. Qed.

Lemma genres_extractGenres (sh : Shell) (tag : jsstring) :
  truthyId (currentConsoleId (controller sh)) = true ->
  tag ∈ genres (extractGenres sh) <->
  tag <> [] /\
  exists game, game ∈ cachedGames (controller sh) /\ matchesGenre tag game = true.
Proof.
  intros Hconsole. unfold extractGenres. rewrite Hconsole. cbn [negb genres set_genres].
  rewrite (sortBy_Permutation ordinalCompare), genreSet_elem.
  split; [intros [H|H]; [now apply elem_of_nil in H|exact H]|now right].
Qed.

(** X19. Picking a console starts from a clean slate: whatever was
    filtered or paged before, the console is selected in the console view
    without any filter, on page 1; the cache of the console is what the
    server sent (nothing when the request failed), the container shows the
    first page of all these games in the order of their titles, and the
    sidebar lists the genres of exactly these games. *)
Theorem selectConsole_clean_slate (id : Z) (rGames : Response (list Game))
    (rStats : Response Stats) (sh : Shell) :
  id <> 0 ->
  let sh' := selectConsole id rGames rStats sh in
  let games := bodyOr rGames [] in
  currentView sh' = ConsoleView /\
  currentConsoleId (controller sh') = Some id /\
  activeFilter (controller sh') = None /\
  activeGenreFilter (controller sh') = None /\
  activeStatusFilter (controller sh') = None /\
  currentPage (controller sh') = 1 /\
  cachedGames (controller sh') = games /\
  gameList (controller sh') = viewOf (sortBy (byTitle localeCompare) games) 1 /\
  (forall tag,
     tag ∈ genres sh' <->
     tag <> [] /\ exists game, game ∈ games /\ matchesGenre tag game = true).
Proof.
  intros Hid. cbn zeta. unfold selectConsole. cbn zeta.
  set (reset := fun s : State => _).
  set (loaded := onController _ (savePageState (showConsoleView (onController reset sh)))).
  assert (Hcontroller :
    controller loaded =
    exec (loadGames (Some id) rGames rStats) (reset (controller sh))) by reflexivity.
  rewrite loadGamesForConsole_render in Hcontroller.
  set (before := set_toasts _ _) in Hcontroller.
  assert (Hworking : workingGames localeCompare toUpperCase before =
                     Some (sortBy (byTitle localeCompare) (bodyOr rGames []))).
  { rewrite workingGames_unfiltered by reflexivity.
    assert (Hselected : truthyId (currentConsoleId before) = true)
      by (cbn; now apply negb_true_iff, Z.eqb_neq).
    rewrite Hselected. unfold cachedGames, before, reset. cbn. now rewrite lookup_insert_eq. }
  assert (Hconsole : currentConsoleId (controller loaded) = Some id).
  { rewrite Hcontroller. now rewrite render_preserves by reflexivity. }
  assert (Hcache : cachedGames (controller loaded) = bodyOr rGames []).
  { unfold cachedGames. rewrite Hconsole, Hcontroller.
    rewrite (render_preserves _ _ gamesByConsole) by reflexivity.
    cbn. now rewrite lookup_insert_eq. }
  assert (Hview : currentView loaded = ConsoleView) by reflexivity.
  assert (Htags : forall tag,
    tag ∈ genres (extractGenres loaded) <->
    tag <> [] /\ exists game, game ∈ bodyOr rGames [] /\ matchesGenre tag game = true).
  { intros tag. rewrite genres_extractGenres, Hcache; [reflexivity|].
    rewrite Hconsole. cbn. now apply negb_true_iff, Z.eqb_neq. }
  destruct (extractGenres_frame loaded) as (g & Hframe).
  rewrite Hframe in *. cbn [controller currentView set_genres genres] in *.
  rewrite Hcache, Hconsole. rewrite Hcontroller.
  rewrite gameList_render, currentPage_render, Hworking.
  rewrite !(render_preserves _ _ _ before) by reflexivity.
  change (currentPage before) with 1. rewrite clampedPage_one.
  do 8 (split; [reflexivity || exact Hview|]). exact Htags.
Qed.

(** *** The state kept across reloads *)

Lemma decimal_not_nil (z : Z) : decimal z <> [].
Proof.
  intros Hnil. pose proof (mathInt_decimal z) as Hparse. rewrite Hnil in Hparse.
  discriminate.
Qed.

Ltac other_key := intros Hkey; vm_compute in Hkey; discriminate Hkey.

(** What [loadPageState] reads is what [savePageState] wrote: the console,
    when the view is the console view and a console is selected, for an id
    that a double holds exactly. *)
Lemma loadPageState_savePageState (sh : Shell) :
  Z.abs (default 0 (currentConsoleId (controller sh))) <= 2 ^ 53 ->
  loadPageState large (savePageState sh) =
  match currentView sh with
  | ConsoleView =>
      if truthyId (currentConsoleId (controller sh))
      then SavedConsole (Finite (default 0 (currentConsoleId (controller sh))))
      else SavedHomepage
  | _ => SavedHomepage
  end.
Proof.
  intros Hsafe. unfold loadPageState, savePageState. cbn [localStorage set_localStorage].
  rewrite !(lookup_insert_ne _ _ KEY_VIEW) by other_key. rewrite lookup_insert_eq.
  rewrite !(lookup_insert_ne _ _ KEY_CONSOLE) by other_key. rewrite lookup_insert_eq.
  destruct (currentView sh); try reflexivity.
  rewrite bool_decide_eq_true_2 by reflexivity. cbn [andb].
  destruct (currentConsoleId (controller sh)) as [id|]; [|reflexivity].
  cbn [truthyId default] in *. destruct (negb (id =? 0)); cbn [truthy default]; [|reflexivity].
  unfold Datatypes.id in *.
  pose proof (decimal_not_nil id) as Hnil. rewrite parseInt_decimal by exact Hsafe.
  destruct (decimal id); [contradiction|reflexivity].
Qed.

Lemma loadPageState_ext (sh sh' : Shell) :
  localStorage sh = localStorage sh' -> loadPageState large sh = loadPageState large sh'.
Proof. unfold loadPageState. now intros ->. Qed.

Lemma renderHomepage_frame (rArchive : Response Stats) (rViewed rRecent : Response (list Game))
    (sh : Shell) :
  renderHomepage rArchive rViewed rRecent sh =
  set_shellRequests
    (shellRequests sh ++ [{| sreq_endpoint := RecentlyViewed; sreq_method := GET |}])
    (set_currentView Homepage
       (onController
          (fun s =>
             set_toasts (noticeOf rRecent (noticeOf rViewed (noticeOf rArchive (toasts s))))
               (set_requests
                  ((requests s ++ [{| req_endpoint := ArchiveStats; req_method := GET |}])
                   ++ [{| req_endpoint := RecentlyAdded; req_method := GET |}])
                  (set_isLoading false
                     (set_archiveStats (bodyOr rArchive (archiveStats s)) s))))
          sh)).
Proof. destruct sh as [[] ? ? ? ? ? ? ? ?], rArchive, rViewed, rRecent; reflexivity. Qed.

Lemma shellCall_frame {A} (endpoint : ShellEndpoint) (method : Method) (r : Response A)
    (sh : Shell) :
  shellCall endpoint method r sh =
  set_shellRequests
    (shellRequests sh ++ [{| sreq_endpoint := endpoint; sreq_method := method |}])
    (onController (fun s => set_toasts (noticeOf r (toasts s)) (set_isLoading false s)) sh).
Proof. destruct sh as [[] ? ? ? ? ? ? ? ?], r; reflexivity. Qed.

(** Whatever the responses, [selectConsole] ends in the console view with
    the console selected. *)
Lemma selectConsole_selected (id : Z) (rGames : Response (list Game))
    (rStats : Response Stats) (sh : Shell) :
  currentView (selectConsole id rGames rStats sh) = ConsoleView /\
  currentConsoleId (controller (selectConsole id rGames rStats sh)) = Some id.
Proof.
  unfold selectConsole. cbn zeta.
  match goal with |- context [extractGenres ?x] =>
    destruct (extractGenres_frame x) as (g & ->) end.
  split; [reflexivity|].
  cbn [controller set_genres onController set_controller].
  rewrite loadGamesForConsole_render. now rewrite render_preserves by reflexivity.
Qed.

(** The storage [selectConsole] leaves says which console it selected, for
    an id that a double holds exactly. *)
Lemma selectConsole_saved (id : Z) (rGames : Response (list Game))
    (rStats : Response Stats) (sh : Shell) :
  Z.abs id <= 2 ^ 53 ->
  loadPageState large (selectConsole id rGames rStats sh) =
  if negb (id =? 0) then SavedConsole (Finite id) else SavedHomepage.
Proof.
  intros Hsafe. unfold selectConsole. cbn zeta.
  match goal with |- context [extractGenres ?x] =>
    destruct (extractGenres_frame x) as (g & ->) end.
  match goal with |- loadPageState _ (set_genres _ (onController _ ?saved)) = _ =>
    rewrite (loadPageState_ext _ saved) by reflexivity end.
  rewrite loadPageState_savePageState by exact Hsafe. reflexivity.
Qed.

Lemma find_console_id (id : Z) (cs : list Console) :
  is_Some (List.find (fun c => console_id c =? id) cs) <-> id ∈ console_id <$> cs.
Proof.
  induction cs as [|c cs IH]; cbn [List.find fmap list_fmap].
  - split; [intros [x Hx]; discriminate|intros Hin; now apply elem_of_nil in Hin].
  - rewrite elem_of_cons. destruct (Z.eqb_spec (console_id c) id) as [Heq|Hne].
    + split; [now left|now eexists].
    + rewrite IH. split; [now right|]. intros [Heq|Hin]; [congruence|exact Hin].
Qed.

(** X20. The selected console survives a reload, for an id that is not 0
    and that a double holds exactly (at most 2^53 in size): when the page
    starts with the storage a [selectConsole] left, it selects that console
    again if the server still lists it, and shows the homepage, with no
    console selected by the start, if the server does not list it or the
    list cannot be loaded. It starts on the homepage as well with the
    storage a [goToHomepage] left. *)
Theorem reload_restores_the_console (id : Z) (sh fresh : Shell)
    (rGames rGames' rViewed rViewed' rRecent rRecent' : Response (list Game))
    (rStats rStats' rArchive rArchive' : Response Stats)
    (rConsoles : Response (list Console)) :
  id <> 0 ->
  Z.abs id <= 2 ^ 53 ->
  let reloaded := loadInitialData rConsoles rGames' rStats' rArchive' rViewed' rRecent' fresh in
  (localStorage fresh = localStorage (selectConsole id rGames rStats sh) ->
   (id ∈ console_id <$> bodyOr rConsoles [] ->
    currentView reloaded = ConsoleView /\
    currentConsoleId (controller reloaded) = Some id) /\
   (id ∉ console_id <$> bodyOr rConsoles [] ->
    currentView reloaded = Homepage /\
    currentConsoleId (controller reloaded) = currentConsoleId (controller fresh))) /\
  (localStorage fresh = localStorage (goToHomepage rArchive rViewed rRecent sh) ->
   currentView reloaded = Homepage /\
   currentConsoleId (controller reloaded) = currentConsoleId (controller fresh)).
Proof.
  intros Hid Hsafe. cbn zeta. unfold loadInitialData. cbn zeta.
  rewrite shellCall_frame.
  set (started := set_consoles _ _).
  assert (Hstorage : localStorage started = localStorage fresh) by reflexivity.
  assert (Hconsoles : consoles started = bodyOr rConsoles []) by reflexivity.
  assert (Hcurrent : currentConsoleId (controller started) = currentConsoleId (controller fresh))
    by reflexivity.
  assert (Hhome : forall rA rV rR,
    currentView (renderHomepage rA rV rR started) = Homepage /\
    currentConsoleId (controller (renderHomepage rA rV rR started)) =
    currentConsoleId (controller fresh)).
  { intros rA rV rR. rewrite renderHomepage_frame. now split. }
  clearbody started. split.
  - intros Hsaved.
    assert (Hload : loadPageState large started = SavedConsole (Finite id)).
    { rewrite (loadPageState_ext started (selectConsole id rGames rStats sh))
        by congruence.
      rewrite selectConsole_saved by exact Hsafe.
      apply Z.eqb_neq in Hid. now rewrite Hid. }
    rewrite Hload. apply Z.eqb_neq in Hid. rewrite Hid. cbn [negb andb].
    rewrite Hconsoles. split; intros Hlisted.
    + rewrite bool_decide_eq_true_2 by now apply find_console_id.
      destruct (selectConsole_selected id rGames' rStats' started) as (Hv & Hc).
      now split.
    + rewrite bool_decide_eq_false_2 by now rewrite find_console_id. apply Hhome.
  - intros Hsaved.
    assert (Hload : loadPageState large started = SavedHomepage).
    { unfold loadPageState. rewrite Hstorage, Hsaved. unfold goToHomepage. cbn zeta.
      rewrite renderHomepage_frame.
      cbn [localStorage set_shellRequests set_currentView onController set_controller
           set_localStorage].
      rewrite (lookup_insert_ne _ _ KEY_VIEW) by other_key. rewrite lookup_insert_eq.
      reflexivity. }
    rewrite Hload. apply Hhome.
Qed.

(** *** Deleting a console *)

Lemma loadStats_frame (rArchive : Response Stats) (s : State) :
  exec (loadStats rArchive) s =
  set_toasts (noticeOf rArchive (toasts s))
    (set_requests (requests s ++ [{| req_endpoint := ArchiveStats; req_method := GET |}])
       (set_isLoading false (set_archiveStats (bodyOr rArchive (archiveStats s)) s))).
Proof. destruct s, rArchive; reflexivity. Qed.

Lemma find_listed (consoleId : Z) (cs : list Console) :
  consoleId ∈ console_id <$> cs ->
  exists c, List.find (fun c => console_id c =? consoleId) cs = Some c.
Proof. intros Hin. now apply find_console_id in Hin as [c Hc]; exists c. Qed.

(** X21. Deleting a console the list has, once confirmed and accepted by
    the server, removes the console from the list and its games from the
    cache together, and touches no other console and no other cache; when it
    was the selected console, no console is selected afterwards, and the
    container asks to select one unless a status subset is on display. When
    the server refuses, the list, the cache, the selection and the container
    are as before, and there is one error notice. *)
Theorem deleteConsole_cascade (consoleId : Z) (rDelete : Response unit)
    (rArchive : Response Stats) (sh : Shell) :
  consoleId ∈ console_id <$> consoles sh ->
  let s := controller sh in
  let sh' := deleteConsole consoleId true rDelete rArchive sh in
  let s' := controller sh' in
  match rDelete with
  | Fulfilled _ =>
      (forall c, c ∈ consoles sh' <-> c ∈ consoles sh /\ console_id c <> consoleId) /\
      gamesByConsole s' !! Some consoleId = None /\
      (forall other, other <> Some consoleId ->
                     gamesByConsole s' !! other = gamesByConsole s !! other) /\
      currentConsoleId s' =
        (if bool_decide (currentConsoleId s = Some consoleId) then None
         else currentConsoleId s) /\
      (currentConsoleId s = Some consoleId ->
       truthy (activeStatusFilter s) && (0 <? Z.of_nat (length (statusFilteredGames s))) = false ->
       gameList s' = SelectConsoleNotice)
  | _ =>
      consoles sh' = consoles sh /\
      gamesByConsole s' = gamesByConsole s /\
      currentConsoleId s' = currentConsoleId s /\
      gameList s' = gameList s /\
      toasts s' = toasts s ++ [apiErrorToast rDelete]
  end.
Proof.
  intros Hlisted. cbn zeta. unfold deleteConsole.
  destruct (find_listed consoleId (consoles sh) Hlisted) as (c & ->). cbn [negb].
  rewrite shellCall_frame.
  destruct rDelete as [[]|status body|message]; [|now repeat split..].
  cbn zeta.
  cbn [controller consoles onController set_controller set_consoles set_shellRequests].
  rewrite loadStats_frame.
  cbn [gamesByConsole currentConsoleId gameList set_toasts set_requests set_isLoading
       set_archiveStats].
  rewrite !render_preserves by reflexivity. rewrite gameList_render.
  set (told := showToast _ _ _).
  set (emptied := set_gamesByConsole _ told).
  assert (Hcurrent : currentConsoleId emptied = currentConsoleId (controller sh)) by reflexivity.
  rewrite Hcurrent.
  split; [|split; [|split; [|split]]].
  - intros x. rewrite !list_elem_of_In, filter_In, negb_true_iff, Z.eqb_neq. reflexivity.
  - destruct (bool_decide _); cbn; apply lookup_delete_eq.
  - intros other Hother. destruct (bool_decide _); cbn; now apply lookup_delete_ne.
  - now destruct (bool_decide _).
  - intros Hselected Hstatus. rewrite bool_decide_eq_true_2 by exact Hselected.
    unfold workingGames, baseGames.
    change (activeStatusFilter (set_currentConsoleId None emptied))
      with (activeStatusFilter (controller sh)).
    change (statusFilteredGames (set_currentConsoleId None emptied))
      with (statusFilteredGames (controller sh)).
    rewrite Hstatus. reflexivity.
Qed.

(** *** The search *)

Definition searchFailedToast {A} (r : Response A) : Toast :=
  {| toast_message := js "Search failed: " ++ errorMessage r; toast_type := ToastError |}.

Lemma performGlobalSearch_blank (uriError query : jsstring) (rSearch : Response (list Game))
    (sh : Shell) :
  trim query = [] -> performGlobalSearch uriError query rSearch sh = sh.
Proof. intros Hblank. unfold performGlobalSearch. now rewrite Hblank. Qed.

Lemma performGlobalSearch_malformed (uriError query : jsstring)
    (rSearch : Response (list Game)) (sh : Shell) :
  trim query <> [] -> isWellFormed query = false ->
  performGlobalSearch uriError query rSearch sh =
  onController
    (fun s =>
       set_toasts
         (toasts s ++ [{| toast_message := js "Search failed: " ++ uriError;
                          toast_type := ToastError |}])
         (set_isLoading false s)) sh.
Proof.
  intros Hquery Hformed. unfold performGlobalSearch. rewrite Hformed.
  destruct (trim query) as [|c t]; [contradiction|]. cbn [truthy negb].
  destruct sh as [[] ? ? ? ? ? ? ? ?]; reflexivity.
Qed.

Lemma performGlobalSearch_sent (uriError query : jsstring) (rSearch : Response (list Game))
    (sh : Shell) :
  trim query <> [] -> isWellFormed query = true ->
  performGlobalSearch uriError query rSearch sh =
  match rSearch with
  | Fulfilled results =>
      set_searchResultsList results
        (set_currentView SearchView
           (set_globalSearchQuery query
              (set_shellRequests
                 (shellRequests sh
                  ++ [{| sreq_endpoint := GamesSearch query; sreq_method := GET |}])
                 (onController (set_isLoading false) sh))))
  | _ =>
      set_shellRequests
        (shellRequests sh ++ [{| sreq_endpoint := GamesSearch query; sreq_method := GET |}])
        (onController
           (fun s =>
              set_toasts ((toasts s ++ [apiErrorToast rSearch]) ++ [searchFailedToast rSearch])
                (set_isLoading false s)) sh)
  end.
Proof.
  intros Hquery Hformed. unfold performGlobalSearch. rewrite Hformed.
  destruct (trim query) as [|c t]; [contradiction|]. cbn [truthy negb].
  destruct sh as [[] ? ? ? ? ? ? ? ?], rSearch; reflexivity.
Qed.

(** A search changes the notices and the busy flag of the controller, and
    nothing else of it. *)
Lemma performGlobalSearch_controller (uriError query : jsstring)
    (rSearch : Response (list Game)) (sh : Shell) :
  exists notices loading,
    controller (performGlobalSearch uriError query rSearch sh) =
    set_toasts notices (set_isLoading loading (controller sh)).
Proof.
  destruct (trim query) as [|c t] eqn:Hquery.
  - rewrite performGlobalSearch_blank by exact Hquery.
    exists (toasts (controller sh)), (isLoading (controller sh)). now destruct (controller sh).
  - destruct (isWellFormed query) eqn:Hformed.
    + rewrite performGlobalSearch_sent by (rewrite ?Hquery; (discriminate || exact Hformed)).
      destruct rSearch; eexists _, _; reflexivity.
    + rewrite performGlobalSearch_malformed by (rewrite ?Hquery; (discriminate || exact Hformed)).
      eexists _, _; reflexivity.
Qed.

(** X22. A search suspends the console and does not touch it: whatever
    the query and the response, the controller's state (selection, filters,
    page, cache, container) is as before, up to the notices and the busy
    flag. A blank query does nothing at all and sends nothing. Any other
    query that can be encoded sends one request; its results are shown in
    the search view, and a failure leaves the view where it was and shows
    two error notices, the one of the request wrapper and the one of the
    search. A query that cannot be encoded sends nothing and shows one
    notice. *)
Theorem search_suspends_the_console (uriError query : jsstring)
    (rSearch : Response (list Game)) (sh : Shell) :
  let searched := performGlobalSearch uriError query rSearch sh in
  (exists notices loading,
     controller searched = set_toasts notices (set_isLoading loading (controller sh))) /\
  (trim query = [] -> searched = sh) /\
  (trim query <> [] -> isWellFormed query = true ->
   shellRequests searched =
     shellRequests sh ++ [{| sreq_endpoint := GamesSearch query; sreq_method := GET |}] /\
   match rSearch with
   | Fulfilled results =>
       currentView searched = SearchView /\
       globalSearchQuery searched = query /\
       searchResultsList searched = results /\
       toasts (controller searched) = toasts (controller sh)
   | _ =>
       currentView searched = currentView sh /\
       globalSearchQuery searched = globalSearchQuery sh /\
       searchResultsList searched = searchResultsList sh /\
       toasts (controller searched) =
         toasts (controller sh) ++ [apiErrorToast rSearch; searchFailedToast rSearch]
   end) /\
  (trim query <> [] -> isWellFormed query = false ->
   shellRequests searched = shellRequests sh /\
   currentView searched = currentView sh /\
   toasts (controller searched) =
     toasts (controller sh) ++ [{| toast_message := js "Search failed: " ++ uriError;
                                   toast_type := ToastError |}]).
Proof.
  cbn zeta. split; [apply performGlobalSearch_controller|].
  split; [apply performGlobalSearch_blank|]. split.
  - intros Hquery Hformed. rewrite performGlobalSearch_sent by assumption.
    destruct rSearch; cbn [controller toasts onController set_controller set_shellRequests
                           set_toasts set_searchResultsList set_currentView
                           set_globalSearchQuery];
      rewrite <- ?app_assoc; now repeat split.
  - intros Hquery Hformed. rewrite performGlobalSearch_malformed by assumption.
    now repeat split.
Qed.

Lemma workingGames_ext (s1 s2 : State) :
  gamesByConsole s1 = gamesByConsole s2 ->
  currentConsoleId s1 = currentConsoleId s2 ->
  activeFilter s1 = activeFilter s2 ->
  activeGenreFilter s1 = activeGenreFilter s2 ->
  activeStatusFilter s1 = activeStatusFilter s2 ->
  statusFilteredGames s1 = statusFilteredGames s2 ->
  workingGames localeCompare toUpperCase s1 = workingGames localeCompare toUpperCase s2.
Proof.
  intros Hcache Hconsole Halpha Hgenre Hstatus Hsubset.
  unfold workingGames, baseGames, alphaFiltered, genreFiltered, cachedGames.
  now rewrite Hcache, Hconsole, Halpha, Hgenre, Hstatus, Hsubset.
Qed.

(** X23. Clearing the search gives the console back as it was left: the
    console view when a console is selected and the homepage otherwise, with
    the selection and the three filters of before the search. When the
    server sends the games the cache already has, the container and the page
    number are those of before the search as well. *)
Theorem clearSearch_restores_the_console (uriError query : jsstring)
    (rSearch rGames rViewed rRecent : Response (list Game))
    (rStats rArchive : Response Stats) (sh : Shell) :
  let s := controller sh in
  let back :=
    clearSearch rGames rStats rArchive rViewed rRecent
      (performGlobalSearch uriError query rSearch sh) in
  currentView back = (if truthyId (currentConsoleId s) then ConsoleView else Homepage) /\
  globalSearchQuery back = [] /\
  currentConsoleId (controller back) = currentConsoleId s /\
  activeFilter (controller back) = activeFilter s /\
  activeGenreFilter (controller back) = activeGenreFilter s /\
  activeStatusFilter (controller back) = activeStatusFilter s /\
  (forall games,
     truthyId (currentConsoleId s) = true ->
     gamesByConsole s !! currentConsoleId s = Some games ->
     rGames = Fulfilled games ->
     render s = s ->
     gameList (controller back) = gameList s /\
     currentPage (controller back) = currentPage s).
Proof.
  cbn zeta. unfold clearSearch. cbn zeta.
  cbn [controller set_globalSearchQuery showConsoleView set_currentView].
  destruct (performGlobalSearch_controller uriError query rSearch sh)
    as (notices & loading & Hsearched).
  set (searched := performGlobalSearch uriError query rSearch sh) in *. clearbody searched.
  assert (Hconsole : currentConsoleId (controller searched) = currentConsoleId (controller sh))
    by now rewrite Hsearched.
  rewrite Hconsole.
  destruct (truthyId (currentConsoleId (controller sh))) eqn:Hselected.
  - cbn [controller currentView globalSearchQuery onController set_controller].
    change (controller (showConsoleView (set_globalSearchQuery [] searched)))
      with (controller searched).
    rewrite loadGamesForConsole_render, Hsearched.
    rewrite !render_preserves by reflexivity.
    do 6 (split; [reflexivity|]).
    intros games _ Hcached -> Hrendered.
    rewrite gameList_render, currentPage_render.
    cbn [gamesByConsole set_toasts set_isLoading bodyOr]. rewrite insert_id by exact Hcached.
    match goal with |- context [workingGames _ _ ?x] =>
      rewrite (workingGames_ext x (controller sh)) by reflexivity;
      change (currentPage x) with (currentPage (controller sh)) end.
    rewrite <- gameList_render, <- currentPage_render, Hrendered. now split.
  - rewrite renderHomepage_frame.
    cbn [controller currentView globalSearchQuery onController set_controller
         set_shellRequests set_currentView].
    change (controller (set_globalSearchQuery [] searched)) with (controller searched).
    rewrite Hsearched. do 6 (split; [reflexivity|]). intros games Habsurd. discriminate.
Qed.

(** *** From a strip of the homepage to the game *)

Lemma selectConsole_controller (id : Z) (rGames : Response (list Game))
    (rStats : Response Stats) (sh : Shell) :
  exists loaded,
    controller (selectConsole id rGames rStats sh) = render loaded /\
    currentConsoleId loaded = Some id /\
    gamesByConsole loaded !! Some id = Some (bodyOr rGames []) /\
    activeFilter loaded = None /\ activeGenreFilter loaded = None.
Proof.
  unfold selectConsole. cbn zeta.
  match goal with |- context [extractGenres ?x] =>
    destruct (extractGenres_frame x) as (g & ->) end.
  cbn [controller set_genres onController set_controller].
  rewrite loadGamesForConsole_render. eexists. split; [reflexivity|].
  split; [reflexivity|]. split; [|now split].
  cbn [gamesByConsole set_toasts set_requests set_isLoading set_consoleStats
       set_gamesByConsole].
  apply lookup_insert_eq.
Qed.

Lemma openGameDetail_detail (s : State) (gameId : Z) (game : Game) (rView : Response unit)
    (rStatus : Response GameStatus) :
  let s' := exec (openGameDetail localeCompare toUpperCase gameId (Fulfilled game) rView rStatus) s in
  currentGameDetail s' = Some game /\ currentConsoleId s' = currentConsoleId s.
Proof.
  cbn zeta. unfold openGameDetail, recordGameView, loadGameStatus. run_calls.
  destruct rView, rStatus; cbn;
    rewrite ?renderGameDetail_preserves by reflexivity; split; reflexivity.
Qed.

Lemma find_name_None (name : jsstring) (cs : list Console) :
  List.find (fun c => bool_decide (console_name c = name)) cs = None <->
  name ∉ console_name <$> cs.
Proof.
  induction cs as [|c cs IH]; cbn [List.find fmap list_fmap].
  - split; [intros _ Hin; now apply elem_of_nil in Hin|reflexivity].
  - rewrite not_elem_of_cons. case_bool_decide as Hname.
    + split; [discriminate|]. intros [Hne _]. now symmetry in Hname.
    + rewrite IH. split; [intros Hrest; split; [congruence|exact Hrest]|now intros [_ Hrest]].
Qed.

(** X24. A game of a homepage strip opens inside its console. With no
    console of that name in the list, nothing happens but one error notice.
    Otherwise the first console of that name is selected, and when the game
    loads, the list the previous and next buttons walk is the whole console
    as the server just sent it, in the order of the titles, whatever was
    filtered before, with the cursor on the first game of the requested
    id. *)
Theorem navigateToGame_opens_in_its_console (gameId : Z) (consoleName : jsstring)
    (rGames : Response (list Game)) (rStats : Response Stats) (game : Game)
    (rView : Response unit) (rStatus : Response GameStatus) (sh : Shell) :
  let sh' := navigateToGame gameId consoleName rGames rStats (Fulfilled game) rView rStatus sh in
  let s' := controller sh' in
  (consoleName ∉ console_name <$> consoles sh ->
   sh' =
   onController
     (set_toasts (toasts (controller sh)
                  ++ [{| toast_message := js "Console not found"; toast_type := ToastError |}]))
     sh) /\
  (forall c,
     List.find (fun c => bool_decide (console_name c = consoleName)) (consoles sh) = Some c ->
     currentView sh' = ConsoleView /\
     currentConsoleId s' = Some (console_id c) /\
     currentGameDetail s' = Some game /\
     currentGamesList s' = sortBy (byTitle localeCompare) (bodyOr rGames []) /\
     currentGameIndex s' =
       findIndex (fun g => game_id g =? gameId)
         (sortBy (byTitle localeCompare) (bodyOr rGames []))).
Proof.
  cbn zeta. unfold navigateToGame. split.
  - intros Hname. apply find_name_None in Hname. now rewrite Hname.
  - intros c ->. cbn zeta.
    destruct (selectConsole_selected (console_id c) rGames rStats sh) as (Hview & _).
    destruct (selectConsole_controller (console_id c) rGames rStats sh)
      as (loaded & Hcontroller & Hconsole & Hcache & Halpha & Hgenre).
    set (selected := selectConsole (console_id c) rGames rStats sh) in *. clearbody selected.
    cbn [controller currentView onController set_controller].
    destruct (openGameDetail_detail (controller selected) gameId game rView rStatus)
      as (Hdetail & Hsame).
    destruct (openGameDetail_cursor localeCompare toUpperCase (controller selected) gameId game
                rView rStatus) as (Hlist & Hindex).
    rewrite Hdetail, Hsame, Hlist, Hindex, Hcontroller.
    rewrite (render_preserves _ _ currentConsoleId) by reflexivity.
    rewrite (render_preserves _ _ (navigationList localeCompare toUpperCase)) by reflexivity.
    assert (Hnav : navigationList localeCompare toUpperCase loaded =
                   sortBy (byTitle localeCompare) (bodyOr rGames [])).
    { unfold navigationList, cachedGames. now rewrite Halpha, Hgenre, Hconsole, Hcache. }
    rewrite Hnav. now repeat split.
Qed.
End Views.

(* ===================================================================== *)
(** ** The theorems at work on the sample states *)
(* ===================================================================== *)

Lemma render_page_never_empty_witness :
  workingGames ordinalCompare asciiUpperCase (fortyFive 3)
    = Some (sortBy (byTitle ordinalCompare) (manyGames 45)) /\
  exists cards pagination,
    gameList (renderGamesForCurrentConsole ordinalCompare asciiUpperCase (fortyFive 3))
      = Cards cards pagination /\
    cards <> [] /\ pg_total pagination = 3.
Proof.
  assert (Hworking : workingGames ordinalCompare asciiUpperCase (fortyFive 3)
                     = Some (sortBy (byTitle ordinalCompare) (manyGames 45)))
    by (vm_compute; reflexivity).
  assert (Hpage : 1 <= currentPage (fortyFive 3)) by (cbn; lia).
  split; [exact Hworking|].
  destruct (render_page_never_empty ordinalCompare asciiUpperCase (fortyFive 3) _
              Hworking Hpage)
    as [[Hnil _]|(_ & cards & pagination & Hcards & Hne & _ & _ & _ & Htotal)].
  - vm_compute in Hnil. discriminate Hnil.
  - exists cards, pagination. split; [exact Hcards|]. split; [exact Hne|].
    rewrite Htotal. vm_compute. reflexivity.
Defined.

Lemma clickNext_then_clickPrevious_witness :
  currentPage
    (clickNext ordinalCompare asciiUpperCase
       (renderGamesForCurrentConsole ordinalCompare asciiUpperCase (fortyFive 1))) = 2 /\
  clickPrevious ordinalCompare asciiUpperCase
    (clickNext ordinalCompare asciiUpperCase
       (renderGamesForCurrentConsole ordinalCompare asciiUpperCase (fortyFive 1)))
  = renderGamesForCurrentConsole ordinalCompare asciiUpperCase (fortyFive 1).
Proof.
  assert (Hpage : 1 <= currentPage (fortyFive 1)) by (cbn; lia).
  assert (Hcards :
    gameList (renderGamesForCurrentConsole ordinalCompare asciiUpperCase (fortyFive 1)) =
    Cards (slice (sortBy (byTitle ordinalCompare) (manyGames 45)) 0 20)
      {| pg_prev := false; pg_page := 1; pg_total := 3; pg_next := true |})
    by (vm_compute; reflexivity).
  destruct (clickNext_then_clickPrevious ordinalCompare asciiUpperCase (fortyFive 1) _ _
              Hpage Hcards eq_refl) as (Hnext & _ & Hback).
  split; [exact Hnext|exact Hback].
Defined.

Lemma resetFilter_undoes_applyFilter_witness :
  resetFilter ordinalCompare asciiUpperCase
    (applyFilter ordinalCompare asciiUpperCase (js "Z") sampleConsole) = sampleConsole.
Proof.
  apply (proj2 (resetFilter_undoes_applyFilter ordinalCompare asciiUpperCase (js "Z")
                  sampleConsole)).
  - reflexivity.
  - reflexivity.
  - vm_compute. reflexivity.
Defined.

Lemma displayed_cards_sorted_witness :
  truthy (activeStatusFilter genreRpg) = false /\
  StronglySorted (notAfter (byTitle ordinalCompare))
    (displayedGames
       (gameList (renderGamesForCurrentConsole ordinalCompare asciiUpperCase genreRpg))).
Proof.
  split; [reflexivity|].
  apply (displayed_cards_sorted ordinalCompare asciiUpperCase ordinalCompare_total
           ordinalCompare_trans genreRpg).
  reflexivity.
Defined.

Lemma navigation_loads_the_neighbour_witness :
  currentGameIndex (exec (navigateToPrevGame (Fulfilled asteroids) serverError) (browsing 1)) = 0 /\
  currentGameDetail (exec (navigateToPrevGame (Fulfilled asteroids) serverError) (browsing 1))
  = Some asteroids.
Proof.
  destruct (proj1 (navigation_loads_the_neighbour (browsing 1) asteroids asteroids serverError)
              eq_refl) as (Hindex & Hdetail & _).
  split; [exact Hindex|exact Hdetail].
Defined.

Lemma navigation_round_trip_witness :
  currentGameIndex
    (exec (navigateToNextGame (Fulfilled tetris) serverError)
       (exec (navigateToPrevGame (Fulfilled asteroids) serverError) (browsing 1))) = 1.
Proof.
  apply (proj1 (navigation_round_trip (browsing 1) (Fulfilled asteroids) (Fulfilled tetris)
                  serverError serverError)).
  cbn. lia.
Defined.

Lemma failed_navigation_witness :
  currentGameIndex (exec (navigateToPrevGame serverError serverError) (browsing 1)) = 0 /\
  currentGameDetail (exec (navigateToPrevGame serverError serverError) (browsing 1))
  = currentGameDetail (browsing 1).
Proof.
  destruct (failed_navigation_moves_the_cursor (browsing 1) asteroids 500
              (Some (Some (js "Internal Server Error"))) serverError eq_refl)
    as (Hindex & Hdetail & _).
  split; [exact Hindex|exact Hdetail].
Defined.

Lemma confirmAddGame_validation_witness :
  confirmAddGame ordinalCompare asciiUpperCase serverError serverError serverError serverError
    initialState
  = (showToast (js "Please select a console first") ToastWarning initialState, Returned tt).
Proof.
  apply (proj1 (confirmAddGame_validation ordinalCompare asciiUpperCase initialState
                  serverError serverError serverError serverError)).
  reflexivity.
Defined.

Lemma bulk_add_always_posts_witness :
  trim (addGamesList (page addTwo)) <> [] /\
  warnings
    (toasts
       (exec (confirmAddGame ordinalCompare asciiUpperCase serverError serverError serverError
                serverError) addTwo))
  = warnings (toasts addTwo).
Proof.
  assert (Htext : trim (addGamesList (page addTwo)) <> []) by (vm_compute; discriminate).
  split; [exact Htext|].
  apply (bulk_add_always_posts ordinalCompare asciiUpperCase addTwo serverError serverError
           serverError serverError eq_refl eq_refl Htext).
Defined.

(** Two consoles in the list, the first one selected. *)
Definition twoConsoles : Shell :=
  {| controller := sampleConsole;
     consoles := [{| console_id := 1; console_name := js "NES"; console_path := None;
                     console_game_count := 3 |};
                  {| console_id := 2; console_name := js "SNES"; console_path := None;
                     console_game_count := 0 |}];
     genres := [js "Action"; js "Arcade"; js "RPG"]; currentView := ConsoleView;
     globalSearchQuery := []; searchResultsList := []; currentLightboxIndex := 0;
     localStorage := ∅; shellRequests := [] |}.

(** The page as it starts after a reload, with the storage the selection
    of console 1 left. *)
Definition reloadedPage : Shell :=
  {| controller := initialState; consoles := []; genres := []; currentView := Homepage;
     globalSearchQuery := []; searchResultsList := []; currentLightboxIndex := 0;
     localStorage :=
       localStorage
         (selectConsole ordinalCompare asciiUpperCase 1 (Fulfilled [zelda; asteroids; tetris])
            serverError twoConsoles);
     shellRequests := [] |}.

Lemma selectConsole_clean_slate_witness :
  currentView
    (selectConsole ordinalCompare asciiUpperCase 2 serverError serverError twoConsoles)
  = ConsoleView /\
  gameList
    (controller
       (selectConsole ordinalCompare asciiUpperCase 2 serverError serverError twoConsoles))
  = NoGamesNotice.
Proof.
  assert (Hid : 2 <> 0) by lia.
  destruct (selectConsole_clean_slate ordinalCompare asciiUpperCase 2 serverError serverError
              twoConsoles Hid) as (Hview & _ & _ & _ & _ & _ & _ & Hlist & _).
  split; [exact Hview|]. rewrite Hlist. reflexivity.
Defined.

Lemma localStorage_mkShell (c : State) (cs : list Console) (g : list jsstring) (v : View)
    (q : jsstring) (r : list Game) (i : Z) (ls : gmap jsstring jsstring)
    (rq : list ShellRequest) :
  localStorage (mkShell c cs g v q r i ls rq) = ls.
Proof. reflexivity. Qed.

Lemma reload_restores_the_console_witness :
  currentView
    (loadInitialData ordinalCompare asciiUpperCase Finite (Fulfilled (consoles twoConsoles))
       (Fulfilled [zelda; asteroids; tetris]) serverError serverError serverError serverError
       reloadedPage) = ConsoleView /\
  currentView
    (loadInitialData ordinalCompare asciiUpperCase Finite serverError
       (Fulfilled [zelda; asteroids; tetris]) serverError serverError serverError serverError
       reloadedPage) = Homepage.
Proof.
  assert (Hid : 1 <> 0) by lia.
  assert (Hsafe : Z.abs 1 <= 2 ^ 53) by (vm_compute; discriminate).
  assert (Hstorage :
    localStorage reloadedPage =
    localStorage
      (selectConsole ordinalCompare asciiUpperCase 1 (Fulfilled [zelda; asteroids; tetris])
         serverError twoConsoles)).
  { unfold reloadedPage. apply localStorage_mkShell. }
  split.
  - apply (proj1 (reload_restores_the_console ordinalCompare asciiUpperCase Finite 1
                    twoConsoles
                    reloadedPage (Fulfilled [zelda; asteroids; tetris])
                    (Fulfilled [zelda; asteroids; tetris]) serverError serverError
                    serverError serverError serverError serverError serverError serverError
                    (Fulfilled (consoles twoConsoles)) Hid Hsafe) Hstorage).
    cbn. apply elem_of_cons. now left.
  - apply (proj1 (reload_restores_the_console ordinalCompare asciiUpperCase Finite 1
                    twoConsoles
                    reloadedPage (Fulfilled [zelda; asteroids; tetris])
                    (Fulfilled [zelda; asteroids; tetris]) serverError serverError
                    serverError serverError serverError serverError serverError serverError
                    serverError Hid Hsafe) Hstorage).
    cbn. now rewrite elem_of_nil.
Defined.

Lemma deleteConsole_cascade_witness :
  gamesByConsole
    (controller
       (deleteConsole ordinalCompare asciiUpperCase 1 true (Fulfilled tt) serverError
          twoConsoles)) !! Some 1 = None /\
  gameList
    (controller
       (deleteConsole ordinalCompare asciiUpperCase 1 true (Fulfilled tt) serverError
          twoConsoles)) = SelectConsoleNotice.
Proof.
  assert (Hlisted : 1 ∈ console_id <$> consoles twoConsoles) by (cbn; apply elem_of_cons; now left).
  destruct (deleteConsole_cascade ordinalCompare asciiUpperCase 1 (Fulfilled tt) serverError
              twoConsoles Hlisted) as (_ & Hcache & _ & _ & Hlist).
  split; [exact Hcache|]. apply Hlist; reflexivity.
Defined.

Lemma search_suspends_the_console_witness :
  trim (js " zelda") <> [] /\
  currentView
    (performGlobalSearch (js "URI malformed") (js " zelda") (Fulfilled [zelda]) twoConsoles)
  = SearchView /\
  performGlobalSearch (js "URI malformed") (js "  ") (Fulfilled [zelda]) twoConsoles
  = twoConsoles.
Proof.
  assert (Hquery : trim (js " zelda") <> []) by (vm_compute; discriminate).
  split; [exact Hquery|].
  destruct (search_suspends_the_console (js "URI malformed") (js " zelda") (Fulfilled [zelda])
              twoConsoles) as (_ & _ & Hsent & _).
  destruct (Hsent Hquery eq_refl) as (_ & Hview & _).
  split; [exact Hview|].
  apply (proj1 (proj2 (search_suspends_the_console (js "URI malformed") (js "  ")
                         (Fulfilled [zelda]) twoConsoles))).
  vm_compute. reflexivity.
Defined.

Lemma clearSearch_restores_the_console_witness :
  gameList
    (controller
       (clearSearch ordinalCompare asciiUpperCase (Fulfilled [zelda; asteroids; tetris])
          serverError serverError serverError serverError
          (performGlobalSearch (js "URI malformed") (js "zelda") serverError twoConsoles)))
  = gameList sampleConsole.
Proof.
  destruct (clearSearch_restores_the_console ordinalCompare asciiUpperCase
              (js "URI malformed") (js "zelda")
              serverError (Fulfilled [zelda; asteroids; tetris]) serverError serverError
              serverError serverError twoConsoles) as (_ & _ & _ & _ & _ & _ & Hsame).
  apply (Hsame [zelda; asteroids; tetris]).
  - reflexivity.
  - vm_compute. reflexivity.
  - reflexivity.
  - vm_compute. reflexivity.
Defined.

Lemma navigateToGame_witness :
  currentConsoleId
    (controller
       (navigateToGame ordinalCompare asciiUpperCase 2 (js "SNES") (Fulfilled [zelda; tetris])
          serverError (Fulfilled zelda) serverError serverError twoConsoles)) = Some 2 /\
  currentGameIndex
    (controller
       (navigateToGame ordinalCompare asciiUpperCase 2 (js "SNES") (Fulfilled [zelda; tetris])
          serverError (Fulfilled zelda) serverError serverError twoConsoles)) = 1.
Proof.
  destruct (proj2 (navigateToGame_opens_in_its_console ordinalCompare asciiUpperCase 2
                     (js "SNES") (Fulfilled [zelda; tetris]) serverError zelda serverError
                     serverError twoConsoles)
              {| console_id := 2; console_name := js "SNES"; console_path := None;
                 console_game_count := 0 |} eq_refl)
    as (_ & Hconsole & _ & _ & Hindex).
  split; [exact Hconsole|]. rewrite Hindex. vm_compute. reflexivity.
Defined.
